(** * System Health Management: registry, event listener, recovery, probes

    A shallow embedding of the health subsystem
    (src/main/services/health): the persistent process registry, the event
    listener with its decaying error counters and bounded event buffer, the
    recovery strategy catalogue with its executor and its dialogs, and the
    health probes.

    Conventions of the embedding.
    - JavaScript numbers that hold counters, PIDs and millisecond
      timestamps are integers of [Z]; this is exact below 2^53.
    - Module-level [let]/[const] variables become fields of a state record
      that every function takes and returns.
    - What the environment decides (the clock, [randomUUID], whether a
      file-system call succeeds, whether an injected callback throws) is
      passed in as an explicit record per call.
    - A thrown exception is a value: functions that can throw return
      [option] or the [Exc] type below. *)

From Stdlib Require Import ZArith Bool List Lia.
From stdpp Require Import base decidable option list strings pretty gmap fin_maps.

Local Open Scope string_scope.
Local Open Scope list_scope.
Local Open Scope Z_scope.

(** ** Types (types.ts) *)

Inductive ProcessType := V2Session | Tunnel | OpenaiRouter | HttpServer.

#[global] Instance ProcessType_eq_dec : EqDecision ProcessType.
Proof. solve_decision. Defined.

(** [ProcessEntry]: [pid] is [number | null]. *)
Record ProcessEntry := mkEntry {
  e_id : string;
  e_pid : option Z;
  e_type : ProcessType;
  e_instanceId : string;
  e_startedAt : Z;
  e_lastHeartbeat : Z
}.

(** [HealthRegistry], the persisted root. *)
Record HealthRegistry := mkRegistry {
  r_version : Z;
  r_instanceId : string;
  r_previousInstanceId : option string;
  r_startedAt : Z;
  r_lastCleanExit : bool;
  r_processes : list ProcessEntry
}.

Inductive HealthSeverity := Info | Warning | Critical.

#[global] Instance HealthSeverity_eq_dec : EqDecision HealthSeverity.
Proof. solve_decision. Defined.

(** A parsed JSON value, for [Record<string, unknown>] payloads and for
    the configuration file. Numbers are integers here. An object keeps its
    members in source order. *)
#[local] Unset Elimination Schemes.
Inductive Json :=
  | JNull
  | JBool (b : bool)
  | JNum (n : Z)
  | JStr (s : string)
  | JArr (items : list Json)
  | JObj (members : list (string * Json)).
#[local] Set Elimination Schemes.

Inductive HealthEventCategory := CatCritical | CatWarning | CatInfo.

Inductive HealthEventType :=
  | agent_error | process_exit | renderer_crash | renderer_unresponsive
  | network_error | config_change | recovery_success | startup_check.

Record HealthEvent := mkEvent {
  ev_type : HealthEventType;
  ev_category : HealthEventCategory;
  ev_timestamp : Z;
  ev_source : string;
  ev_message : string;
  ev_data : option (list (string * Json))
}.

Inductive RecoveryStrategyId := S1 | S2 | S3 | S4.

(** Modelled from the spec: the result of [cleanupOrphans()], whose file
    process-guardian/cleaner.ts is not among the sources. The call
    terminates the processes of the orphan entries and resolves to
    [{cleaned, failed, details}], or rejects with an error; here it is an
    action of the environment, and what it does to the registry is not
    followed. *)
Record CleanupResult := mkCleanup { cleaned : Z; failed : Z }.

#[global] Instance RecoveryStrategyId_eq_dec : EqDecision RecoveryStrategyId.
Proof. solve_decision. Defined.

(** A computation that returns or throws an [Error] with a message. *)
Inductive Exc (A : Type) := Ok (a : A) | Throw (msg : string).
Arguments Ok {A} a.
Arguments Throw {A} msg.

#[global] Instance Exc_ret : MRet Exc := fun A a => Ok a.

#[global] Instance Exc_bind : MBind Exc := fun A B f m =>
  match m with
  | Ok a => f a
  | Throw msg => Throw msg
  end.

Definition threw {A} (m : Exc A) : bool :=
  match m with Ok _ => false | Throw _ => true end.

(** ** Process registry (process-guardian/registry.ts) *)

Module Registry.

(** The registry file. [JSON.stringify] followed by [JSON.parse] is taken
    to give back the registry that was written; a file that does not parse
    is [Corrupt]. [NoDir] is a missing data directory. *)
Inductive FileContent := Corrupt | Stored (r : HealthRegistry).
Inductive Disk := NoDir | NoFile | File (c : FileContent).

(** What the environment decides during one call. *)
Record IO := mkIO {
  io_uuid : string;      (* randomUUID() *)
  io_now : Z;            (* Date.now() *)
  io_read_ok : bool;     (* readFileSync does not throw *)
  io_mkdir_ok : bool;    (* mkdirSync does not throw *)
  io_write_ok : bool     (* writeFileSync does not throw *)
}.

(** The module variables, and the disk they are written to. *)
Record State := mkState {
  currentInstanceId : string;
  previousInstanceId : option string;
  registryCache : option HealthRegistry;
  disk : Disk
}.

(** A freshly loaded module: [currentInstanceId = ''],
    [previousInstanceId] undefined, [registryCache = null]. *)
Definition init (d : Disk) : State :=
  {| currentInstanceId := ""; previousInstanceId := None;
     registryCache := None; disk := d |}.

(** [existsSync(path)], [readFileSync] and [JSON.parse] inside one [try]. *)
Inductive ReadResult := Absent | Failed | Parsed (r : HealthRegistry).

Definition readFile (io : IO) (d : Disk) : ReadResult :=
  match d with
  | NoDir | NoFile => Absent
  | File c =>
      if io_read_ok io
      then match c with Corrupt => Failed | Stored r => Parsed r end
      else Failed
  end.

(** [writeFileSync]; [None] when it throws, and the file is then left as
    it was. *)
Definition writeFile (io : IO) (r : HealthRegistry) (d : Disk) : option Disk :=
  match d with
  | NoDir => None
  | NoFile | File _ => if io_write_ok io then Some (File (Stored r)) else None
  end.

(** [markInstanceStart]. The result is [None] when the uncaught
    [mkdirSync] throws. *)
Definition markInstanceStart (io : IO) (s : State) : State * option string :=
  let startTime := io_now io in
  let cur := io_uuid io in
  let previousRegistry :=
    match readFile io (disk s) with Parsed r => Some r | _ => None end in
  let prev :=
    match previousRegistry with
    | Some r => Some (r_instanceId r)
    | None => previousInstanceId s
    end in
  let registry :=
    {| r_version := 1;
       r_instanceId := cur;
       r_previousInstanceId := prev;
       r_startedAt := startTime;
       r_lastCleanExit := false;
       r_processes := from_option r_processes [] previousRegistry |} in
  let after_mkdir :=
    match disk s with
    | NoDir => if io_mkdir_ok io then Some NoFile else None
    | d => Some d
    end in
  match after_mkdir with
  | None =>
      ({| currentInstanceId := cur; previousInstanceId := prev;
          registryCache := registryCache s; disk := disk s |}, None)
  | Some d =>
      match writeFile io registry d with
      | Some d' =>
          ({| currentInstanceId := cur; previousInstanceId := prev;
              registryCache := Some registry; disk := d' |}, Some cur)
      | None =>
          ({| currentInstanceId := cur; previousInstanceId := prev;
              registryCache := registryCache s; disk := d |}, Some cur)
      end
  end.

Definition getCurrentInstanceId (s : State) : string := currentInstanceId s.
Definition getPreviousInstanceId (s : State) : option string := previousInstanceId s.

Definition setCache (r : HealthRegistry) (s : State) : State :=
  {| currentInstanceId := currentInstanceId s;
     previousInstanceId := previousInstanceId s;
     registryCache := Some r; disk := disk s |}.

(** [loadRegistry]: the cache when there is one, else the file. *)
Definition loadRegistry (io : IO) (s : State) : State * option HealthRegistry :=
  match registryCache s with
  | Some r => (s, Some r)
  | None =>
      match readFile io (disk s) with
      | Parsed r => (setCache r s, Some r)
      | _ => (s, None)
      end
  end.

(** [saveRegistry]. *)
Definition saveRegistry (io : IO) (registry : HealthRegistry) (s : State) : State :=
  match writeFile io registry (disk s) with
  | Some d =>
      {| currentInstanceId := currentInstanceId s;
         previousInstanceId := previousInstanceId s;
         registryCache := Some registry; disk := d |}
  | None => s
  end.

Definition withProcesses (r : HealthRegistry) (ps : list ProcessEntry) : HealthRegistry :=
  {| r_version := r_version r; r_instanceId := r_instanceId r;
     r_previousInstanceId := r_previousInstanceId r;
     r_startedAt := r_startedAt r; r_lastCleanExit := r_lastCleanExit r;
     r_processes := ps |}.

Definition withLastCleanExit (r : HealthRegistry) (b : bool) : HealthRegistry :=
  {| r_version := r_version r; r_instanceId := r_instanceId r;
     r_previousInstanceId := r_previousInstanceId r;
     r_startedAt := r_startedAt r; r_lastCleanExit := b;
     r_processes := r_processes r |}.

Definition withHeartbeat (e : ProcessEntry) (t : Z) : ProcessEntry :=
  {| e_id := e_id e; e_pid := e_pid e; e_type := e_type e;
     e_instanceId := e_instanceId e; e_startedAt := e_startedAt e;
     e_lastHeartbeat := t |}.

(** [p => p.id === id && p.type === type] *)
Definition sameProcess (id : string) (ty : ProcessType) (p : ProcessEntry) : bool :=
  bool_decide (e_id p = id) && bool_decide (e_type p = ty).

(** [Array.prototype.findIndex]; [None] stands for [-1]. *)
Fixpoint findIndex {A} (f : A -> bool) (l : list A) : option nat :=
  match l with
  | [] => None
  | x :: l' => if f x then Some O else S <$> findIndex f l'
  end.

(** [registerProcess]. The object returned by [loadRegistry] is the cached
    one, so the update of [registry.processes] changes the cache whether or
    not the write that follows succeeds. *)
Definition registerProcess (entry : ProcessEntry) (io : IO) (s : State) : State :=
  match loadRegistry io s with
  | (s1, None) => s1
  | (s1, Some registry) =>
      let newEntry := withHeartbeat entry (io_now io) in
      let ps :=
        match findIndex (sameProcess (e_id entry) (e_type entry)) (r_processes registry) with
        | Some existingIndex => <[existingIndex := newEntry]> (r_processes registry)
        | None => r_processes registry ++ [newEntry]
        end in
      let registry' := withProcesses registry ps in
      saveRegistry io registry' (setCache registry' s1)
  end.

(** [unregisterProcess]: [splice(index, 1)] on the first match. *)
Definition unregisterProcess (id : string) (ty : ProcessType) (io : IO) (s : State) : State :=
  match loadRegistry io s with
  | (s1, None) => s1
  | (s1, Some registry) =>
      match findIndex (sameProcess id ty) (r_processes registry) with
      | Some index =>
          let registry' := withProcesses registry (delete index (r_processes registry)) in
          saveRegistry io registry' (setCache registry' s1)
      | None => s1
      end
  end.

(** [updateHeartbeat]: touches the first match in place. *)
Definition updateHeartbeat (id : string) (ty : ProcessType) (io : IO) (s : State) : State :=
  match loadRegistry io s with
  | (s1, None) => s1
  | (s1, Some registry) =>
      match findIndex (sameProcess id ty) (r_processes registry) with
      | Some index =>
          let ps := alter (fun e => withHeartbeat e (io_now io)) index (r_processes registry) in
          let registry' := withProcesses registry ps in
          saveRegistry io registry' (setCache registry' s1)
      | None => s1
      end
  end.

Definition getCurrentProcesses (io : IO) (s : State) : State * list ProcessEntry :=
  match loadRegistry io s with
  | (s1, None) => (s1, [])
  | (s1, Some registry) =>
      (s1, filter (fun p => e_instanceId p = currentInstanceId s1) (r_processes registry))
  end.

Definition getOrphanProcesses (io : IO) (s : State) : State * list ProcessEntry :=
  match loadRegistry io s with
  | (s1, None) => (s1, [])
  | (s1, Some registry) =>
      (s1, filter (fun p => e_instanceId p <> currentInstanceId s1) (r_processes registry))
  end.

(** [clearOrphanEntries]: the filtered list is stored in the cached object
    at once; the file is written only when something was dropped. *)
Definition clearOrphanEntries (io : IO) (s : State) : State :=
  match loadRegistry io s with
  | (s1, None) => s1
  | (s1, Some registry) =>
      let originalCount := length (r_processes registry) in
      let kept := filter (fun p => e_instanceId p = currentInstanceId s1) (r_processes registry) in
      let registry' := withProcesses registry kept in
      if (length kept <? originalCount)%nat
      then saveRegistry io registry' (setCache registry' s1)
      else setCache registry' s1
  end.

Definition markCleanExit (io : IO) (s : State) : State :=
  match loadRegistry io s with
  | (s1, None) => s1
  | (s1, Some registry) =>
      let registry' := withLastCleanExit registry true in
      saveRegistry io registry' (setCache registry' s1)
  end.

(** [wasLastExitClean] reads the file, never the cache. *)
Definition wasLastExitClean (io : IO) (s : State) : bool :=
  match readFile io (disk s) with
  | Absent => true
  | Failed => true
  | Parsed registry =>
      if bool_decide (r_instanceId registry = currentInstanceId s) then true
      else r_lastCleanExit registry
  end.

Record Stats := mkStats {
  totalProcesses : nat; currentProcesses : nat; orphanProcesses : nat
}.

Definition getRegistryStats (io : IO) (s : State) : State * Stats :=
  match loadRegistry io s with
  | (s1, None) => (s1, mkStats 0 0 0)
  | (s1, Some registry) =>
      let currentCount :=
        length (filter (fun p => e_instanceId p = currentInstanceId s1) (r_processes registry)) in
      (s1, mkStats (length (r_processes registry)) currentCount
             (length (r_processes registry) - currentCount))
  end.

(** The entries a reader finds in the file. *)
Definition diskEntries (d : Disk) : list ProcessEntry :=
  match d with
  | File (Stored r) => r_processes r
  | _ => []
  end.

End Registry.

(** ** Event listener (health-checker/event-listener.ts) *)

Module EventListener.

Record Counter := mkCounter { count : Z; lastTime : Z }.

(** A registered handler is code of the caller. What it may do when it is
    invoked is described by the calls it makes back into this module and
    by whether it ends by throwing. Emitting an event or (un)subscribing
    from inside a handler is outside the model. *)
Inductive HandlerCall :=
  | CallTrackError (source : string) (now : Z)
  | CallResetErrorCounter (source : string)
  | CallClearRecentEvents.

Record HandlerRun := mkRun {
  h_calls : list HandlerCall;
  h_throws : option string
}.

Definition HealthEventHandler : Type := HealthEvent -> HandlerRun.

(** The module variables; [consoleErrors] collects what the [catch] around
    a handler prints. *)
Record State := mkState {
  eventHandlers : list HealthEventHandler;
  recentEvents : list HealthEvent;
  errorCounters : gmap string Counter;
  consoleErrors : list string
}.

Definition MAX_RECENT_EVENTS : nat := 50.
Definition COUNTER_RESET_MS : Z := 60000.

Definition init : State :=
  {| eventHandlers := []; recentEvents := []; errorCounters := ∅;
     consoleErrors := [] |}.

Definition setHandlers (hs : list HealthEventHandler) (st : State) : State :=
  {| eventHandlers := hs; recentEvents := recentEvents st;
     errorCounters := errorCounters st; consoleErrors := consoleErrors st |}.

Definition setRecent (evs : list HealthEvent) (st : State) : State :=
  {| eventHandlers := eventHandlers st; recentEvents := evs;
     errorCounters := errorCounters st; consoleErrors := consoleErrors st |}.

Definition setCounters (m : gmap string Counter) (st : State) : State :=
  {| eventHandlers := eventHandlers st; recentEvents := recentEvents st;
     errorCounters := m; consoleErrors := consoleErrors st |}.

Definition logError (msg : string) (st : State) : State :=
  {| eventHandlers := eventHandlers st; recentEvents := recentEvents st;
     errorCounters := errorCounters st;
     consoleErrors := consoleErrors st ++ [msg] |}.

(** [onHealthEvent]: [eventHandlers.push(handler)]. *)
Definition onHealthEvent (handler : HealthEventHandler) (st : State) : State :=
  setHandlers (eventHandlers st ++ [handler]) st.

(** [trackError]. *)
Definition trackError (source : string) (now : Z) (st : State) : State * Z :=
  match errorCounters st !! source with
  | Some counter =>
      let counter' :=
        if now - lastTime counter >? COUNTER_RESET_MS
        then {| count := 1; lastTime := now |}
        else {| count := count counter + 1; lastTime := now |} in
      (setCounters (<[source := counter']> (errorCounters st)) st, count counter')
  | None =>
      (setCounters (<[source := {| count := 1; lastTime := now |}]> (errorCounters st)) st, 1)
  end.

Definition resetErrorCounter (source : string) (st : State) : State :=
  setCounters (delete source (errorCounters st)) st.

(** [counter?.count ?? 0] *)
Definition getErrorCount (source : string) (st : State) : Z :=
  from_option count 0 (errorCounters st !! source).

Definition getTotalErrorCount (st : State) : Z :=
  map_fold (fun _ counter total => total + count counter) 0 (errorCounters st).

Definition getRecentEvents (st : State) : list HealthEvent := recentEvents st.

(** [recentEvents.length = 0] *)
Definition clearRecentEvents (st : State) : State := setRecent [] st.

(** [unshift] the event, then [pop] when the buffer is over its bound. *)
Definition pushRecent (event : HealthEvent) (buf : list HealthEvent) : list HealthEvent :=
  let buf' := event :: buf in
  if (MAX_RECENT_EVENTS <? length buf')%nat then removelast buf' else buf'.

Definition runCall (st : State) (c : HandlerCall) : State :=
  match c with
  | CallTrackError source now => fst (trackError source now st)
  | CallResetErrorCounter source => resetErrorCounter source st
  | CallClearRecentEvents => clearRecentEvents st
  end.

(** One turn of the loop over the handlers: [try { handler(event) }
    catch (error) { console.error(...) }]. *)
Definition invoke (event : HealthEvent) (st : State) (handler : HealthEventHandler) : State :=
  let run := handler event in
  let st' := fold_left runCall (h_calls run) st in
  match h_throws run with
  | Some msg => logError msg st'
  | None => st'
  end.

(** [emitHealthEvent]. *)
Definition emitHealthEvent (type : HealthEventType) (category : HealthEventCategory)
    (source message : string) (data : option (list (string * Json)))
    (now : Z) (st : State) : State :=
  let event :=
    {| ev_type := type; ev_category := category; ev_timestamp := now;
       ev_source := source; ev_message := message; ev_data := data |} in
  let st1 := setRecent (pushRecent event (recentEvents st)) st in
  fold_left (invoke event) (eventHandlers st1) st1.

(** [emitAgentError]; [tnow] is the clock read by [trackError], [enow]
    the one read by [emitHealthEvent]. *)
Definition emitAgentError (conversationId error : string)
    (data : list (string * Json)) (tnow enow : Z) (st : State) : State :=
  let '(st1, n) := trackError ("agent:" +:+ conversationId) tnow st in
  emitHealthEvent agent_error
    (if 3 <=? n then CatCritical else CatWarning)
    ("agent:" +:+ conversationId) error
    (Some (data ++ [("consecutiveErrors", JNum n); ("conversationId", JStr conversationId)]))
    enow st1.

(** [emitRecoverySuccess]: the event, then [errorCounters.clear()]. *)
Definition emitRecoverySuccess (strategyId message : string) (now : Z) (st : State) : State :=
  let st1 := emitHealthEvent recovery_success CatInfo strategyId message None now st in
  setCounters ∅ st1.

End EventListener.

(** ** Recovery strategies (recovery-manager/strategies.ts) *)

Module Strategies.

Record RecoveryStrategy := mkStrategy {
  id : RecoveryStrategyId;
  name : string;
  description : string;
  trigger : string;
  actions : list string;
  requiresConsentField : bool
}.

Definition RECOVERY_STRATEGIES (sid : RecoveryStrategyId) : RecoveryStrategy :=
  match sid with
  | S1 => {| id := S1; name := "Restart Single Process";
             description := "Kills and recreates a single unhealthy process";
             trigger := "Single process unhealthy";
             actions := ["Kill the unhealthy process";
                         "Wait for process to terminate";
                         "Process will be recreated on next use"];
             requiresConsentField := false |}
  | S2 => {| id := S2; name := "Reset Agent Engine";
             description := "Kills all V2 sessions and restarts the OpenAI Router";
             trigger := "3+ consecutive agent errors";
             actions := ["Close all active V2 sessions";
                         "Kill all SDK CLI processes";
                         "Restart OpenAI compat router (if active)";
                         "Clear agent error counters"];
             requiresConsentField := false |}
  | S3 => {| id := S3; name := "Restart Application";
             description := "Completely restarts the Halo application";
             trigger := "5+ consecutive errors";
             actions := ["Save current state (if possible)";
                         "Close all windows and processes";
                         "Relaunch application"];
             requiresConsentField := true |}
  | S4 => {| id := S4; name := "Factory Reset";
             description := "Clears all caches and resets configuration to defaults";
             trigger := "Manual trigger only";
             actions := ["Clear all cached data";
                         "Reset configuration to defaults";
                         "Clear conversation index (preserves data)";
                         "Restart application"];
             requiresConsentField := true |}
  end.

Definition AGENT_RESET : Z := 3.
Definition APP_RESTART : Z := 5.
Definition ERROR_WINDOW_MS : Z := 60000.

Definition getStrategy (sid : RecoveryStrategyId) : RecoveryStrategy :=
  RECOVERY_STRATEGIES sid.

(** [String.prototype.includes]: [sub] occurs somewhere in [s]. *)
Fixpoint includes (s sub : string) : bool :=
  String.prefix sub s ||
  match s with
  | EmptyString => false
  | String _ s' => includes s' sub
  end.

(** [selectRecoveryStrategy]; [None] is [null]. *)
Definition selectRecoveryStrategy (errorCount : Z) (source : string)
    : option RecoveryStrategyId :=
  if (AGENT_RESET <=? errorCount) && (errorCount <? APP_RESTART)
     && (includes source "agent" || includes source "session")
  then Some S2
  else if APP_RESTART <=? errorCount then Some S3
  else None.

Definition requiresConsent (sid : RecoveryStrategyId) : bool :=
  requiresConsentField (RECOVERY_STRATEGIES sid).

Definition idString (sid : RecoveryStrategyId) : string :=
  match sid with S1 => "S1" | S2 => "S2" | S3 => "S3" | S4 => "S4" end.

End Strategies.

(** ** Recovery executor (recovery-manager/executor.ts) *)

Module Executor.

Import Strategies.

Record RecoveryResult := mkResult {
  strategyId : RecoveryStrategyId;
  success : bool;
  message : string;
  timestamp : Z;
  data : option (list (string * Json))
}.

(** The module variables. [closeAllSessionsFn] records whether a session
    cleanup function has been injected. *)
Record State := mkState {
  recentRecoveryAttempts : Z;
  lastRecoveryTime : Z;
  closeAllSessionsFn : bool;
  consecutiveErrorCount : Z
}.

Definition RECOVERY_COOLDOWN_MS : Z := 30000.
Definition MAX_RECOVERY_ATTEMPTS : Z := 3.

Definition init : State :=
  {| recentRecoveryAttempts := 0; lastRecoveryTime := 0;
     closeAllSessionsFn := false; consecutiveErrorCount := 0 |}.

(** What a strategy does outside this subsystem: the injected session
    cleanup, [cleanupOrphans()], and the relaunch it schedules with
    [setTimeout]. *)
Inductive Effect := CloseAllSessions | CleanupOrphans | ScheduleRelaunch.

(** Everything the executor reads or writes: the registry and listener
    modules, its own variables, the external actions taken so far and the
    lines it has printed. *)
Record World := mkWorld {
  registry : Registry.State;
  listener : EventListener.State;
  executor : State;
  effects : list Effect;
  console : list string
}.

Definition initWorld (d : Registry.Disk) : World :=
  {| registry := Registry.init d; listener := EventListener.init;
     executor := init; effects := []; console := [] |}.

(** What the environment decides during one [executeRecovery]. *)
Record Env := mkEnv {
  env_now : Z;                        (* Date.now() on entry *)
  env_event_now : Z;                  (* Date.now() in emitHealthEvent *)
  env_result_now : Z;                 (* Date.now() in the strategy's result *)
  env_sessions_throw : option string; (* the injected cleanup throws *)
  env_cleanup : Exc CleanupResult;    (* what cleanupOrphans() gives *)
  env_exit_io : Registry.IO;          (* file system during markCleanExit *)
  env_clear_io : Registry.IO          (* file system during clearOrphanEntries *)
}.

(** Computations over the world that may throw. *)
Definition M (A : Type) : Type := World -> World * Exc A.

#[global] Instance M_ret : MRet M := fun A a w => (w, Ok a).

#[global] Instance M_bind : MBind M := fun A B f m w =>
  match m w with
  | (w', Ok a) => f a w'
  | (w', Throw msg) => (w', Throw msg)
  end.

(** [try { body } catch (error) { handler }] *)
Definition catch {A} (body : M A) (handler : string -> M A) : M A := fun w =>
  match body w with
  | (w', Ok a) => (w', Ok a)
  | (w', Throw msg) => handler msg w'
  end.

(** The same where the handler returns a value, so that nothing escapes. *)
Definition tryCatch {A} (body : M A) (handler : string -> World -> World * A)
    (w : World) : World * A :=
  match body w with
  | (w', Ok a) => (w', a)
  | (w', Throw msg) => handler msg w'
  end.

Definition addLog (line : string) (w : World) : World :=
  {| registry := registry w; listener := listener w; executor := executor w;
     effects := effects w; console := console w ++ [line] |}.

Definition addEffect (e : Effect) (w : World) : World :=
  {| registry := registry w; listener := listener w; executor := executor w;
     effects := effects w ++ [e]; console := console w |}.

Definition setRegistry (r : Registry.State) (w : World) : World :=
  {| registry := r; listener := listener w; executor := executor w;
     effects := effects w; console := console w |}.

Definition setListener (l : EventListener.State) (w : World) : World :=
  {| registry := registry w; listener := l; executor := executor w;
     effects := effects w; console := console w |}.

Definition setExecutor (x : State) (w : World) : World :=
  {| registry := registry w; listener := listener w; executor := x;
     effects := effects w; console := console w |}.

Definition log (line : string) : M unit := fun w => (addLog line w, Ok tt).
Definition perform (e : Effect) : M unit := fun w => (addEffect e w, Ok tt).
Definition outcome {A} (x : Exc A) : M A := fun w => (w, x).
Definition raise (o : option string) : M unit :=
  outcome (match o with Some msg => Throw msg | None => Ok tt end).
Definition onRegistry (f : Registry.State -> Registry.State) : M unit :=
  fun w => (setRegistry (f (registry w)) w, Ok tt).
Definition onListener (f : EventListener.State -> EventListener.State) : M unit :=
  fun w => (setListener (f (listener w)) w, Ok tt).

Definition injectSessionCleanup (w : World) : World :=
  setExecutor {| recentRecoveryAttempts := recentRecoveryAttempts (executor w);
                 lastRecoveryTime := lastRecoveryTime (executor w);
                 closeAllSessionsFn := true;
                 consecutiveErrorCount := consecutiveErrorCount (executor w) |} w.

Definition updateErrorCount (n : Z) (w : World) : World :=
  setExecutor {| recentRecoveryAttempts := recentRecoveryAttempts (executor w);
                 lastRecoveryTime := lastRecoveryTime (executor w);
                 closeAllSessionsFn := closeAllSessionsFn (executor w);
                 consecutiveErrorCount := n |} w.

Definition setAttempts (n : Z) (w : World) : World :=
  setExecutor {| recentRecoveryAttempts := n;
                 lastRecoveryTime := lastRecoveryTime (executor w);
                 closeAllSessionsFn := closeAllSessionsFn (executor w);
                 consecutiveErrorCount := consecutiveErrorCount (executor w) |} w.

Definition setLastRecoveryTime (t : Z) (w : World) : World :=
  setExecutor {| recentRecoveryAttempts := recentRecoveryAttempts (executor w);
                 lastRecoveryTime := t;
                 closeAllSessionsFn := closeAllSessionsFn (executor w);
                 consecutiveErrorCount := consecutiveErrorCount (executor w) |} w.

(** [if (closeAllSessionsFn) { closeAllSessionsFn() }] *)
Definition closeAllSessions (env : Env) : M bool := fun w =>
  if closeAllSessionsFn (executor w)
  then (raise (env_sessions_throw env) ;; mret true) (addEffect CloseAllSessions w)
  else (w, Ok false).

(** [await cleanupOrphans()] *)
Definition cleanupOrphans (env : Env) : M CleanupResult :=
  perform CleanupOrphans ;; outcome (env_cleanup env).

Definition emitRecoverySuccess (sid msg : string) (env : Env) : M unit :=
  onListener (EventListener.emitRecoverySuccess sid msg (env_event_now env)).

Definition failure (sid : RecoveryStrategyId) (msg : string) (t : Z) : RecoveryResult :=
  {| strategyId := sid; success := false; message := msg; timestamp := t;
     data := None |}.

(** The line each strategy prints on entry. *)
Definition bodyLine (sid : RecoveryStrategyId) : string :=
  match sid with
  | S1 => "[Health][Recovery] S1: Process restart prepared"
  | S2 => "[Health][Recovery] S2: Resetting agent engine..."
  | S3 => "[Health][Recovery] S3: Restarting application..."
  | S4 => "[Health][Recovery] S4: Factory reset..."
  end.

Definition executeS1 (env : Env) : M RecoveryResult :=
  log (bodyLine S1) ;;
  emitRecoverySuccess "S1" "Process marked for restart on next use" env ;;
  mret {| strategyId := S1; success := true;
          message := "Process will be recreated on next use";
          timestamp := env_result_now env; data := None |}.

Definition executeS2 (env : Env) : M RecoveryResult :=
  log (bodyLine S2) ;;
  catch
    (closed ← closeAllSessions env;
     (if closed : bool then log "[Health][Recovery] All V2 sessions closed" else mret tt) ;;
     cleanupOrphans env ;;
     onListener (EventListener.resetErrorCounter "agent") ;;
     emitRecoverySuccess "S2" "Agent engine reset successfully" env ;;
     mret {| strategyId := S2; success := true;
             message := "Agent engine reset successfully";
             timestamp := env_result_now env;
             data := Some [("sessionsClosed", JBool true); ("orphansCleaned", JBool true)] |})
    (fun msg => mret (failure S2 ("Reset failed: " +:+ msg) (env_result_now env))).

Definition executeS3 (env : Env) : M RecoveryResult :=
  log (bodyLine S3) ;;
  catch
    (onRegistry (Registry.markCleanExit (env_exit_io env)) ;;
     closeAllSessions env ;;
     onRegistry (Registry.clearOrphanEntries (env_clear_io env)) ;;
     emitRecoverySuccess "S3" "Application restart initiated" env ;;
     perform ScheduleRelaunch ;;
     mret {| strategyId := S3; success := true;
             message := "Application restart initiated";
             timestamp := env_result_now env; data := None |})
    (fun msg => mret (failure S3 ("Restart failed: " +:+ msg) (env_result_now env))).

Definition executeS4 (env : Env) : M RecoveryResult :=
  log (bodyLine S4) ;;
  catch
    (closeAllSessions env ;;
     cleanupOrphans env ;;
     onRegistry (Registry.clearOrphanEntries (env_clear_io env)) ;;
     emitRecoverySuccess "S4" "Factory reset completed" env ;;
     perform ScheduleRelaunch ;;
     mret {| strategyId := S4; success := true;
             message := "Factory reset completed, restarting...";
             timestamp := env_result_now env; data := None |})
    (fun msg => mret (failure S4 ("Factory reset failed: " +:+ msg) (env_result_now env))).

Definition executingLine (sid : RecoveryStrategyId) : string :=
  "[Health][Recovery] Executing strategy " +:+ idString sid +:+ ": "
  +:+ name (getStrategy sid).

(** [executeRecovery]. *)
Definition executeRecovery (sid : RecoveryStrategyId) (userConsented : bool)
    (env : Env) (w : World) : World * RecoveryResult :=
  let strategy := getStrategy sid in
  let now := env_now env in
  let w0 := addLog (executingLine sid) w in
  if requiresConsentField strategy && negb userConsented
  then (w0, failure sid "User consent required" now)
  else
    let inCooldown := now - lastRecoveryTime (executor w0) <? RECOVERY_COOLDOWN_MS in
    let attempts :=
      if inCooldown then recentRecoveryAttempts (executor w0) + 1 else 1 in
    let w1 := setAttempts attempts w0 in
    if inCooldown && (attempts >? MAX_RECOVERY_ATTEMPTS)
    then (addLog "[Health][Recovery] Too many recovery attempts, stopping" w1,
          failure sid "Recovery rate limit exceeded" now)
    else
      tryCatch
        (match sid with
         | S1 => executeS1 env
         | S2 => executeS2 env
         | S3 => executeS3 env
         | S4 => executeS4 env
         end)
        (fun msg w' =>
           (addLog ("[Health][Recovery] Strategy " +:+ idString sid +:+ " failed:") w',
            failure sid ("Recovery failed: " +:+ msg) now))
        (setLastRecoveryTime now w1).

(** [canRecover]. *)
Definition canRecover (now : Z) (w : World) : bool :=
  if now - lastRecoveryTime (executor w) <? RECOVERY_COOLDOWN_MS
  then recentRecoveryAttempts (executor w) <? MAX_RECOVERY_ATTEMPTS
  else true.

(** One call of [executeRecovery] and a sequence of them, each call
    finishing before the next begins. *)
Record Call := mkCall {
  c_strategy : RecoveryStrategyId;
  c_consented : bool;
  c_env : Env
}.

Record Step := mkStep {
  st_before : World;
  st_call : Call;
  st_result : RecoveryResult;
  st_after : World
}.

Fixpoint run (w : World) (calls : list Call) : list Step :=
  match calls with
  | [] => []
  | c :: calls' =>
      let '(w', r) := executeRecovery (c_strategy c) (c_consented c) (c_env c) w in
      mkStep w c r w' :: run w' calls'
  end.

End Executor.

(** ** Health probes (health-checker/probes) *)

Module Probes.

(** The typed [data] of the five probe results. The disk probe's
    [freePercent], a floating-point quotient, is left out. *)
Inductive ProbeData :=
  | ConfigData (fileExists jsonValid criticalFieldsPresent apiKeyConfigured : bool)
               (errors : list string)
  | DiskData (path : string) (freeSpace totalSpace thresholdMB : Z)
  | PortData (portsChecked portsOccupied portsAvailable : list Z)
  | ProcessData (orphansFound : list (Z * ProcessType * string))
                (currentProcesses : list ProcessEntry) (zombiesKilled : Z)
  | ServiceData (serviceName : string) (responsive : bool)
                (responseTime : option Z) (error : option string).

Record ProbeResult := mkProbe {
  name : string;
  healthy : bool;
  severity : HealthSeverity;
  message : string;
  timestamp : Z;
  data : ProbeData
}.

(** *** Reading a parsed JSON value the way JavaScript does *)

(** [!!v]; [undefined] is [None]. *)
Definition truthy (o : option Json) : bool :=
  match o with
  | None | Some JNull => false
  | Some (JBool b) => b
  | Some (JNum n) => negb (n =? 0)
  | Some (JStr s) => negb (String.eqb s "")
  | Some (JArr _) | Some (JObj _) => true
  end.

Definition typeofString (o : option Json) : bool :=
  match o with Some (JStr _) => true | _ => false end.

(** [typeof v === 'object'], which holds of [null] too. *)
Definition typeofObject (o : option Json) : bool :=
  match o with Some JNull | Some (JArr _) | Some (JObj _) => true | _ => false end.

(** The member of that name; [JSON.parse] keeps the last duplicate. *)
Fixpoint lookupMember (k : string) (ms : list (string * Json)) : option Json :=
  match ms with
  | [] => None
  | (k', v) :: ms' =>
      match lookupMember k ms' with
      | Some v' => Some v'
      | None => if String.eqb k k' then Some v else None
      end
  end.

(** [v.k] on a value that is not [undefined]: a [TypeError] on [null],
    the member on an object, [undefined] on anything else. None of the
    names read by the probe is an inherited property. *)
Definition getProp (v : Json) (k : string) : Exc (option Json) :=
  match v with
  | JNull => Throw ("Cannot read properties of null (reading '" +:+ k +:+ "')")
  | JObj ms => Ok (lookupMember k ms)
  | _ => Ok None
  end.

(** [v?.k] *)
Definition getPropOpt (o : option Json) (k : string) : option Json :=
  match o with
  | Some (JObj ms) => lookupMember k ms
  | _ => None
  end.

(** The property name a value is converted to when it indexes an object. *)
Fixpoint toPropertyKey (v : Json) : string :=
  match v with
  | JNull => "null"
  | JBool true => "true"
  | JBool false => "false"
  | JNum n => pretty n
  | JStr s => s
  | JArr items =>
      String.concat ","
        (map (fun i => match i with JNull => "" | _ => toPropertyKey i end) items)
  | JObj _ => "[object Object]"
  end.

(** *** Config probe (config-probe.ts) *)

Record ConfigEnv := mkConfigEnv {
  cfg_exists : bool;          (* existsSync(configPath) *)
  cfg_parse : Exc Json;       (* JSON.parse(readFileSync(configPath)) *)
  cfg_fault : option string;  (* an exception at the head of the outer try *)
  cfg_now : Z
}.

Record ConfigFlags := mkFlags {
  criticalFieldsPresent : bool;
  apiKeyConfigured : bool;
  errors : list string
}.

(** The part of the outer [try] that follows a successful parse. *)
Definition inspectConfig (config : Json) : Exc ConfigFlags :=
  aiSources ← getProp config "aiSources";
  let hasAiSourcesCurrent :=
    truthy aiSources && typeofString (getPropOpt aiSources "current") in
  permissions ← getProp config "permissions";
  let hasPermissions := truthy permissions && typeofObject permissions in
  let errs :=
    (if hasAiSourcesCurrent then [] else ["Missing aiSources.current field"])
    ++ (if hasPermissions then [] else ["Missing permissions field"]) in
  let currentSource := getPropOpt aiSources "current" in
  let apiKey :=
    match currentSource with
    | Some (JStr "custom") =>
        let k := getPropOpt (getPropOpt aiSources "custom") "apiKey" in
        truthy k && typeofString k &&
        match k with Some (JStr key) => (0 <? String.length key)%nat | _ => false end
    | Some c =>
        if truthy currentSource
        then let t := getPropOpt (getPropOpt aiSources (toPropertyKey c)) "accessToken" in
             truthy t && typeofString t
        else false
    | None => false
    end in
  mret {| criticalFieldsPresent := hasAiSourcesCurrent && hasPermissions;
          apiKeyConfigured := apiKey; errors := errs |}.

Definition runConfigProbe (env : ConfigEnv) : ProbeResult :=
  match cfg_fault env with
  | Some msg =>
      {| name := "config"; healthy := false; severity := Critical;
         message := "Config check failed: " +:+ msg; timestamp := cfg_now env;
         data := ConfigData false false false false ["Unexpected error: " +:+ msg] |}
  | None =>
      if negb (cfg_exists env)
      then {| name := "config"; healthy := false; severity := Info;
              message := "Config file not found, will be created on first launch";
              timestamp := cfg_now env;
              data := ConfigData false false false false ["Config file does not exist"] |}
      else
        match cfg_parse env with
        | Throw parseError =>
            {| name := "config"; healthy := false; severity := Critical;
               message := "Config file is corrupted (invalid JSON)";
               timestamp := cfg_now env;
               data := ConfigData true false false false
                         ["JSON parse error: " +:+ parseError] |}
        | Ok config =>
            match inspectConfig config with
            | Ok f =>
                let healthy := criticalFieldsPresent f in
                {| name := "config"; healthy := healthy;
                   severity := if negb healthy then Critical
                               else if negb (apiKeyConfigured f) then Warning
                               else Info;
                   message := if negb (criticalFieldsPresent f)
                              then "Config file missing critical fields"
                              else if negb (apiKeyConfigured f)
                              then "No API key configured"
                              else "Config file is healthy";
                   timestamp := cfg_now env;
                   data := ConfigData true true (criticalFieldsPresent f)
                             (apiKeyConfigured f) (errors f) |}
            | Throw msg =>
                {| name := "config"; healthy := false; severity := Critical;
                   message := "Config check failed: " +:+ msg;
                   timestamp := cfg_now env;
                   data := ConfigData true true false false
                             ["Unexpected error: " +:+ msg] |}
            end
        end
  end.

(** The outer [catch] of the config probe was taken. *)
Definition configInternalError (env : ConfigEnv) : bool :=
  match cfg_fault env with
  | Some _ => true
  | None =>
      cfg_exists env &&
      match cfg_parse env with
      | Ok config => threw (inspectConfig config)
      | Throw _ => false
      end
  end.

(** *** Disk probe (disk-probe.ts) *)

Definition MIN_FREE_SPACE_MB : Z := 100.
Definition WARNING_FREE_SPACE_MB : Z := 500.

(** [dk_statfs] is [(bfree, blocks, bsize)], or [None] when [statfsSync]
    throws. The two formatters stand for [formatBytes] and for
    [freePercent.toFixed(1)], which round floating-point quotients. *)
Record DiskEnv := mkDiskEnv {
  dk_haloDir : string;
  dk_statfs : option (Z * Z * Z);
  dk_fault : option string;   (* an exception inside the try block *)
  dk_now : Z;
  dk_formatBytes : Z -> string;
  dk_formatPercent : Z -> Z -> string
}.

Definition getDiskSpace (env : DiskEnv) : option (Z * Z) :=
  match dk_statfs env with
  | Some (bfree, blocks, bsize) => Some (bfree * bsize, blocks * bsize)
  | None => None
  end.

Definition MB : Z := 1024 * 1024.

(** [freeMB < limit] for [freeMB = free / (1024 * 1024)], a division that
    is exact. *)
Definition freeBelow (free limitMB : Z) : bool := free <? limitMB * MB.

Definition runDiskProbe (env : DiskEnv) : ProbeResult :=
  let haloDir := dk_haloDir env in
  match dk_fault env with
  | Some msg =>
      {| name := "disk"; healthy := true; severity := Warning;
         message := "Disk check failed: " +:+ msg; timestamp := dk_now env;
         data := DiskData haloDir 0 0 MIN_FREE_SPACE_MB |}
  | None =>
      match getDiskSpace env with
      | None =>
          {| name := "disk"; healthy := true; severity := Warning;
             message := "Unable to check disk space"; timestamp := dk_now env;
             data := DiskData haloDir 0 0 MIN_FREE_SPACE_MB |}
      | Some (free, total) =>
          let '(healthy, severity, message) :=
            if freeBelow free MIN_FREE_SPACE_MB
            then (false, Critical,
                  "Critical: Only " +:+ dk_formatBytes env free
                  +:+ " free - app may not function properly")
            else if freeBelow free WARNING_FREE_SPACE_MB
            then (true, Warning,
                  "Warning: Low disk space - " +:+ dk_formatBytes env free +:+ " free")
            else (true, Info,
                  dk_formatBytes env free +:+ " free ("
                  +:+ dk_formatPercent env free total +:+ "%)") in
          {| name := "disk"; healthy := healthy; severity := severity;
             message := message; timestamp := dk_now env;
             data := DiskData haloDir free total MIN_FREE_SPACE_MB |}
      end
  end.

Definition diskInternalError (env : DiskEnv) : bool :=
  match dk_fault env, dk_statfs env with
  | None, Some _ => false
  | _, _ => true
  end.

(** *** Port probe (port-probe.ts) *)

Definition HTTP_SERVER_PORT_START : Z := 3847.
Definition HTTP_SERVER_PORT_END : Z := 3866.

(** [pt_fault = Some (port, msg)]: the check of that port throws. *)
Record PortEnv := mkPortEnv {
  pt_available : Z -> bool;       (* isPortAvailable(port) *)
  pt_fault : option (Z * string);
  pt_now : Z
}.

Record PortLists := mkLists {
  portsToCheck : list Z;
  portsOccupied : list Z;
  portsAvailable : list Z
}.

(** The [for] loop over the remaining ports, with the lists filled so far;
    it stops at a throw and keeps what it had pushed. *)
Fixpoint portLoop (env : PortEnv) (ports : list Z) (acc : PortLists)
    : PortLists * Exc unit :=
  match ports with
  | [] => (acc, Ok tt)
  | port :: rest =>
      let checked := portsToCheck acc ++ [port] in
      match pt_fault env with
      | Some (p, msg) =>
          if p =? port
          then (mkLists checked (portsOccupied acc) (portsAvailable acc), Throw msg)
          else if pt_available env port
          then portLoop env rest (mkLists checked (portsOccupied acc) (portsAvailable acc ++ [port]))
          else portLoop env rest (mkLists checked (portsOccupied acc ++ [port]) (portsAvailable acc))
      | None =>
          if pt_available env port
          then portLoop env rest (mkLists checked (portsOccupied acc) (portsAvailable acc ++ [port]))
          else portLoop env rest (mkLists checked (portsOccupied acc ++ [port]) (portsAvailable acc))
      end
  end.

Definition portRange : list Z :=
  seqZ HTTP_SERVER_PORT_START (HTTP_SERVER_PORT_END - HTTP_SERVER_PORT_START + 1).

Definition runPortProbe (env : PortEnv) : ProbeResult :=
  match portLoop env portRange (mkLists [] [] []) with
  | (l, Ok _) =>
      let hasAvailablePort := (0 <? length (portsAvailable l))%nat in
      {| name := "port"; healthy := hasAvailablePort;
         severity := if hasAvailablePort then Info else Warning;
         message :=
           if negb hasAvailablePort then "All HTTP server ports are occupied"
           else if (0 <? length (portsOccupied l))%nat
           then pretty (length (portsOccupied l)) +:+ " ports occupied, "
                +:+ pretty (length (portsAvailable l)) +:+ " available"
           else "Ports available for use";
         timestamp := pt_now env;
         data := PortData (portsToCheck l) (portsOccupied l) (portsAvailable l) |}
  | (l, Throw msg) =>
      {| name := "port"; healthy := true; severity := Warning;
         message := "Port check failed: " +:+ msg; timestamp := pt_now env;
         data := PortData (portsToCheck l) (portsOccupied l) (portsAvailable l) |}
  end.

Definition portInternalError (env : PortEnv) : bool :=
  threw (snd (portLoop env portRange (mkLists [] [] []))).

(** *** Process probe (process-probe.ts) *)

Record ProcessEnv := mkProcessEnv {
  pr_orphans_io : Registry.IO;
  pr_current_io : Registry.IO;
  pr_cleanup : Exc CleanupResult;   (* what cleanupOrphans() gives *)
  pr_now : Z
}.

Definition runProcessProbe (env : ProcessEnv) (s : Registry.State)
    : Registry.State * ProbeResult :=
  let '(s1, orphansBefore) := Registry.getOrphanProcesses (pr_orphans_io env) s in
  let '(s2, currentProcesses) := Registry.getCurrentProcesses (pr_current_io env) s1 in
  match pr_cleanup env with
  | Ok cleanupResult =>
      let found := (0 <? length orphansBefore)%nat in
      (s2,
       {| name := "process";
          healthy := failed cleanupResult =? 0;
          severity := if found then Warning else Info;
          message :=
            if found
            then "Cleaned up " +:+ pretty (cleaned cleanupResult) +:+ " orphan processes"
                 +:+ (if 0 <? failed cleanupResult
                      then ", " +:+ pretty (failed cleanupResult) +:+ " failed to clean"
                      else "")
            else "No orphan processes found";
          timestamp := pr_now env;
          data := ProcessData
                    (map (fun p => (default 0 (e_pid p), e_type p, e_instanceId p))
                         orphansBefore)
                    currentProcesses (cleaned cleanupResult) |})
  | Throw msg =>
      (s2,
       {| name := "process"; healthy := true; severity := Warning;
          message := "Process check failed: " +:+ msg; timestamp := pr_now env;
          data := ProcessData [] [] 0 |})
  end.

Definition processInternalError (env : ProcessEnv) : bool := threw (pr_cleanup env).

(** *** Service probe (service-probe.ts) *)

(** [fetch] answers with a status, or throws an error with a name and a
    message ([AbortError] when the 3 s timer fires). *)
Inductive FetchOutcome :=
  | Responded (status : Z)
  | FetchFailed (errName errMessage : string).

Record ServiceEnv := mkServiceEnv {
  sv_fetch : FetchOutcome;
  sv_start : Z;     (* Date.now() before the request *)
  sv_end : Z;       (* Date.now() after it *)
  sv_now : Z        (* Date.now() in the result *)
}.

Record Endpoint := mkEndpoint {
  ep_responsive : bool;
  ep_responseTime : option Z;
  ep_error : option string
}.

Definition checkHttpEndpoint (env : ServiceEnv) : Endpoint :=
  match sv_fetch env with
  | Responded status =>
      let ok := (200 <=? status) && (status <=? 299) in
      {| ep_responsive := ok || (status <? 500);
         ep_responseTime := Some (sv_end env - sv_start env);
         ep_error := None |}
  | FetchFailed errName errMessage =>
      {| ep_responsive := false;
         ep_responseTime := Some (sv_end env - sv_start env);
         ep_error := Some (if String.eqb errName "AbortError" then "Timeout" else errMessage) |}
  end.

Definition shown (o : option string) : string := default "undefined" o.
Definition shownTime (o : option Z) : string :=
  match o with Some t => pretty t | None => "undefined" end.

Definition checkOpenAIRouter (env : ServiceEnv) : ProbeResult :=
  let result := checkHttpEndpoint env in
  {| name := "service"; healthy := ep_responsive result;
     severity := if ep_responsive result then Info else Critical;
     message :=
       if ep_responsive result
       then "OpenAI Router responsive (" +:+ shownTime (ep_responseTime result) +:+ "ms)"
       else "OpenAI Router not responding: " +:+ shown (ep_error result);
     timestamp := sv_now env;
     data := ServiceData "openai-router" (ep_responsive result)
               (ep_responseTime result) (ep_error result) |}.

Definition checkHttpServer (env : ServiceEnv) : ProbeResult :=
  let result := checkHttpEndpoint env in
  {| name := "service"; healthy := ep_responsive result;
     severity := if ep_responsive result then Info else Warning;
     message :=
       if ep_responsive result
       then "HTTP Server responsive (" +:+ shownTime (ep_responseTime result) +:+ "ms)"
       else "HTTP Server not responding: " +:+ shown (ep_error result);
     timestamp := sv_now env;
     data := ServiceData "http-server" (ep_responsive result)
               (ep_responseTime result) (ep_error result) |}.

Definition serviceInternalError (env : ServiceEnv) : bool :=
  match sv_fetch env with Responded _ => false | FetchFailed _ _ => true end.

(** *** The five probes together *)

Inductive ProbeRun :=
  | RunConfig (env : ConfigEnv)
  | RunDisk (env : DiskEnv)
  | RunPort (env : PortEnv)
  | RunProcess (env : ProcessEnv) (s : Registry.State)
  | RunRouter (env : ServiceEnv)
  | RunHttpServer (env : ServiceEnv).

Definition resultOf (r : ProbeRun) : ProbeResult :=
  match r with
  | RunConfig env => runConfigProbe env
  | RunDisk env => runDiskProbe env
  | RunPort env => runPortProbe env
  | RunProcess env s => snd (runProcessProbe env s)
  | RunRouter env => checkOpenAIRouter env
  | RunHttpServer env => checkHttpServer env
  end.

(** An error was raised inside the probe and caught by it. *)
Definition internalError (r : ProbeRun) : bool :=
  match r with
  | RunConfig env => configInternalError env
  | RunDisk env => diskInternalError env
  | RunPort env => portInternalError env
  | RunProcess env _ => processInternalError env
  | RunRouter env | RunHttpServer env => serviceInternalError env
  end.

(** The probes whose [catch] assumes a healthy system. *)
Definition failsOpen (r : ProbeRun) : bool :=
  match r with
  | RunDisk _ | RunPort _ | RunProcess _ _ => true
  | RunConfig _ | RunRouter _ | RunHttpServer _ => false
  end.

(** What each probe reports of such an error: [healthy] and [severity]. *)
Definition onInternalError (r : ProbeRun) : bool * HealthSeverity :=
  match r with
  | RunDisk _ | RunPort _ | RunProcess _ _ => (true, Warning)
  | RunConfig _ | RunRouter _ => (false, Critical)
  | RunHttpServer _ => (false, Warning)
  end.

End Probes.

(** ** Runs of the registry and the vocabulary of its properties *)

Module RegistryRuns.

Import Registry.

(** What can happen to the registry over the life of an installation:
    calls of its functions, and a relaunch of the application, which
    starts from freshly loaded module variables and the same disk. *)
Inductive Op :=
  | OpStart (io : IO)
  | OpRelaunch
  | OpRegister (entry : ProcessEntry) (io : IO)
  | OpUnregister (id : string) (ty : ProcessType) (io : IO)
  | OpHeartbeat (id : string) (ty : ProcessType) (io : IO)
  | OpClearOrphans (io : IO)
  | OpMarkCleanExit (io : IO).

(** One operation; it yields the instance id when it is a start that
    returns. *)
Definition step (op : Op) (s : State) : State * option string :=
  match op with
  | OpStart io => markInstanceStart io s
  | OpRelaunch => (init (disk s), None)
  | OpRegister entry io => (registerProcess entry io s, None)
  | OpUnregister id ty io => (unregisterProcess id ty io s, None)
  | OpHeartbeat id ty io => (updateHeartbeat id ty io s, None)
  | OpClearOrphans io => (clearOrphanEntries io s, None)
  | OpMarkCleanExit io => (markCleanExit io s, None)
  end.

(** A run, with the instance ids its starts returned, oldest first. *)
Fixpoint exec (ops : list Op) (s : State) : State * list string :=
  match ops with
  | [] => (s, [])
  | op :: ops' =>
      let '(s1, r) := step op s in
      let '(s2, ids) := exec ops' s1 in
      (s2, from_option (fun i => [i]) [] r ++ ids)
  end.

(** The values [randomUUID()] gave during a run. *)
Definition uuidsOf (ops : list Op) : list string :=
  omap (fun op => match op with OpStart io => Some (io_uuid io) | _ => None end) ops.

(** The cache, when there is one, is what the file holds. *)
Definition coherent (s : State) : Prop :=
  match registryCache s with
  | None => True
  | Some c => disk s = File (Stored c)
  end.

(** No entry of the list is for [(id, ty)]. *)
Definition unregistered (id : string) (ty : ProcessType) (ps : list ProcessEntry) : Prop :=
  forall p, p ∈ ps -> ~ (e_id p = id /\ e_type p = ty).

(** A start finds no previous registry: there is no file, or it cannot be
    read or parsed. *)
Definition noPreviousState (io : IO) (d : Disk) : Prop :=
  forall r, readFile io d <> Parsed r.

(** The registry a start writes when it finds no previous one. *)
Definition firstRegistry (io : IO) : HealthRegistry :=
  {| r_version := 1; r_instanceId := io_uuid io; r_previousInstanceId := None;
     r_startedAt := io_now io; r_lastCleanExit := false; r_processes := [] |}.

End RegistryRuns.

(** ** Runs of the event listener *)

Module ListenerRuns.

Import EventListener.

(** [trackError(source)] called once at each of the given times. *)
Fixpoint trackErrors (source : string) (times : list Z) (st : State) : State * list Z :=
  match times with
  | [] => (st, [])
  | t :: times' =>
      let '(st1, n) := trackError source t st in
      let '(st2, ns) := trackErrors source times' st1 in
      (st2, n :: ns)
  end.

(** Each call comes within the decay window of the one before; [prev] is
    the time of the call before the first of [times]. *)
Fixpoint withinWindow (prev : Z) (times : list Z) : Prop :=
  match times with
  | [] => True
  | t :: times' => t - prev <= COUNTER_RESET_MS /\ withinWindow t times'
  end.

(** Nothing is counted for [source] at time [t]: no counter, or one whose
    window has elapsed. *)
Definition nothingCounted (source : string) (t : Z) (st : State) : Prop :=
  match errorCounters st !! source with
  | None => True
  | Some c => t - lastTime c > COUNTER_RESET_MS
  end.

Inductive Op :=
  | OpEmit (type : HealthEventType) (category : HealthEventCategory)
           (source message : string) (data : option (list (string * Json))) (now : Z)
  | OpClear.

Definition apply (st : State) (op : Op) : State :=
  match op with
  | OpEmit type category source message data now =>
      emitHealthEvent type category source message data now st
  | OpClear => clearRecentEvents st
  end.

Definition runOps (ops : list Op) (st : State) : State := fold_left apply ops st.

(** The events emitted since the buffer was last cleared, newest first and
    without bound. A handler that calls [clearRecentEvents] while an event
    is delivered clears that event too. *)
Definition isClear (c : HandlerCall) : bool :=
  match c with CallClearRecentEvents => true | _ => false end.

Definition clearsOn (event : HealthEvent) (handler : HealthEventHandler) : bool :=
  existsb isClear (h_calls (handler event)).

Definition remember (handlers : list HealthEventHandler)
    (history : list HealthEvent) (op : Op) : list HealthEvent :=
  match op with
  | OpEmit type category source message data now =>
      let event := mkEvent type category now source message data in
      if existsb (clearsOn event) handlers then [] else event :: history
  | OpClear => []
  end.

Definition recentHistory (handlers : list HealthEventHandler) (ops : list Op)
    : list HealthEvent :=
  fold_left (remember handlers) ops [].

End ListenerRuns.

(** ** Vocabulary of the executor's properties *)

Module ExecutorRuns.

Import Strategies Executor.

(** The call is inside the cooldown window and its attempt is over the
    cap. *)
Definition rateLimits (now : Z) (w : World) : bool :=
  (now - lastRecoveryTime (executor w) <? RECOVERY_COOLDOWN_MS)
  && (recentRecoveryAttempts (executor w) + 1 >? MAX_RECOVERY_ATTEMPTS).

(** The call gets past the consent check. *)
Definition passesConsent (c : Call) : Prop :=
  requiresConsent (c_strategy c) && negb (c_consented c) = false.

(** Any two of the calls are less than the cooldown apart. *)
Definition withinCooldown (calls : list Call) : Prop :=
  forall c c', c ∈ calls -> c' ∈ calls ->
    env_now (c_env c) - env_now (c_env c') < RECOVERY_COOLDOWN_MS.

(** Nothing of a strategy ran between the two worlds. *)
Definition noAction (w w' : World) : Prop :=
  registry w' = registry w /\ listener w' = listener w /\ effects w' = effects w.

(** The step was refused for the rate limit and took no action. *)
Definition rateLimited (s : Step) : Prop :=
  st_result s = failure (c_strategy (st_call s)) "Recovery rate limit exceeded"
                  (env_now (c_env (st_call s)))
  /\ noAction (st_before s) (st_after s)
  /\ bodyLine (c_strategy (st_call s)) ∉ drop (length (console (st_before s))) (console (st_after s)).

(** The strategy body was entered: its first line follows the line that
    announces the strategy. *)
Definition bodyEntered (sid : RecoveryStrategyId) (w w' : World) : Prop :=
  exists rest, console w' = console w ++ [executingLine sid; bodyLine sid] ++ rest.

(** The [switch] of [executeRecovery]. *)
Definition bodyOf (sid : RecoveryStrategyId) (env : Env) : M RecoveryResult :=
  match sid with
  | S1 => executeS1 env
  | S2 => executeS2 env
  | S3 => executeS3 env
  | S4 => executeS4 env
  end.

(** The warning printed when a call is refused for the rate limit. *)
Definition tooMany : string := "[Health][Recovery] Too many recovery attempts, stopping".

End ExecutorRuns.

(** ** Sample data *)

Module Samples.

Definition ioOk (uuid : string) (now : Z) : Registry.IO :=
  Registry.mkIO uuid now true true true.

Definition entryA : ProcessEntry :=
  mkEntry "conv-1" (Some 4242) V2Session "inst-0" 100 100.

Definition entryA' : ProcessEntry :=
  mkEntry "conv-1" (Some 5151) V2Session "inst-0" 200 200.

Definition entryB : ProcessEntry :=
  mkEntry "tunnel-1" None Tunnel "inst-0" 150 150.

Definition registryA : HealthRegistry :=
  mkRegistry 1 "inst-0" None 50 false [entryA].

(** A running instance ["inst-0"] with one registered session. *)
Definition stateA : Registry.State :=
  Registry.mkState "inst-0" None (Some registryA)
    (Registry.File (Registry.Stored registryA)).

(** A first run of the application that starts, registers a session and
    is killed; the application is then launched again. *)
Definition firstRun : list RegistryRuns.Op :=
  [RegistryRuns.OpStart (ioOk "inst-0" 50);
   RegistryRuns.OpRegister entryA (ioOk "" 100);
   RegistryRuns.OpRelaunch].

(** An environment in which every clock reads [t] and nothing fails. *)
Definition envAt (t : Z) : Executor.Env :=
  Executor.mkEnv t t t None (Ok (mkCleanup 0 0)) (ioOk "" t) (ioOk "" t).

(** [executeRecovery('S1')] at time [t]. *)
Definition restartAt (t : Z) : Executor.Call :=
  Executor.mkCall S1 false (envAt t).

(** Four recoveries within three seconds. *)
Definition burst : list Executor.Call :=
  map restartAt [1000000; 1001000; 1002000; 1003000].

(** Three recoveries ten seconds apart, then four calls within five
    seconds, the last of them 30 s after the third recovery. *)
Definition history : list Executor.Call :=
  map restartAt [1000000; 1010000; 1020000].

Definition lateBurst : list Executor.Call :=
  map restartAt [1045000; 1048000; 1049000; 1050000].

(** A configuration file whose whole content is [null]. *)
Definition nullConfig : Probes.ConfigEnv :=
  Probes.mkConfigEnv true (Ok JNull) None 1000.

(** A data directory whose file-system statistics cannot be read. *)
Definition unreadableDisk : Probes.DiskEnv :=
  Probes.mkDiskEnv "/home/user/.halo" None None 1000 (fun _ => "") (fun _ _ => "").

End Samples.

(** ** Vocabulary of the registry's invariants *)

Module RegistryInvariants.

Import Registry RegistryRuns.

(** The logical identity of an entry. *)
Definition keyOf (p : ProcessEntry) : string * ProcessType := (e_id p, e_type p).

(** At most one entry per [(id, type)]. *)
Definition uniqueKeys (ps : list ProcessEntry) : Prop := NoDup (map keyOf ps).

(** Neither the cache nor the file holds two entries for one pair. *)
Definition registryUnique (s : State) : Prop :=
  (forall c, registryCache s = Some c -> uniqueKeys (r_processes c))
  /\ uniqueKeys (diskEntries (disk s)).

(** The file system accepts what the operation writes. *)
Definition writesOk (op : Op) : Prop :=
  match op with
  | OpStart io => io_write_ok io = true /\ io_mkdir_ok io = true
  | OpRelaunch => True
  | OpRegister _ io | OpUnregister _ _ io | OpHeartbeat _ _ io
  | OpClearOrphans io | OpMarkCleanExit io => io_write_ok io = true
  end.


(** The entry without its heartbeat. *)
Definition sansHeartbeat (p : ProcessEntry) : ProcessEntry := withHeartbeat p 0.

(** The entry is for another pair than [(id, ty)]. *)
Definition otherThan (id : string) (ty : ProcessType) (p : ProcessEntry) : Prop :=
  ~ (e_id p = id /\ e_type p = ty).

#[global] Instance otherThan_dec id ty p : Decision (otherThan id ty p).
Proof. unfold otherThan. apply _. Defined.


End RegistryInvariants.

(** ** Vocabulary of the listener's delivery *)

Module ListenerDelivery.

Import EventListener.



(** The source under which [emitAgentError] counts and reports a
    conversation. *)
Definition agentSource (conversationId : string) : string :=
  "agent:" +:+ conversationId.

End ListenerDelivery.

(** ** Vocabulary of the executor's runs *)

Module ExecutorSpacing.

Import Strategies Executor ExecutorRuns.






(** The external actions taken between two worlds. *)
Definition newEffects (w w' : World) : list Effect :=
  drop (length (effects w)) (effects w').

(** A restart asked for while the session cleanup throws. *)
Definition busyEnv : Env :=
  {| env_now := 1000000; env_event_now := 1000001; env_result_now := 1000002;
     env_sessions_throw := Some "session busy";
     env_cleanup := Ok {| cleaned := 0; failed := 0 |};
     env_exit_io := Samples.ioOk "" 1000000;
     env_clear_io := Samples.ioOk "" 1000000 |}.

(** The world of the running instance of [Samples.stateA], with the
    session cleanup injected. *)
Definition busyWorld : World :=
  injectSessionCleanup (setRegistry Samples.stateA (initWorld Registry.NoFile)).

End ExecutorSpacing.

(** ** Recovery dialogs (recovery-manager/ui.ts) *)

Module RecoveryUI.

Import Strategies.

Inductive DialogAction := tryFix | restart | factoryReset | ignore.

#[global] Instance DialogAction_eq_dec : EqDecision DialogAction.
Proof. solve_decision. Defined.

Record RecoveryDialogResult := mkDialogResult {
  action : DialogAction;
  suppressFuture : bool
}.

(** What [dialog.showMessageBox] resolves to: the index of the button
    pressed and the state of the checkbox. *)
Record MessageBoxReturn := mkReturn {
  response : Z;
  checkboxChecked : bool
}.

Inductive BoxType := info | warning | error.

(** A message box as it is opened: the options given to
    [dialog.showMessageBox] that the user sees. *)
Record MessageBox := mkMessageBox {
  box_type : BoxType;
  box_title : string;
  box_detail : string;
  box_buttons : list string;
  box_checkbox : option string
}.

(** The module variables, the boxes opened so far and the lines printed
    by this module. Calls do not overlap: each dialog is answered before
    the next call begins. *)
Record State := mkState {
  suppressDialogs : bool;
  lastDialogTime : Z;
  opened : list MessageBox;
  printed : list string
}.

Definition init : State :=
  {| suppressDialogs := false; lastDialogTime := 0; opened := []; printed := [] |}.

Definition DIALOG_COOLDOWN_MS : Z := 10000.

Definition print (line : string) (st : State) : State :=
  {| suppressDialogs := suppressDialogs st; lastDialogTime := lastDialogTime st;
     opened := opened st; printed := printed st ++ [line] |}.

Definition openBox (b : MessageBox) (st : State) : State :=
  {| suppressDialogs := suppressDialogs st; lastDialogTime := lastDialogTime st;
     opened := opened st ++ [b]; printed := printed st |}.

Definition setSuppressDialogs (b : bool) (st : State) : State :=
  {| suppressDialogs := b; lastDialogTime := lastDialogTime st;
     opened := opened st; printed := printed st |}.

Definition setLastDialogTime (t : Z) (st : State) : State :=
  {| suppressDialogs := suppressDialogs st; lastDialogTime := t;
     opened := opened st; printed := printed st |}.

Definition newline : string := String (Ascii.ascii_of_nat 10) EmptyString.

(** [lines.join('\n')] *)
Fixpoint join (lines : list string) : string :=
  match lines with
  | [] => ""
  | [l] => l
  | l :: ls => l +:+ newline +:+ join ls
  end.

(** [buildDialogMessage]; the failure count is an integer, printed in
    decimal. An empty [errorMessage] is falsy and gives the stock line. *)
Definition buildDialogMessage (failures : Z) (errorMessage : option string)
    (strategy : RecoveryStrategy) : string :=
  join [ match errorMessage with
         | Some m => if String.eqb m "" then "AI services failed to respond multiple times."
                     else m
         | None => "AI services failed to respond multiple times."
         end;
         "";
         "Consecutive failures: " +:+ pretty failures;
         "";
         "Recommended action: " +:+ name strategy;
         description strategy ].

Record Buttons := mkButtons {
  labels : list string;
  actions : list DialogAction
}.

(** [buildDialogButtons] *)
Definition buildDialogButtons (strategyId : RecoveryStrategyId) : Buttons :=
  match strategyId with
  | S2 => {| labels := ["Try to Fix"; "Ignore"]; actions := [tryFix; ignore] |}
  | S3 => {| labels := ["Restart App"; "Try to Fix"; "Ignore"];
             actions := [restart; tryFix; ignore] |}
  | S4 => {| labels := ["Factory Reset"; "Restart App"; "Ignore"];
             actions := [factoryReset; restart; ignore] |}
  | S1 => {| labels := ["Try to Fix"; "Ignore"]; actions := [tryFix; ignore] |}
  end.

(** [array[i]] for an integer [i]; [None] is [undefined]. *)
Definition elementAt {A} (l : list A) (i : Z) : option A :=
  if i <? 0 then None else l !! Z.to_nat i.

Definition actionName (a : DialogAction) : string :=
  match a with
  | tryFix => "tryFix" | restart => "restart"
  | factoryReset => "factoryReset" | ignore => "ignore"
  end.

Definition boolName (b : bool) : string := if b then "true" else "false".

(** [showRecoveryDialog]; [now] is the clock it reads, [answer] what the
    message box resolves to, or the error it rejects with. *)
Definition showRecoveryDialog (consecutiveFailures : Z) (errorMessage : option string)
    (suggestedStrategy : RecoveryStrategyId) (now : Z) (answer : Exc MessageBoxReturn)
    (st : State) : State * RecoveryDialogResult :=
  if suppressDialogs st then
    (print "[Health][UI] Dialogs suppressed for this session" st,
     mkDialogResult ignore true)
  else if now - lastDialogTime st <? DIALOG_COOLDOWN_MS then
    (print "[Health][UI] Dialog on cooldown" st, mkDialogResult ignore false)
  else
    let st1 := setLastDialogTime now st in
    let strategy := getStrategy suggestedStrategy in
    let title := "Halo is having trouble" in
    let message := buildDialogMessage consecutiveFailures errorMessage strategy in
    let buttons := buildDialogButtons suggestedStrategy in
    let st2 :=
      openBox {| box_type := warning; box_title := title; box_detail := message;
                 box_buttons := labels buttons;
                 box_checkbox := Some "Don't show again this session" |} st1 in
    match answer with
    | Ok result =>
        let st3 :=
          if checkboxChecked result then setSuppressDialogs true st2 else st2 in
        let action := default ignore (elementAt (actions buttons) (response result)) in
        (print ("[Health][UI] User selected: " +:+ actionName action +:+ ", suppress: "
                +:+ boolName (checkboxChecked result)) st3,
         mkDialogResult action (checkboxChecked result))
    | Throw _ =>
        (print "[Health][UI] Dialog error:" st2, mkDialogResult ignore false)
    end.

(** [showNotificationDialog] *)
Definition showNotificationDialog (title message : string) (type : BoxType)
    (answer : Exc MessageBoxReturn) (st : State) : State :=
  let st1 :=
    openBox {| box_type := type; box_title := title; box_detail := message;
               box_buttons := ["OK"]; box_checkbox := None |} st in
  match answer with
  | Ok _ => st1
  | Throw _ => print "[Health][UI] Notification dialog error:" st1
  end.

(** [showConfirmationDialog] *)
Definition showConfirmationDialog (title message confirmLabel : string)
    (answer : Exc MessageBoxReturn) (st : State) : State * bool :=
  let st1 :=
    openBox {| box_type := warning; box_title := title; box_detail := message;
               box_buttons := [confirmLabel; "Cancel"]; box_checkbox := None |} st in
  match answer with
  | Ok result => (st1, response result =? 0)
  | Throw _ => (print "[Health][UI] Confirmation dialog error:" st1, false)
  end.

Definition resetDialogSuppression (st : State) : State :=
  print "[Health][UI] Dialog suppression reset" (setSuppressDialogs false st).

Definition isDialogSuppressed (st : State) : bool := suppressDialogs st.

Definition suppressAllDialogs (st : State) : State := setSuppressDialogs true st.

(** [showRestartAppDialog] *)
Definition showRestartAppDialog (failures : Z) (now : Z) (answer : Exc MessageBoxReturn)
    (st : State) : State * bool :=
  let '(st1, result) := showRecoveryDialog failures None S3 now answer st in
  (st1, bool_decide (action result = restart)).

(** [showFactoryResetDialog] *)
Definition showFactoryResetDialog (answer : Exc MessageBoxReturn) (st : State)
    : State * bool :=
  showConfirmationDialog "Factory Reset"
    ("This will clear all cached data and reset configuration to defaults."
     +:+ newline +:+ newline
     +:+ "Your conversation data will be preserved, but you will need to reconfigure your API settings."
     +:+ newline +:+ newline
     +:+ "Are you sure you want to continue?")
    "Reset & Restart" answer st.

(** [showRecoverySuccessDialog] *)
Definition showRecoverySuccessDialog (strategyName : string)
    (answer : Exc MessageBoxReturn) (st : State) : State :=
  showNotificationDialog "Recovery Successful"
    (strategyName +:+ " completed successfully." +:+ newline +:+ newline
     +:+ "Halo should be working normally now.")
    info answer st.

(** [showRecoveryFailedDialog] *)
Definition showRecoveryFailedDialog (strategyName errorMessage : string)
    (answer : Exc MessageBoxReturn) (st : State) : State :=
  showNotificationDialog "Recovery Failed"
    (strategyName +:+ " could not be completed." +:+ newline +:+ newline
     +:+ "Error: " +:+ errorMessage +:+ newline +:+ newline
     +:+ "You may need to restart Halo manually or contact support.")
    error answer st.

(** One call of an exported function of the module, and what it returns. *)
Inductive Op :=
  | OpRecoveryDialog (consecutiveFailures : Z) (errorMessage : option string)
      (suggestedStrategy : RecoveryStrategyId) (now : Z) (answer : Exc MessageBoxReturn)
  | OpRestartAppDialog (failures now : Z) (answer : Exc MessageBoxReturn)
  | OpFactoryResetDialog (answer : Exc MessageBoxReturn)
  | OpSuccessDialog (strategyName : string) (answer : Exc MessageBoxReturn)
  | OpFailedDialog (strategyName errorMessage : string) (answer : Exc MessageBoxReturn)
  | OpResetSuppression
  | OpIsSuppressed
  | OpSuppressAll.

Inductive Returned :=
  | RDialog (r : RecoveryDialogResult)
  | RBool (b : bool)
  | RVoid.

Definition step (op : Op) (st : State) : State * Returned :=
  match op with
  | OpRecoveryDialog failures msg sid now answer =>
      let '(st1, r) := showRecoveryDialog failures msg sid now answer st in
      (st1, RDialog r)
  | OpRestartAppDialog failures now answer =>
      let '(st1, b) := showRestartAppDialog failures now answer st in (st1, RBool b)
  | OpFactoryResetDialog answer =>
      let '(st1, b) := showFactoryResetDialog answer st in (st1, RBool b)
  | OpSuccessDialog sname answer => (showRecoverySuccessDialog sname answer st, RVoid)
  | OpFailedDialog sname msg answer =>
      (showRecoveryFailedDialog sname msg answer st, RVoid)
  | OpResetSuppression => (resetDialogSuppression st, RVoid)
  | OpIsSuppressed => (st, RBool (isDialogSuppressed st))
  | OpSuppressAll => (suppressAllDialogs st, RVoid)
  end.

(** The states a sequence of calls goes through, with what each returned:
    before, call, result, after. *)
Fixpoint run (st : State) (ops : list Op) : list (State * Op * Returned * State) :=
  match ops with
  | [] => []
  | op :: ops' =>
      let '(st1, r) := step op st in (st, op, r, st1) :: run st1 ops'
  end.

(** The clock read by a call that may show the recovery dialog. *)
Definition dialogClock (op : Op) : option Z :=
  match op with
  | OpRecoveryDialog _ _ _ now _ | OpRestartAppDialog _ now _ => Some now
  | _ => None
  end.

(** The times at which the recovery dialog was put on screen in a run:
    the clocks of the recovery-dialog calls that opened a box. *)
Definition recoveryDialogTimes (steps : list (State * Op * Returned * State)) : list Z :=
  omap (fun '(st, op, _, st1) =>
          match dialogClock op with
          | Some now =>
              if (length (opened st1) =? length (opened st))%nat then None else Some now
          | None => None
          end) steps.

(** The times are a cooldown apart, the first from [t0]. *)
Fixpoint apart (t0 : Z) (times : list Z) : Prop :=
  match times with
  | [] => True
  | t :: times' => DIALOG_COOLDOWN_MS <= t - t0 /\ apart t times'
  end.

Definition isReset (op : Op) : bool :=
  match op with OpResetSuppression => true | _ => false end.

(** The call returned what a suppressed recovery dialog returns, if it is
    a call that asks for that dialog. *)
Definition suppressedAnswer (op : Op) (r : Returned) : Prop :=
  match op, r with
  | OpRecoveryDialog _ _ _ _ _, r => r = RDialog (mkDialogResult ignore true)
  | OpRestartAppDialog _ _ _, r => r = RBool false
  | _, _ => True
  end.

(** The boxes of the recovery dialog among those opened. *)
Definition isRecoveryBox (b : MessageBox) : bool :=
  String.eqb (box_title b) "Halo is having trouble".

(** Four requests for the recovery dialog, 4 s apart, each answered with
    the last button. *)
Definition dialogBurst : list Op :=
  [OpRecoveryDialog 3 None S2 100000 (Ok (mkReturn 1 false));
   OpRecoveryDialog 4 None S2 104000 (Ok (mkReturn 1 false));
   OpRestartAppDialog 5 108000 (Ok (mkReturn 2 false));
   OpRecoveryDialog 6 (Some "timeout") S3 112000 (Ok (mkReturn 2 false))].

(** The state after a first dialog whose checkbox the user ticked. *)
Definition tickedState : State :=
  fst (showRecoveryDialog 3 None S2 100000 (Ok (mkReturn 1 true)) init).

(** A request made a minute later, and a factory-reset confirmation. *)
Definition afterTick : list Op :=
  [OpRecoveryDialog 5 None S3 160000 (Ok (mkReturn 0 false));
   OpFactoryResetDialog (Ok (mkReturn 0 false))].

End RecoveryUI.

(** ** The executor's entry points that ask the user (executor.ts) *)

Module ExecutorUI.

Import Strategies Executor RecoveryUI.

(** The executor's world and that of the dialogs. *)
Record UWorld := mkUWorld {
  base : World;
  ui : RecoveryUI.State
}.

Definition setBase (w : World) (u : UWorld) : UWorld := {| base := w; ui := ui u |}.
Definition setUI (s : RecoveryUI.State) (u : UWorld) : UWorld := {| base := base u; ui := s |}.

(** [requestRecoveryConsent]; [None] is [null]. *)
Definition requestRecoveryConsent (suggestedStrategy : RecoveryStrategyId)
    (errorMessage : option string) (now : Z) (answer : Exc MessageBoxReturn)
    (u : UWorld) : UWorld * option RecoveryStrategyId :=
  if isDialogSuppressed (ui u) then
    (setBase (addLog "[Health][Recovery] Dialog suppressed, skipping consent request"
                (base u)) u,
     None)
  else
    let '(ui1, result) :=
      showRecoveryDialog (consecutiveErrorCount (executor (base u))) errorMessage
        suggestedStrategy now answer (ui u) in
    (setUI ui1 u,
     match action result with
     | tryFix => Some S2
     | restart => Some S3
     | factoryReset => Some S4
     | ignore => None
     end).

(** What the environment decides during one activation of
    [executeRecoveryWithUI]. *)
Record UIEnv := mkUIEnv {
  ui_now : Z;                          (* Date.now() in showRecoveryDialog *)
  ui_choice : Exc MessageBoxReturn;    (* the recovery or confirmation box *)
  ui_cancel_now : Z;                   (* Date.now() in a cancelled result *)
  ui_exec : Env;                       (* during executeRecovery *)
  ui_notice : Exc MessageBoxReturn     (* the notification box *)
}.

(** The part of [executeRecoveryWithUI] after the consent: the recovery
    and the notification of its result. *)
Definition executeAndNotify (strategyId : RecoveryStrategyId) (env : UIEnv)
    (u : UWorld) : UWorld * RecoveryResult :=
  let strategy := getStrategy strategyId in
  let '(w1, result) := executeRecovery strategyId true (ui_exec env) (base u) in
  let u1 := setBase w1 u in
  let u2 :=
    if success result then
      if negb (bool_decide (strategyId = S3)) && negb (bool_decide (strategyId = S4))
      then setUI (showRecoverySuccessDialog (name strategy) (ui_notice env) (ui u1)) u1
      else u1
    else
      setUI (showRecoveryFailedDialog (name strategy) (message result)
               (ui_notice env) (ui u1)) u1 in
  (u2, result).

(** [executeRecoveryWithUI]. The function calls itself when the user picks
    another strategy than the one proposed; each activation has its own
    environment, the outermost first, and [None] means that the
    environments given do not reach the end of the call. *)
Fixpoint executeRecoveryWithUI (envs : list UIEnv) (strategyId : RecoveryStrategyId)
    (errorMessage : option string) (u : UWorld) : option (UWorld * RecoveryResult) :=
  match envs with
  | [] => None
  | env :: envs' =>
      let strategy := getStrategy strategyId in
      if requiresConsentField strategy then
        if bool_decide (strategyId = S4) then
          let '(ui1, confirmed) := showFactoryResetDialog (ui_choice env) (ui u) in
          let u1 := setUI ui1 u in
          if negb confirmed then
            Some (u1, failure strategyId "User cancelled factory reset" (ui_cancel_now env))
          else Some (executeAndNotify strategyId env u1)
        else
          let '(u1, chosenStrategy) :=
            requestRecoveryConsent strategyId errorMessage (ui_now env) (ui_choice env) u in
          match chosenStrategy with
          | None =>
              Some (u1, failure strategyId "User chose to ignore" (ui_cancel_now env))
          | Some chosen =>
              if negb (bool_decide (chosen = strategyId))
              then executeRecoveryWithUI envs' chosen errorMessage u1
              else Some (executeAndNotify strategyId env u1)
          end
      else Some (executeAndNotify strategyId env u)
  end.

(** [getRecoveryStats] *)
Record RecoveryStats := mkRecoveryStats {
  recentAttempts : Z;
  statsLastRecoveryTime : Z;
  statsCanRecover : bool
}.

Definition getRecoveryStats (now : Z) (w : World) : RecoveryStats :=
  {| recentAttempts := recentRecoveryAttempts (executor w);
     statsLastRecoveryTime := lastRecoveryTime (executor w);
     statsCanRecover := canRecover now w |}.

(** The answer pressed the first button of the box. *)
Definition pressedFirst (answer : Exc MessageBoxReturn) : Prop :=
  exists r, answer = Ok r /\ response r = 0.

(** An environment in which the user presses button [i] of the choice box,
    leaves the checkbox alone, and every clock reads [t]. *)
Definition pressing (i t : Z) : UIEnv :=
  {| ui_now := t; ui_choice := Ok (mkReturn i false); ui_cancel_now := t;
     ui_exec := Samples.envAt t; ui_notice := Ok (mkReturn 0 false) |}.

Definition initU : UWorld :=
  {| base := initWorld Registry.NoFile; ui := RecoveryUI.init |}.

End ExecutorUI.

(** ** A sample environment of the port probe *)

Module ProbeSamples.

Import Probes.

(** The three lowest ports of the range are taken, no check throws. *)
Definition somePortsTaken : PortEnv :=
  {| pt_available := fun p => 3850 <=? p; pt_fault := None; pt_now := 1000 |}.

End ProbeSamples.

(** * Properties *)

(** A given string is none of the strings of a literal list. *)
Ltac not_in_list :=
  let H := fresh "H" in
  intros H; repeat (apply elem_of_cons in H as [H | H]; [discriminate H |]);
  inversion H.

(** ** Process registry *)

Section RegistryFacts.

Import Registry RegistryRuns.

Lemma withProcesses_same (r : HealthRegistry) : withProcesses r (r_processes r) = r.
Proof. by destruct r. Qed.

Lemma withProcesses_twice (r : HealthRegistry) (ps qs : list ProcessEntry) :
  withProcesses (withProcesses r ps) qs = withProcesses r qs.
Proof. reflexivity. Qed.

Lemma findIndex_None {A} (f : A -> bool) (l : list A) :
  findIndex f l = None <-> forall x, x ∈ l -> f x = false.
Proof.
  induction l as [|a l IH]; simpl.
  - split; [intros _ x Hx; inversion Hx | done].
  - destruct (f a) eqn:Ha.
    + split; [done |]. intros H. specialize (H a (list_elem_of_here _ _)). congruence.
    + destruct (findIndex f l) as [i|]; simpl.
      * split; [done |]. intros H. destruct IH as [_ IH].
        discriminate IH. intros x Hx. apply H. by apply list_elem_of_further.
      * split; [| done]. intros _ x Hx.
        apply elem_of_cons in Hx as [-> | Hx]; [done |].
        destruct IH as [IH _]. by apply IH.
Qed.

Lemma findIndex_snoc {A} (f : A -> bool) (l : list A) (x : A) :
  findIndex f l = None -> f x = true -> findIndex f (l ++ [x]) = Some (length l).
Proof.
  induction l as [|a l IH]; simpl; intros Hn Hx.
  - by rewrite Hx.
  - destruct (f a); [done |].
    destruct (findIndex f l); [done |]. by rewrite IH.
Qed.

Lemma delete_snoc {A} (l : list A) (x : A) : delete (length l) (l ++ [x]) = l.
Proof. induction l as [|a l IH]; simpl; [done | by rewrite IH]. Qed.

Lemma sameProcess_true (id : string) (ty : ProcessType) (p : ProcessEntry) :
  sameProcess id ty p = true <-> e_id p = id /\ e_type p = ty.
Proof.
  unfold sameProcess. rewrite andb_true_iff, !bool_decide_eq_true. done.
Qed.

Lemma unregistered_findIndex (id : string) (ty : ProcessType) (ps : list ProcessEntry) :
  unregistered id ty ps <-> findIndex (sameProcess id ty) ps = None.
Proof.
  rewrite findIndex_None. unfold unregistered. split; intros H p Hp.
  - destruct (sameProcess id ty p) eqn:E; [| done].
    apply sameProcess_true in E. by destruct (H p Hp).
  - intros E. apply sameProcess_true in E. rewrite (H p Hp) in E. done.
Qed.

(** Once a registry is loaded it is the cache, whatever the file system
    does afterwards. *)
Lemma loadRegistry_cached (io : IO) (s s1 : State) (r : HealthRegistry) :
  loadRegistry io s = (s1, Some r) -> registryCache s1 = Some r.
Proof.
  unfold loadRegistry. destruct (registryCache s) eqn:E.
  - intros [= <- <-]. done.
  - destruct (readFile io (disk s)); intros [= <- <-]. done.
Qed.

Lemma saveRegistry_cache (io : IO) (r : HealthRegistry) (s : State) :
  registryCache (saveRegistry io r (setCache r s)) = Some r.
Proof. unfold saveRegistry. by destruct (writeFile _ _ _). Qed.

Lemma loadRegistry_of_cache (io : IO) (s : State) (r : HealthRegistry) :
  registryCache s = Some r -> loadRegistry io s = (s, Some r).
Proof. unfold loadRegistry. by intros ->. Qed.

(** C6, as amended: for every (id, type) pair that the registry does not
    hold yet, [registerProcess] with that pair followed by
    [unregisterProcess(id, type)] leaves the registry with the process list
    it had before the registration, in the same order. *)
Theorem C6_register_then_unregister
    (s : State) (entry : ProcessEntry) (io1 io2 io3 : IO) (r : HealthRegistry) :
  snd (loadRegistry io1 s) = Some r ->
  unregistered (e_id entry) (e_type entry) (r_processes r) ->
  snd (loadRegistry io3
         (unregisterProcess (e_id entry) (e_type entry) io2
            (registerProcess entry io1 s))) = Some r.
Proof.
  intros Hload Habs.
  destruct (loadRegistry io1 s) as [s1 o] eqn:E1. simpl in Hload. subst o.
  apply unregistered_findIndex in Habs.
  unfold registerProcess. rewrite E1, Habs.
  set (new := withHeartbeat entry (io_now io1)).
  set (r' := withProcesses r (r_processes r ++ [new])).
  assert (Hc : registryCache (saveRegistry io1 r' (setCache r' s1)) = Some r')
    by apply saveRegistry_cache.
  unfold unregisterProcess.
  rewrite (loadRegistry_of_cache io2 _ _ Hc).
  assert (Hi : findIndex (sameProcess (e_id entry) (e_type entry)) (r_processes r')
               = Some (length (r_processes r))).
  { simpl. apply findIndex_snoc; [done |]. by apply sameProcess_true. }
  rewrite Hi. simpl r_processes. rewrite delete_snoc.
  unfold r'. rewrite withProcesses_twice, withProcesses_same.
  erewrite loadRegistry_of_cache; [done |]. apply saveRegistry_cache.
Qed.

(** A concrete instance of [C6_register_then_unregister]: a tunnel is
    registered next to a session and unregistered again. *)
Lemma C6_register_then_unregister_witness :
  snd (loadRegistry (Samples.ioOk "" 300) Samples.stateA) = Some Samples.registryA
  /\ unregistered "tunnel-1" Tunnel [Samples.entryA]
  /\ snd (loadRegistry (Samples.ioOk "" 500)
            (unregisterProcess "tunnel-1" Tunnel (Samples.ioOk "" 400)
               (registerProcess Samples.entryB (Samples.ioOk "" 300) Samples.stateA)))
     = Some Samples.registryA.
Proof.
  split; [reflexivity |]. split.
  - intros p Hp [H1 _]. apply list_elem_of_singleton in Hp. subst p. discriminate H1.
  - apply (C6_register_then_unregister Samples.stateA Samples.entryB
             (Samples.ioOk "" 300) (Samples.ioOk "" 400) (Samples.ioOk "" 500)
             Samples.registryA).
    + reflexivity.
    + intros p Hp [H1 _]. apply list_elem_of_singleton in Hp. subst p. discriminate H1.
Defined.

(** C6 as stated fails for a pair that is registered already:
    [registerProcess] updates the entry in place and [unregisterProcess]
    then removes it, so the list loses an entry it had before. *)
Lemma C6_counterexample :
  r_processes <$> snd (loadRegistry (Samples.ioOk "" 300) Samples.stateA)
    = Some [Samples.entryA]
  /\ r_processes <$>
       snd (loadRegistry (Samples.ioOk "" 500)
              (unregisterProcess "conv-1" V2Session (Samples.ioOk "" 400)
                 (registerProcess Samples.entryA' (Samples.ioOk "" 300) Samples.stateA)))
     = Some [].
Proof. split; reflexivity. Qed.

(** C7: when the start finds no previous registry (no file on disk, or a
    file that cannot be read or parsed), in a process where no earlier
    start has recorded a previous instance, and the file system accepts
    the write, [markInstanceStart] returns a new instance id and both the
    file and the cache hold the registry with that id,
    [previousInstanceId] undefined, [lastCleanExit: false] and
    [processes: []]. *)
Theorem C7_start_without_previous_state (s : State) (io : IO) :
  noPreviousState io (disk s) ->
  previousInstanceId s = None ->
  io_write_ok io = true ->
  (disk s = NoDir -> io_mkdir_ok io = true) ->
  markInstanceStart io s =
    ({| currentInstanceId := io_uuid io; previousInstanceId := None;
        registryCache := Some (firstRegistry io);
        disk := File (Stored (firstRegistry io)) |},
     Some (io_uuid io)).
Proof.
  intros Hno Hprev Hw Hmk. unfold markInstanceStart, firstRegistry.
  destruct (readFile io (disk s)) as [| |r] eqn:Hr;
    [| | by destruct (Hno r)];
    rewrite Hprev; simpl;
    (destruct (disk s) as [| |c] eqn:Hd;
     [ rewrite Hmk by done; simpl; by rewrite Hw
     | simpl; by rewrite Hw
     | simpl; by rewrite Hw ]).
Qed.

(** A concrete instance of [C7_start_without_previous_state]: the first
    launch of an installation whose data directory holds no registry. *)
Lemma C7_start_without_previous_state_witness :
  noPreviousState (Samples.ioOk "inst-1" 1000) NoFile
  /\ markInstanceStart (Samples.ioOk "inst-1" 1000) (init NoFile) =
       ({| currentInstanceId := "inst-1"; previousInstanceId := None;
           registryCache := Some (firstRegistry (Samples.ioOk "inst-1" 1000));
           disk := File (Stored (firstRegistry (Samples.ioOk "inst-1" 1000))) |},
        Some "inst-1").
Proof.
  split; [intros r; discriminate |].
  apply (C7_start_without_previous_state (init NoFile) (Samples.ioOk "inst-1" 1000)).
  - intros r; discriminate.
  - reflexivity.
  - reflexivity.
  - intros _; reflexivity.
Defined.

(** The same start over a file that does not parse. *)
Example start_over_corrupt_file :
  markInstanceStart (Samples.ioOk "inst-1" 1000) (init (File Corrupt))
  = markInstanceStart (Samples.ioOk "inst-1" 1000) (init NoFile).
Proof. reflexivity. Qed.

(** A second start in one process keeps the previous instance id of the
    first when the file has gone in the meantime. *)
Example second_start_keeps_previous_id :
  r_previousInstanceId <$>
    registryCache
      (fst (markInstanceStart (Samples.ioOk "inst-2" 2000)
              (mkState "inst-1" (Some "inst-0") None NoFile)))
  = Some (Some "inst-0").
Proof. reflexivity. Qed.

Lemma markInstanceStart_id (io : IO) (s s' : State) (i : string) :
  markInstanceStart io s = (s', Some i) ->
  i = io_uuid io /\ currentInstanceId s' = io_uuid io.
Proof.
  unfold markInstanceStart.
  destruct (match disk s with NoDir => _ | d => Some d end) as [d|]; [| discriminate].
  destruct (writeFile _ _ d); intros [= <- <-]; done.
Qed.

(** The ids a run returns are values of [randomUUID()], and of nothing
    else. *)
Lemma exec_ids (ops : list Op) (s : State) (i : string) :
  i ∈ snd (exec ops s) -> i ∈ uuidsOf ops.
Proof.
  revert s. induction ops as [|op ops IH]; intros s; simpl.
  - intros H. inversion H.
  - destruct (step op s) as [s1 r] eqn:Es.
    destruct (exec ops s1) as [s2 ids] eqn:Ee. simpl.
    intros Hi. apply elem_of_app in Hi as [Hi | Hi].
    + destruct r as [j|]; simpl in Hi; [| inversion Hi].
      apply list_elem_of_singleton in Hi. subst j.
      destruct op; simpl in Es; try discriminate Es.
      apply markInstanceStart_id in Es as [-> _].
      unfold uuidsOf. simpl. apply list_elem_of_here.
    + specialize (IH s1). rewrite Ee in IH. specialize (IH Hi).
      unfold uuidsOf in *. simpl. destruct op; simpl; try done.
      by apply list_elem_of_further.
Qed.

Lemma filter_all {A} (P : A -> Prop) `{forall x, Decision (P x)} (l : list A) :
  Forall P l -> filter P l = l.
Proof.
  induction 1 as [|x l Hx Hl IH]; [done |].
  rewrite filter_cons_True by done. by rewrite IH.
Qed.

(** C1: a start whose [randomUUID()] value was not given to an earlier
    start of the run, and is not carried by an entry of the file, returns
    an instance id that no earlier start of the run returned; and when the
    file can be read, and either the write succeeds or the cache agrees
    with the file, [getOrphanProcesses()] right after the start returns
    exactly the entries the file held before it. *)
Theorem C1_fresh_start
    (s0 : State) (ops : list Op) (io io' : IO) (s' : State) (i : string) :
  let s := fst (exec ops s0) in
  io_uuid io ∉ uuidsOf ops ->
  Forall (fun p => e_instanceId p <> io_uuid io) (diskEntries (disk s)) ->
  io_read_ok io = true ->
  io_read_ok io' = true ->
  (io_write_ok io = true \/ coherent s) ->
  markInstanceStart io s = (s', Some i) ->
  (i ∉ snd (exec ops s0))
  /\ snd (getOrphanProcesses io' s') = diskEntries (disk s).
Proof.
  intros s Hfresh Hdisk Hr Hr' Hw Hstart.
  destruct (markInstanceStart_id _ _ _ _ Hstart) as [-> Hcur].
  split.
  { intros Hin. apply Hfresh. by apply exec_ids in Hin. }
  clear Hcur. revert Hstart Hdisk Hw. generalize s. clear s. intros s.
  unfold markInstanceStart, coherent, readFile. rewrite Hr.
  unfold getOrphanProcesses, loadRegistry, readFile.
  destruct (disk s) as [| |[|r]] eqn:Hd; simpl;
    destruct (io_mkdir_ok io); simpl; try discriminate;
    destruct (io_write_ok io); simpl;
    intros [= <-] Hdisk Hw; simpl; try done;
    try (destruct Hw as [Hw | Hw]; [discriminate |];
         destruct (registryCache s) as [c|] eqn:Hc; simpl;
         [discriminate Hw | rewrite ?Hr'; done]).
  - by rewrite filter_all.
  - destruct Hw as [Hw | Hw]; [discriminate |].
    destruct (registryCache s) as [c|] eqn:Hc; simpl.
    + injection Hw as <-. by rewrite filter_all.
    + rewrite Hr'. simpl. by rewrite filter_all.
  - by rewrite filter_all.
  - destruct Hw as [Hw | Hw]; [discriminate |].
    destruct (registryCache s) as [c|] eqn:Hc; simpl.
    + injection Hw as <-. by rewrite filter_all.
    + rewrite Hr'. simpl. by rewrite filter_all.
Qed.

(** A concrete instance of [C1_fresh_start]: the launch that follows
    [Samples.firstRun] finds the session of the killed run as an orphan. *)
Lemma C1_fresh_start_witness :
  let s := fst (exec Samples.firstRun (init NoFile)) in
  let io := Samples.ioOk "inst-1" 1000 in
  ("inst-1" ∉ uuidsOf Samples.firstRun)
  /\ Forall (fun p => e_instanceId p <> "inst-1") (diskEntries (disk s))
  /\ ("inst-1" ∉ snd (exec Samples.firstRun (init NoFile)))
  /\ snd (getOrphanProcesses (Samples.ioOk "" 1001) (fst (markInstanceStart io s)))
     = [Samples.entryA].
Proof.
  intros s io.
  assert (H1 : "inst-1" ∉ uuidsOf Samples.firstRun) by (simpl; not_in_list).
  assert (H2 : Forall (fun p => e_instanceId p <> "inst-1") (diskEntries (disk s)))
    by (repeat constructor; discriminate).
  split; [exact H1 |]. split; [exact H2 |].
  apply (C1_fresh_start (init NoFile) Samples.firstRun io (Samples.ioOk "" 1001)
           (fst (markInstanceStart io s)) "inst-1" H1 H2).
  - reflexivity.
  - reflexivity.
  - left; reflexivity.
  - reflexivity.
Defined.

End RegistryFacts.

(** ** Event listener *)

Section ListenerFacts.

Import EventListener ListenerRuns.

(** C10: after [emitRecoverySuccess(strategyId, message)] returns, whatever
    the strategy and whatever the registered handlers did, no source has
    an error count left: [getErrorCount(source)] is 0 for every source and
    [getTotalErrorCount()] is 0. *)
Theorem C10_recovery_success_clears_all_counters
    (strategyId message : string) (now : Z) (st : State) :
  (forall source,
      getErrorCount source (emitRecoverySuccess strategyId message now st) = 0)
  /\ getTotalErrorCount (emitRecoverySuccess strategyId message now st) = 0.
Proof.
  unfold emitRecoverySuccess, getErrorCount, getTotalErrorCount. simpl. split.
  - intros source. by rewrite lookup_empty.
  - apply map_fold_empty.
Qed.

(** Counters of two sources are both gone after a recovery of either. *)
Example recovery_success_clears_other_sources :
  let st := fst (trackError "network:api" 20 (fst (trackError "agent:conv1" 10 init))) in
  getErrorCount "network:api" st = 1
  /\ getErrorCount "network:api" (emitRecoverySuccess "S2" "done" 30 st) = 0.
Proof. split; reflexivity. Qed.

Lemma trackError_counted (source : string) (now : Z) (st : State) (c : Counter) :
  errorCounters st !! source = Some c ->
  now - lastTime c <= COUNTER_RESET_MS ->
  snd (trackError source now st) = count c + 1
  /\ errorCounters (fst (trackError source now st)) !! source
     = Some {| count := count c + 1; lastTime := now |}.
Proof.
  intros Hc Hin. unfold trackError. rewrite Hc.
  destruct (Z.gtb_spec (now - lastTime c) COUNTER_RESET_MS) as [Hgt | _]; [lia |].
  simpl. by rewrite lookup_insert_eq.
Qed.

Lemma trackError_restarts (source : string) (now : Z) (st : State) :
  nothingCounted source now st ->
  snd (trackError source now st) = 1
  /\ errorCounters (fst (trackError source now st)) !! source
     = Some {| count := 1; lastTime := now |}.
Proof.
  unfold nothingCounted, trackError.
  destruct (errorCounters st !! source) as [c|]; simpl.
  - intros Hgt.
    destruct (Z.gtb_spec (now - lastTime c) COUNTER_RESET_MS) as [_ | Hle]; [| lia].
    simpl. by rewrite lookup_insert_eq.
  - intros _. by rewrite lookup_insert_eq.
Qed.

Lemma last_default {A} (l : list A) (x d d' : A) :
  List.last (x :: l) d = List.last (x :: l) d'.
Proof.
  revert x. induction l as [|y l IH]; intros x; [done |].
  change (List.last (y :: l) d = List.last (y :: l) d'). apply IH.
Qed.

(** Calls that each come within the window of the one before count on
    from the counter they find. *)
Lemma trackErrors_count_on (source : string) (times : list Z) :
  forall (st : State) (n prev : Z),
    errorCounters st !! source = Some {| count := n; lastTime := prev |} ->
    withinWindow prev times ->
    snd (trackErrors source times st)
      = map (fun k => n + Z.of_nat k) (seq 1 (length times))
    /\ errorCounters (fst (trackErrors source times st)) !! source
       = Some {| count := n + Z.of_nat (length times); lastTime := List.last times prev |}.
Proof.
  induction times as [|t times IH]; intros st n prev Hc Hw.
  - simpl. rewrite Z.add_0_r. done.
  - destruct Hw as [Ht Hw].
    destruct (trackError_counted source t st _ Hc Ht) as [Hn Hc'].
    simpl in Hn, Hc'.
    cbn [trackErrors]. destruct (trackError source t st) as [st1 m] eqn:E1.
    simpl in Hn, Hc'. subst m.
    specialize (IH st1 (n + 1) t Hc' Hw).
    destruct (trackErrors source times st1) as [st2 ns] eqn:E2.
    simpl in IH. destruct IH as [-> Hlast]. simpl. split.
    + f_equal. rewrite <- (seq_shift (length times) 1), map_map.
      apply map_ext. intros k. lia.
    + rewrite Hlast. f_equal. f_equal; [lia |].
      destruct times as [|u times]; [done |]. apply last_default.
Qed.

(** C4: for every source and every N >= 1, N calls of [trackError(source)]
    that begin with nothing counted for the source (no counter, or one
    whose window has elapsed) and that each come within the 60-second
    window of the call before, return 1, 2, ..., N in order; one more call
    made after more than the window has elapsed since the last of them
    returns 1. *)
Theorem C4_track_error_counts_within_window
    (source : string) (t : Z) (times : list Z) (t' : Z) (st : State) :
  nothingCounted source t st ->
  withinWindow t times ->
  t' - List.last times t > COUNTER_RESET_MS ->
  snd (trackErrors source (t :: times) st)
    = map Z.of_nat (seq 1 (S (length times)))
  /\ snd (trackError source t' (fst (trackErrors source (t :: times) st))) = 1.
Proof.
  intros Hfresh Hw Hlate.
  destruct (trackError_restarts source t st Hfresh) as [H1 Hc].
  cbn [trackErrors]. destruct (trackError source t st) as [st1 m] eqn:E1.
  simpl in H1, Hc. subst m.
  destruct (trackErrors_count_on source times st1 1 t Hc Hw) as [Hns Hlast].
  destruct (trackErrors source times st1) as [st2 ns] eqn:E2.
  simpl in Hns, Hlast. simpl fst. simpl snd. split.
  - rewrite Hns. cbn [seq map]. f_equal.
    rewrite <- (seq_shift (length times) 1), !map_map. apply map_ext. intros k. lia.
  - apply trackError_restarts. unfold nothingCounted. rewrite Hlast. simpl. lia.
Qed.

(** A concrete instance of [C4_track_error_counts_within_window]: three
    errors of one conversation 20 s apart, then one 61 s later. *)
Lemma C4_track_error_counts_within_window_witness :
  nothingCounted "agent:conv1" 1000 init
  /\ withinWindow 1000 [21000; 41000]
  /\ snd (trackErrors "agent:conv1" [1000; 21000; 41000] init) = [1; 2; 3]
  /\ snd (trackError "agent:conv1" 102000
            (fst (trackErrors "agent:conv1" [1000; 21000; 41000] init))) = 1.
Proof.
  assert (H1 : nothingCounted "agent:conv1" 1000 init) by exact I.
  assert (H2 : withinWindow 1000 [21000; 41000])
    by (cbn [withinWindow]; unfold COUNTER_RESET_MS; lia).
  split; [exact H1 |]. split; [exact H2 |].
  apply (C4_track_error_counts_within_window "agent:conv1" 1000 [21000; 41000]
           102000 init H1 H2).
  cbn [List.last]; unfold COUNTER_RESET_MS; lia.
Defined.

Lemma runCall_handlers (st : State) (c : HandlerCall) :
  eventHandlers (runCall st c) = eventHandlers st.
Proof.
  destruct c as [source now | source |]; simpl; try done.
  unfold trackError. by destruct (errorCounters st !! source).
Qed.

Lemma runCall_recent (st : State) (c : HandlerCall) :
  recentEvents (runCall st c) = if isClear c then [] else recentEvents st.
Proof.
  destruct c as [source now | source |]; simpl; try done.
  unfold trackError. by destruct (errorCounters st !! source).
Qed.

Lemma runCalls_state (calls : list HandlerCall) (st : State) :
  eventHandlers (fold_left runCall calls st) = eventHandlers st
  /\ recentEvents (fold_left runCall calls st)
     = if existsb isClear calls then [] else recentEvents st.
Proof.
  revert st. induction calls as [|c calls IH]; intros st; simpl; [done |].
  destruct (IH (runCall st c)) as [-> ->].
  rewrite runCall_handlers, runCall_recent.
  split; [done |]. destruct (isClear c); simpl; [| done].
  by destruct (existsb isClear calls).
Qed.

Lemma invoke_state (event : HealthEvent) (st : State) (handler : HealthEventHandler) :
  eventHandlers (invoke event st handler) = eventHandlers st
  /\ recentEvents (invoke event st handler)
     = if clearsOn event handler then [] else recentEvents st.
Proof.
  unfold invoke, clearsOn.
  destruct (runCalls_state (h_calls (handler event)) st) as [Hh Hr].
  destruct (h_throws (handler event)); simpl; by rewrite Hh, Hr.
Qed.

(** A throwing handler does not keep the handlers after it from being
    invoked: delivery is a fold over all of them. *)
Lemma deliver_state (event : HealthEvent) (handlers : list HealthEventHandler) (st : State) :
  eventHandlers (fold_left (invoke event) handlers st) = eventHandlers st
  /\ recentEvents (fold_left (invoke event) handlers st)
     = if existsb (clearsOn event) handlers then [] else recentEvents st.
Proof.
  revert st. induction handlers as [|h handlers IH]; intros st; simpl; [done |].
  destruct (IH (invoke event st h)) as [-> ->].
  destruct (invoke_state event st h) as [-> ->].
  split; [done |]. destruct (clearsOn event h); simpl; [| done].
  by destruct (existsb (clearsOn event) handlers).
Qed.

Lemma removelast_take {A} (n : nat) (l : list A) :
  (S n <= length l)%nat -> removelast (take (S n) l) = take n l.
Proof.
  revert l. induction n as [|n IH]; intros [|x l] Hl; simpl in *; try lia; [done |].
  destruct l as [|y l]; [simpl in Hl; lia |].
  change (x :: removelast (take (S n) (y :: l)) = x :: take n (y :: l)).
  f_equal. apply IH. simpl in *. lia.
Qed.

(** Pushing onto the bounded buffer keeps it the head of the history. *)
Lemma pushRecent_take (event : HealthEvent) (history : list HealthEvent) :
  pushRecent event (take MAX_RECENT_EVENTS history)
  = take MAX_RECENT_EVENTS (event :: history).
Proof.
  unfold pushRecent.
  destruct (Nat.ltb_spec MAX_RECENT_EVENTS
              (length (event :: take MAX_RECENT_EVENTS history))) as [Hfull | Hroom].
  - simpl in Hfull. rewrite length_take in Hfull.
    assert (Hl : (MAX_RECENT_EVENTS <= length history)%nat) by lia.
    unfold MAX_RECENT_EVENTS in *.
    change (removelast (event :: take 50 history)) with
      (removelast (take 51 (event :: history))).
    rewrite removelast_take by (simpl; lia). done.
  - simpl in Hroom. rewrite length_take in Hroom.
    assert (Hl : (length history < MAX_RECENT_EVENTS)%nat) by lia.
    unfold MAX_RECENT_EVENTS in *.
    rewrite take_ge by lia.
    change (take 50 (event :: history)) with (event :: take 49 history).
    by rewrite take_ge by lia.
Qed.

Lemma runOps_refines (handlers : list HealthEventHandler) (ops : list Op) :
  forall (st : State) (history : list HealthEvent),
    eventHandlers st = handlers ->
    recentEvents st = take MAX_RECENT_EVENTS history ->
    recentEvents (runOps ops st)
    = take MAX_RECENT_EVENTS (fold_left (remember handlers) ops history).
Proof.
  unfold runOps.
  induction ops as [|op ops IH]; intros st history Hh Hr; simpl; [done |].
  apply IH.
  - destruct op as [type category source message data now |]; simpl; [| done].
    unfold emitHealthEvent.
    match goal with |- eventHandlers (fold_left (invoke ?e) ?hs ?s) = _ =>
      destruct (deliver_state e hs s) as [-> _] end.
    done.
  - destruct op as [type category source message data now |]; simpl; [| done].
    unfold emitHealthEvent.
    match goal with |- recentEvents (fold_left (invoke ?e) ?hs ?s) = _ =>
      destruct (deliver_state e hs s) as [_ ->] end.
    simpl. rewrite Hh.
    destruct (existsb _ handlers); [done |].
    rewrite Hr. apply pushRecent_take.
Qed.

(** C9: after any sequence of [emitHealthEvent] and [clearRecentEvents]
    calls, with any handlers registered, the buffer holds at most 50
    events, and they are the 50 most recent of the events emitted since
    the buffer was last cleared, newest first. *)
Theorem C9_recent_events_bounded
    (handlers : list HealthEventHandler) (ops : list Op) :
  (length (recentEvents (runOps ops (setHandlers handlers init))) <= 50)%nat
  /\ recentEvents (runOps ops (setHandlers handlers init))
     = take 50 (recentHistory handlers ops).
Proof.
  assert (H : recentEvents (runOps ops (setHandlers handlers init))
              = take 50 (recentHistory handlers ops))
    by (by apply runOps_refines).
  split; [| exact H]. rewrite H, length_take. lia.
Qed.

(** On a full buffer the new event goes in front and the oldest one, at
    the end, is dropped. *)
Lemma pushRecent_full (event : HealthEvent) (buf : list HealthEvent) :
  length buf = MAX_RECENT_EVENTS ->
  pushRecent event buf = event :: removelast buf.
Proof.
  intros Hlen. unfold pushRecent. simpl length. rewrite Hlen.
  destruct buf as [|b buf]; [discriminate Hlen |]. reflexivity.
Qed.

End ListenerFacts.

(** ** Strategy selection *)

Section StrategyFacts.

Import Strategies.

Lemma prefix_spec (sub s : string) :
  String.prefix sub s = true <-> exists post, s = sub +:+ post.
Proof.
  revert s. induction sub as [|a sub IH]; intros s.
  - split; [intros _; exists s; reflexivity | by destruct s].
  - destruct s as [|b s]; simpl.
    + split; [done | intros [post H]; discriminate H].
    + destruct (Ascii.ascii_dec a b) as [-> | Hne].
      * rewrite IH. split; intros [post H]; exists post; [by rewrite H | by injection H].
      * split; [done | intros [post H]; injection H as H1 H2; congruence].
Qed.

(** [includes] finds exactly the strings that contain [sub]. *)
Lemma includes_spec (s sub : string) :
  includes s sub = true <-> exists pre post, s = pre +:+ sub +:+ post.
Proof.
  induction s as [|a s IH]; cbn [includes].
  - rewrite orb_false_r, prefix_spec. split.
    + intros [post H]. by exists "", post.
    + intros [pre [post H]]. destruct pre; [by exists post | discriminate H].
  - rewrite orb_true_iff, prefix_spec, IH. split.
    + intros [[post H] | [pre [post H]]].
      * by exists "", post.
      * exists (String a pre), post. simpl. by rewrite H.
    + intros [pre [post H]]. destruct pre as [|b pre].
      * left. by exists post.
      * right. simpl in H. injection H as -> H. by exists pre, post.
Qed.

(** C5: [selectRecoveryStrategy(errorCount, source)] is ['S3'] whenever
    [errorCount >= 5], whatever the source; ['S2'] whenever
    [3 <= errorCount < 5] and the source contains ["agent"] or
    ["session"]; and [null] otherwise. In particular it is ['S3'], not
    ['S2'], for a count of 5 and the source ["agent:conv1"]. *)
Theorem C5_select_recovery_strategy (errorCount : Z) (source : string) :
  selectRecoveryStrategy errorCount source
  = (if 5 <=? errorCount then Some S3
     else if (3 <=? errorCount) && (errorCount <? 5)
             && (includes source "agent" || includes source "session")
     then Some S2
     else None)
  /\ selectRecoveryStrategy 5 "agent:conv1" = Some S3.
Proof.
  split; [| reflexivity].
  unfold selectRecoveryStrategy, AGENT_RESET, APP_RESTART.
  destruct (Z.leb_spec 5 errorCount) as [H5 | H5].
  - destruct (Z.ltb_spec errorCount 5) as [Hlt | _]; [lia |].
    by rewrite andb_false_r.
  - done.
Qed.

End StrategyFacts.

(** ** Recovery executor *)

Section ExecutorFacts.

Import Strategies Executor ExecutorRuns.

Ltac run_body :=
  unfold executeS1, executeS2, executeS3, executeS4, catch, closeAllSessions,
    cleanupOrphans, emitRecoverySuccess, log, perform, raise, outcome, onRegistry,
    onListener,
    mbind, M_bind, mret, M_ret;
  simpl.

(** A strategy body leaves the executor's own variables alone, and the
    first thing it prints is its entry line. *)
Lemma body_frame (sid : RecoveryStrategyId) (env : Env) (w : World) :
  executor (fst (bodyOf sid env w)) = executor w
  /\ exists rest, console (fst (bodyOf sid env w)) = console w ++ bodyLine sid :: rest.
Proof.
  destruct sid; unfold bodyOf; run_body;
    destruct (closeAllSessionsFn (executor w));
    destruct (env_sessions_throw env);
    destruct (env_cleanup env); simpl;
    (split; [reflexivity |]).
  all: try (eexists; reflexivity).
  all: rewrite <- app_assoc; eexists; reflexivity.
Qed.

Lemma executeRecovery_refused (sid : RecoveryStrategyId) (env : Env) (w : World) :
  requiresConsent sid = true ->
  executeRecovery sid false env w
  = (addLog (executingLine sid) w, failure sid "User consent required" (env_now env)).
Proof.
  unfold requiresConsent, executeRecovery, getStrategy. by intros ->.
Qed.

Lemma executeRecovery_limited
    (sid : RecoveryStrategyId) (consented : bool) (env : Env) (w : World) :
  requiresConsent sid && negb consented = false ->
  rateLimits (env_now env) w = true ->
  executeRecovery sid consented env w
  = (addLog tooMany
       (setAttempts (recentRecoveryAttempts (executor w) + 1)
          (addLog (executingLine sid) w)),
     failure sid "Recovery rate limit exceeded" (env_now env)).
Proof.
  unfold requiresConsent, executeRecovery, getStrategy, rateLimits. intros -> H.
  apply andb_true_iff in H as [Hc Ha]. simpl. by rewrite Hc, Ha.
Qed.

Lemma executeRecovery_runs
    (sid : RecoveryStrategyId) (consented : bool) (env : Env) (w : World) :
  requiresConsent sid && negb consented = false ->
  rateLimits (env_now env) w = false ->
  recentRecoveryAttempts (executor (fst (executeRecovery sid consented env w)))
  = (if env_now env - lastRecoveryTime (executor w) <? RECOVERY_COOLDOWN_MS
     then recentRecoveryAttempts (executor w) + 1 else 1)
  /\ lastRecoveryTime (executor (fst (executeRecovery sid consented env w))) = env_now env
  /\ bodyEntered sid w (fst (executeRecovery sid consented env w)).
Proof.
  unfold requiresConsent, executeRecovery, getStrategy, rateLimits. intros -> H. simpl.
  set (inCooldown := env_now env - lastRecoveryTime (executor w) <? RECOVERY_COOLDOWN_MS) in *.
  set (attempts := if inCooldown then recentRecoveryAttempts (executor w) + 1 else 1).
  assert (Hgo : inCooldown && (attempts >? MAX_RECOVERY_ATTEMPTS) = false).
  { unfold attempts. destruct inCooldown; [exact H | done]. }
  rewrite Hgo. unfold tryCatch. fold (bodyOf sid env).
  set (w2 := setLastRecoveryTime (env_now env) (setAttempts attempts (addLog (executingLine sid) w))).
  destruct (body_frame sid env w2) as [Hx [rest Hcon]].
  unfold bodyEntered.
  destruct (bodyOf sid env w2) as [w' [r | msg]]; simpl in *.
  - rewrite Hx. repeat split; try reflexivity.
    exists rest. rewrite Hcon. by rewrite <- app_assoc.
  - rewrite Hx. repeat split; try reflexivity.
    eexists. rewrite Hcon. rewrite <- !app_assoc. reflexivity.
Qed.

(** A successful reset of the agent engine leaves no error count for any
    source, not only for ["agent"]. *)
Lemma executeS2_clears_all_counters (env : Env) (w : World) (source : string) :
  env_sessions_throw env = None ->
  threw (env_cleanup env) = false ->
  EventListener.getErrorCount source (listener (fst (executeS2 env w))) = 0.
Proof.
  intros Hs Hc. run_body. rewrite Hs.
  destruct (env_cleanup env) as [res | msg]; [| discriminate Hc].
  destruct (closeAllSessionsFn (executor w)); simpl;
    unfold EventListener.getErrorCount; simpl; by rewrite lookup_empty.
Qed.

(** C2, as amended: for every strategy whose catalogue entry has
    [requiresConsent = true], [executeRecovery(strategyId, false)] returns
    the failure ["User consent required"] and does nothing but print the
    line that announces the strategy; [executeRecovery(strategyId, true)]
    enters the strategy body unless the call is refused for the rate
    limit. *)
Theorem C2_consent_gate (sid : RecoveryStrategyId) (env : Env) (w : World) :
  requiresConsent sid = true ->
  executeRecovery sid false env w
  = (addLog (executingLine sid) w, failure sid "User consent required" (env_now env))
  /\ (rateLimits (env_now env) w = false ->
      bodyEntered sid w (fst (executeRecovery sid true env w))).
Proof.
  intros Hc. split; [by apply executeRecovery_refused |].
  intros Hr. apply executeRecovery_runs; [| exact Hr].
  by rewrite andb_false_r.
Qed.

(** The strategies that need consent are S3 and S4. *)
Lemma requiresConsent_iff (sid : RecoveryStrategyId) :
  requiresConsent sid = true <-> sid = S3 \/ sid = S4.
Proof.
  destruct sid; simpl; split; intros H;
    try discriminate H; try (destruct H as [H | H]; discriminate H); auto.
Qed.

(** A concrete instance of [C2_consent_gate]: a restart of the application
    asked for in a fresh process. *)
Lemma C2_consent_gate_witness :
  executeRecovery S3 false (Samples.envAt 1000000) (initWorld Registry.NoFile)
  = (addLog (executingLine S3) (initWorld Registry.NoFile),
     failure S3 "User consent required" 1000000)
  /\ bodyEntered S3 (initWorld Registry.NoFile)
       (fst (executeRecovery S3 true (Samples.envAt 1000000)
               (initWorld Registry.NoFile))).
Proof.
  destruct (C2_consent_gate S3 (Samples.envAt 1000000) (initWorld Registry.NoFile)
              eq_refl) as [Hrefused Hentered].
  split; [exact Hrefused |]. apply Hentered. reflexivity.
Defined.

(** C2 as stated fails once the rate limit is reached: after three
    recoveries within the cooldown, [executeRecovery('S3', true)] is
    refused before the body of S3 is entered. *)
Lemma C2_counterexample :
  let w := fst (executeRecovery S1 false (Samples.envAt 1002000)
             (fst (executeRecovery S1 false (Samples.envAt 1001000)
                (fst (executeRecovery S1 false (Samples.envAt 1000000)
                   (initWorld Registry.NoFile)))))) in
  let '(w', r) := executeRecovery S3 true (Samples.envAt 1003000) w in
  requiresConsent S3 = true
  /\ r = failure S3 "Recovery rate limit exceeded" 1003000
  /\ ~ bodyEntered S3 w w'.
Proof.
  intros w. destruct (executeRecovery S3 true (Samples.envAt 1003000) w) as [w' r] eqn:E.
  assert (Hlim : executeRecovery S3 true (Samples.envAt 1003000) w
                 = (addLog tooMany
                      (setAttempts (recentRecoveryAttempts (executor w) + 1)
                         (addLog (executingLine S3) w)),
                    failure S3 "Recovery rate limit exceeded" 1003000))
    by (apply executeRecovery_limited; reflexivity).
  rewrite Hlim in E. injection E as <- <-.
  split; [reflexivity |]. split; [reflexivity |].
  intros [rest H]. vm_compute in H. discriminate H.
Qed.

Ltac split_members :=
  repeat match goal with
         | H : _ ∈ _ :: _ |- _ => apply elem_of_cons in H as [-> | H]
         | H : _ ∈ [] |- _ => inversion H
         end.

Lemma limited_step_is_rateLimited (w : World) (c : Call) :
  passesConsent c ->
  rateLimits (env_now (c_env c)) w = true ->
  let '(w', r) := executeRecovery (c_strategy c) (c_consented c) (c_env c) w in
  rateLimited (mkStep w c r w')
  /\ recentRecoveryAttempts (executor w') = recentRecoveryAttempts (executor w) + 1
  /\ lastRecoveryTime (executor w') = lastRecoveryTime (executor w).
Proof.
  intros Hc Hl. rewrite (executeRecovery_limited _ _ _ _ Hc Hl).
  split; [| done]. unfold rateLimited, noAction. simpl.
  split; [done |]. split; [done |].
  rewrite <- app_assoc, drop_app_length.
  destruct (c_strategy c); not_in_list.
Qed.

(** Once [k] attempts are counted and every remaining call falls inside
    the cooldown of the last recovery and of the other calls, the call
    that brings the count over the cap, and every call after it, is
    refused. *)
Lemma run_limited (calls : list Call) :
  forall (w : World) (k : Z),
    k <= recentRecoveryAttempts (executor w) ->
    Forall passesConsent calls ->
    (forall c, c ∈ calls ->
       env_now (c_env c) - lastRecoveryTime (executor w) < RECOVERY_COOLDOWN_MS) ->
    withinCooldown calls ->
    forall (i : nat) (s : Step),
      run w calls !! i = Some s -> 3 <= k + Z.of_nat i -> rateLimited s.
Proof.
  induction calls as [|c calls IH]; intros w k Hk Hcons Hlast Hpair i s Hs Hi;
    [discriminate Hs |].
  apply Forall_cons in Hcons as [Hc Hcons].
  assert (Hin : (env_now (c_env c) - lastRecoveryTime (executor w) <? RECOVERY_COOLDOWN_MS)
                = true).
  { apply Z.ltb_lt, Hlast, list_elem_of_here. }
  assert (Hrest : withinCooldown calls).
  { intros a b Ha Hb. apply Hpair; by apply list_elem_of_further. }
  cbn [run] in Hs.
  destruct (rateLimits (env_now (c_env c)) w) eqn:Hl.
  - pose proof (limited_step_is_rateLimited w c Hc Hl) as Hstep.
    destruct (executeRecovery (c_strategy c) (c_consented c) (c_env c) w) as [w' r].
    destruct Hstep as [Hlim [Ha Ht]].
    destruct i as [|j]; simpl in Hs.
    + injection Hs as <-. exact Hlim.
    + apply (IH w' (k + 1)) with (i := j); try done; [lia | | lia].
      intros c' Hc'. rewrite Ht. apply Hlast. by apply list_elem_of_further.
  - destruct (executeRecovery_runs _ _ (c_env c) w Hc Hl) as [Ha [Ht _]].
    rewrite Hin in Ha.
    destruct (executeRecovery (c_strategy c) (c_consented c) (c_env c) w) as [w' r].
    simpl in Ha, Ht.
    destruct i as [|j]; simpl in Hs.
    + exfalso. unfold rateLimits in Hl. rewrite Hin in Hl. simpl in Hl.
      unfold MAX_RECOVERY_ATTEMPTS in Hl.
      destruct (Z.gtb_spec (recentRecoveryAttempts (executor w) + 1) 3); [done | lia].
    + apply (IH w' (k + 1)) with (i := j); try done; [lia | | lia].
      intros c' Hc'. rewrite Ht.
      apply Hpair; [by apply list_elem_of_further | apply list_elem_of_here].
Qed.

(** C3, as amended: for any calls of [executeRecovery] that pass the
    consent check, made one after the other and any two of them less than
    30 s apart, of which the first is itself not refused for the rate
    limit: the fourth call and every later one returns the failure
    ["Recovery rate limit exceeded"] and runs no strategy action. *)
Theorem C3_rate_limit
    (w : World) (c : Call) (calls : list Call) (i : nat) (s : Step) :
  0 <= recentRecoveryAttempts (executor w) ->
  Forall passesConsent (c :: calls) ->
  withinCooldown (c :: calls) ->
  rateLimits (env_now (c_env c)) w = false ->
  (3 <= i)%nat ->
  run w (c :: calls) !! i = Some s ->
  rateLimited s.
Proof.
  intros Ha Hcons Hpair Hfirst Hi Hs.
  apply Forall_cons in Hcons as [Hc Hcons].
  destruct (executeRecovery_runs _ _ (c_env c) w Hc Hfirst) as [Hn [Ht _]].
  cbn [run] in Hs.
  destruct (executeRecovery (c_strategy c) (c_consented c) (c_env c) w) as [w' r].
  simpl in Hn, Ht.
  destruct i as [|j]; [lia |]. simpl in Hs.
  apply (run_limited calls w' 1) with (i := j); try done.
  - rewrite Hn. destruct (_ <? _); lia.
  - intros c' Hc'. rewrite Ht.
    apply Hpair; [by apply list_elem_of_further | apply list_elem_of_here].
  - intros a b Ha' Hb'. apply Hpair; by apply list_elem_of_further.
  - lia.
Qed.

(** The attempt counter never goes below zero. *)
Lemma attempts_nonneg (sid : RecoveryStrategyId) (consented : bool) (env : Env) (w : World) :
  0 <= recentRecoveryAttempts (executor w) ->
  0 <= recentRecoveryAttempts (executor (fst (executeRecovery sid consented env w))).
Proof.
  intros Ha.
  destruct (requiresConsent sid && negb consented) eqn:Hc.
  - unfold executeRecovery, getStrategy. unfold requiresConsent in Hc. by rewrite Hc.
  - destruct (rateLimits (env_now env) w) eqn:Hl.
    + rewrite (executeRecovery_limited _ _ _ _ Hc Hl). simpl. lia.
    + destruct (executeRecovery_runs _ _ env w Hc Hl) as [-> _].
      destruct (_ <? _); lia.
Qed.

(** A concrete instance of [C3_rate_limit]: of four recoveries asked for
    within three seconds in a fresh process, the fourth is refused. *)
Lemma C3_rate_limit_witness :
  match run (initWorld Registry.NoFile) Samples.burst !! 3%nat with
  | Some s => rateLimited s
  | None => False
  end.
Proof.
  destruct (run (initWorld Registry.NoFile) Samples.burst !! 3%nat) as [s|] eqn:E.
  - apply (C3_rate_limit (initWorld Registry.NoFile) (Samples.restartAt 1000000)
             (map Samples.restartAt [1001000; 1002000; 1003000]) 3 s).
    + simpl; lia.
    + repeat constructor.
    + intros a b Ha Hb. simpl in Ha, Hb. split_members; simpl;
        unfold RECOVERY_COOLDOWN_MS; lia.
    + reflexivity.
    + lia.
    + exact E.
  - vm_compute in E. discriminate E.
Defined.

(** C3 as stated fails after refused calls: three recoveries ten seconds
    apart are followed by four calls within five seconds; the first three
    of these are refused, and the fourth, made 30 s after the last
    recovery, runs its strategy although three calls came less than 30 s
    before it. *)
Lemma C3_counterexample :
  Forall passesConsent (Samples.history ++ Samples.lateBurst)
  /\ withinCooldown Samples.lateBurst
  /\ match run (initWorld Registry.NoFile) (Samples.history ++ Samples.lateBurst) !! 6%nat with
     | Some s =>
         env_now (c_env (st_call s)) = 1050000
         /\ success (st_result s) = true
         /\ ~ rateLimited s
     | None => False
     end.
Proof.
  split; [repeat constructor |]. split.
  - intros a b Ha Hb. unfold Samples.lateBurst in Ha, Hb. simpl in Ha, Hb.
    split_members; simpl; unfold RECOVERY_COOLDOWN_MS; lia.
  - assert (E : (fun s => (env_now (c_env (st_call s)), success (st_result s)))
                  <$> (run (initWorld Registry.NoFile)
                         (Samples.history ++ Samples.lateBurst) !! 6%nat)
                = Some (1050000, true))
      by (vm_compute; reflexivity).
    destruct (run (initWorld Registry.NoFile)
                (Samples.history ++ Samples.lateBurst) !! 6%nat) as [s|];
      [| discriminate E].
    simpl in E. injection E as E1 E2.
    split; [exact E1 |]. split; [exact E2 |].
    intros [H _]. rewrite H in E2. discriminate E2.
Qed.

End ExecutorFacts.

(** ** Health probes *)

Section ProbeFacts.

Import Probes.

(** What every probe reports when an error is raised inside it. *)
Lemma internal_error_report (r : ProbeRun) :
  internalError r = true ->
  (healthy (resultOf r), severity (resultOf r)) = onInternalError r.
Proof.
  destruct r as [env | env | env | env s | env | env]; simpl.
  - unfold configInternalError, runConfigProbe.
    destruct (cfg_fault env); [done |].
    destruct (cfg_exists env); [| done]. simpl.
    destruct (cfg_parse env) as [config | msg]; [| done].
    by destruct (inspectConfig config).
  - unfold diskInternalError, runDiskProbe, getDiskSpace.
    destruct (dk_fault env); [done |].
    by destruct (dk_statfs env).
  - unfold portInternalError, runPortProbe.
    by destruct (portLoop env portRange (mkLists [] [] [])) as [l [u | msg]].
  - unfold processInternalError, runProcessProbe.
    destruct (Registry.getOrphanProcesses (pr_orphans_io env) s) as [s1 orphans].
    destruct (Registry.getCurrentProcesses (pr_current_io env) s1) as [s2 current].
    by destruct (pr_cleanup env).
  - unfold serviceInternalError, checkOpenAIRouter, checkHttpEndpoint.
    by destruct (sv_fetch env).
  - unfold serviceInternalError, checkHttpServer, checkHttpEndpoint.
    by destruct (sv_fetch env).
Qed.

(** C8, as amended: for the disk, port and process probes, an internal
    error raised inside the probe yields a result with [healthy: true] and
    severity [warning], never an unhealthy result. *)
Theorem C8_probe_internal_error (r : ProbeRun) :
  internalError r = true ->
  failsOpen r = true ->
  healthy (resultOf r) = true /\ severity (resultOf r) = Warning.
Proof.
  intros Herr Hopen. pose proof (internal_error_report r Herr) as Hrep.
  destruct r; try discriminate Hopen; simpl in Hrep |- *;
    injection Hrep as Hh Hs; by rewrite Hh, Hs.
Qed.

(** A concrete instance of [C8_probe_internal_error]: the disk probe when
    [statfsSync] throws. *)
Lemma C8_probe_internal_error_witness :
  internalError (RunDisk Samples.unreadableDisk) = true
  /\ healthy (runDiskProbe Samples.unreadableDisk) = true
  /\ severity (runDiskProbe Samples.unreadableDisk) = Warning.
Proof.
  split; [reflexivity |].
  apply (C8_probe_internal_error (RunDisk Samples.unreadableDisk)); reflexivity.
Defined.

(** C8 as stated fails for the config probe: on a configuration file that
    holds [null], reading [config.aiSources] throws inside the probe, and
    the probe reports [healthy: false] with severity [critical]. *)
Lemma C8_counterexample :
  internalError (RunConfig Samples.nullConfig) = true
  /\ healthy (resultOf (RunConfig Samples.nullConfig)) = false
  /\ severity (resultOf (RunConfig Samples.nullConfig)) = Critical.
Proof. repeat split. Qed.

(** The readings of the spec's examples: a custom source without a key,
    and 50 MB free of 1000 MB. *)
Example config_without_key :
  let config :=
    JObj [("aiSources", JObj [("current", JStr "custom")]); ("permissions", JObj [])] in
  let res := runConfigProbe (mkConfigEnv true (Ok config) None 1000) in
  healthy res = true /\ severity res = Warning
  /\ data res = ConfigData true true true false [].
Proof. repeat split. Qed.

Example disk_nearly_full :
  let env := mkDiskEnv "/home/user/.halo" (Some (12800, 256000, 4096)) None 1000
               (fun _ => "50.0 MB") (fun _ _ => "5.0") in
  healthy (runDiskProbe env) = false /\ severity (runDiskProbe env) = Critical.
Proof. split; reflexivity. Qed.

End ProbeFacts.

(** ** Process registry: invariants and compositions *)

Section RegistryMoreFacts.

Import Registry RegistryRuns RegistryInvariants.

Lemma loadRegistry_cases (io : IO) (s : State) :
  (exists r, loadRegistry io s = (setCache r s, Some r)
             /\ (registryCache s = Some r
                 \/ (registryCache s = None /\ disk s = File (Stored r))))
  \/ (loadRegistry io s = (s, None) /\ registryCache s = None).
Proof.
  unfold loadRegistry, readFile.
  destruct s as [cur prev [c|] d]; simpl.
  - left. exists c. split; [done | by left].
  - destruct d as [| | [|r]]; try destruct (io_read_ok io);
      try (right; split; reflexivity).
    left. exists r. split; [done | by right].
Qed.

Lemma saveRegistry_result (io : IO) (r : HealthRegistry) (s : State) :
  saveRegistry io r (setCache r s)
  = {| currentInstanceId := currentInstanceId s;
       previousInstanceId := previousInstanceId s;
       registryCache := Some r;
       disk := default (disk s) (writeFile io r (disk s)) |}.
Proof. unfold saveRegistry, setCache. simpl. by destruct (writeFile io r (disk s)). Qed.

Lemma writeFile_result (io : IO) (r : HealthRegistry) (d d' : Disk) :
  writeFile io r d = Some d' -> d' = File (Stored r).
Proof.
  unfold writeFile. destruct d; [done | |]; destruct (io_write_ok io); by intros [= <-].
Qed.

Lemma map_keyOf_insert (ps : list ProcessEntry) (i : nat) (p q : ProcessEntry) :
  ps !! i = Some p -> keyOf q = keyOf p ->
  map keyOf (<[i := q]> ps) = map keyOf ps.
Proof.
  intros Hp Hk. change (map keyOf) with (fmap (M := list) keyOf).
  rewrite list_fmap_insert, Hk. apply list_insert_id. by rewrite list_lookup_fmap, Hp.
Qed.

Lemma findIndex_Some {A} (f : A -> bool) (l : list A) (i : nat) :
  findIndex f l = Some i ->
  exists x, l !! i = Some x /\ f x = true /\ forall j y, (j < i)%nat -> l !! j = Some y -> f y = false.
Proof.
  revert i. induction l as [|a l IH]; intros i; simpl; [done |].
  destruct (f a) eqn:Ha.
  - intros [= <-]. exists a. split; [done |]. split; [done |]. intros j y Hj. lia.
  - destruct (findIndex f l) as [k|] eqn:Hk; simpl; [| done].
    intros [= <-]. destruct (IH k eq_refl) as [x [Hx [Hfx Hbefore]]].
    exists x. split; [done |]. split; [done |].
    intros [|j] y Hj Hy; simpl in Hy.
    + by injection Hy as <-.
    + apply (Hbefore j); [lia | done].
Qed.

(** What [registerProcess] leaves in the list is unique when the list
    was. *)
Lemma register_keeps_unique (ps : list ProcessEntry) (entry : ProcessEntry) (now : Z) :
  uniqueKeys ps ->
  uniqueKeys
    (match findIndex (sameProcess (e_id entry) (e_type entry)) ps with
     | Some i => <[i := withHeartbeat entry now]> ps
     | None => ps ++ [withHeartbeat entry now]
     end).
Proof.
  unfold uniqueKeys. intros Hu.
  destruct (findIndex _ ps) as [i|] eqn:Hi.
  - destruct (findIndex_Some _ _ _ Hi) as [x [Hx [Hfx _]]].
    apply sameProcess_true in Hfx as [H1 H2].
    rewrite (map_keyOf_insert ps i x); [done | done |].
    unfold keyOf. simpl. by rewrite H1, H2.
  - rewrite map_app. simpl. apply NoDup_app. split; [done |]. split.
    + intros k Hk Hin. apply list_elem_of_singleton in Hin. subst k.
      apply list_elem_of_fmap in Hk as [p [Hkey Hp]].
      apply unregistered_findIndex in Hi. apply (Hi p Hp).
      unfold keyOf in Hkey. simpl in Hkey. by injection Hkey as <- <-.
    + apply NoDup_singleton.
Qed.

Lemma sublist_keeps_unique (ps qs : list ProcessEntry) :
  qs `sublist_of` ps -> uniqueKeys ps -> uniqueKeys qs.
Proof.
  unfold uniqueKeys. intros Hsub Hu.
  apply (sublist_NoDup _ (map keyOf ps)); [done |].
  clear Hu. induction Hsub; simpl; [constructor | by constructor | by constructor].
Qed.

Lemma alter_keeps_keys (ps : list ProcessEntry) (i : nat) (now : Z) :
  map keyOf (alter (fun e => withHeartbeat e now) i ps) = map keyOf ps.
Proof.
  revert i. induction ps as [|p ps IH]; intros [|i]; try done.
  simpl. f_equal. apply IH.
Qed.

(** The common shape of the mutating operations: the loaded registry is
    changed in place and then saved. *)
Lemma saved_unique (io : IO) (r' : HealthRegistry) (s : State) :
  registryUnique s -> uniqueKeys (r_processes r') ->
  registryUnique (saveRegistry io r' (setCache r' s)).
Proof.
  intros [_ Hd] Hr'. rewrite saveRegistry_result. split; simpl.
  - by intros c [= <-].
  - destruct (writeFile io r' (disk s)) as [d'|] eqn:Hw; simpl; [| done].
    by rewrite (writeFile_result _ _ _ _ Hw).
Qed.

Lemma loaded_unique (io : IO) (s s1 : State) (o : option HealthRegistry) :
  registryUnique s -> loadRegistry io s = (s1, o) ->
  registryUnique s1 /\ forall r, o = Some r -> uniqueKeys (r_processes r).
Proof.
  intros [Hc Hd] Hl.
  destruct (loadRegistry_cases io s) as [[r [E Hwhere]] | [E _]];
    rewrite E in Hl; injection Hl as <- <-.
  - assert (Hr : uniqueKeys (r_processes r)).
    { destruct Hwhere as [Hin | [_ Hin]]; [by apply Hc |]. by rewrite Hin in Hd. }
    split; [| by intros r0 [= <-]].
    split; [by intros c [= <-] | done].
  - split; [done | by intros r0].
Qed.

Lemma step_keeps_unique (op : Op) (s : State) :
  registryUnique s -> registryUnique (fst (step op s)).
Proof.
  intros Hu. destruct op as [io | | entry io | id ty io | id ty io | io | io]; simpl.
  - (* markInstanceStart *)
    destruct Hu as [Hc Hd]. unfold markInstanceStart, readFile.
    destruct (disk s) as [| | [|r]] eqn:Ed; simpl in *;
      repeat match goal with
             | |- context [if ?b then _ else _] => destruct b; simpl
             end;
      (split; simpl; [intros c; try (intros [= <-]); simpl; auto using NoDup_nil_2
                     | simpl; auto using NoDup_nil_2]);
      try (by apply Hc); try apply NoDup_nil_2; try done.
  - (* relaunch *)
    destruct Hu as [_ Hd]. split; [done | done].
  - (* registerProcess *)
    unfold registerProcess.
    destruct (loadRegistry io s) as [s1 [r|]] eqn:El;
      destruct (loaded_unique io s s1 _ Hu El) as [Hu1 Hr]; [| done].
    apply saved_unique; [done |]. simpl.
    apply register_keeps_unique. by apply Hr.
  - (* unregisterProcess *)
    unfold unregisterProcess.
    destruct (loadRegistry io s) as [s1 [r|]] eqn:El;
      destruct (loaded_unique io s s1 _ Hu El) as [Hu1 Hr]; [| done].
    destruct (findIndex _ (r_processes r)) as [i|]; [| done].
    apply saved_unique; [done |]. simpl.
    apply (sublist_keeps_unique (r_processes r)); [apply sublist_delete | by apply Hr].
  - (* updateHeartbeat *)
    unfold updateHeartbeat.
    destruct (loadRegistry io s) as [s1 [r|]] eqn:El;
      destruct (loaded_unique io s s1 _ Hu El) as [Hu1 Hr]; [| done].
    destruct (findIndex _ (r_processes r)) as [i|]; [| done].
    apply saved_unique; [done |]. simpl.
    unfold uniqueKeys. rewrite alter_keeps_keys. by apply Hr.
  - (* clearOrphanEntries *)
    unfold clearOrphanEntries.
    destruct (loadRegistry io s) as [s1 [r|]] eqn:El;
      destruct (loaded_unique io s s1 _ Hu El) as [Hu1 Hr]; [| done].
    assert (Hk : uniqueKeys
              (filter (fun p => e_instanceId p = currentInstanceId s1) (r_processes r))).
    { apply (sublist_keeps_unique (r_processes r)); [apply sublist_filter | by apply Hr]. }
    destruct (_ <? _)%nat.
    + by apply saved_unique.
    + destruct Hu1 as [_ Hd]. split; [by intros c [= <-] | done].
  - (* markCleanExit *)
    unfold markCleanExit.
    destruct (loadRegistry io s) as [s1 [r|]] eqn:El;
      destruct (loaded_unique io s s1 _ Hu El) as [Hu1 Hr]; [| done].
    apply saved_unique; [done |]. simpl. by apply Hr.
Qed.

(** X1: at most one entry per (id, type) is an invariant of the registry:
    when neither the cache nor the file holds two entries for one pair, no
    sequence of starts, relaunches, registrations, unregistrations,
    heartbeats, orphan sweeps and clean-exit marks creates a second entry
    for a pair, whatever the file system does. *)
Theorem X1_unique_keys_invariant (ops : list Op) (s : State) :
  registryUnique s -> registryUnique (fst (exec ops s)).
Proof.
  revert s. induction ops as [|op ops IH]; intros s Hu; simpl; [done |].
  pose proof (step_keeps_unique op s Hu) as H1.
  destruct (step op s) as [s1 r]. simpl in H1.
  specialize (IH s1 H1). by destruct (exec ops s1) as [s2 ids].
Qed.

(** A concrete instance of [X1_unique_keys_invariant]: the first run of
    an installation. *)
Lemma X1_unique_keys_invariant_witness :
  registryUnique (init NoFile)
  /\ registryUnique (fst (exec Samples.firstRun (init NoFile))).
Proof.
  assert (H : registryUnique (init NoFile))
    by (split; [intros c Hc; discriminate Hc | apply NoDup_nil_2]).
  split; [exact H |]. apply (X1_unique_keys_invariant Samples.firstRun (init NoFile) H).
Defined.

Lemma loaded_coherent (io : IO) (s s1 : State) (r : HealthRegistry) :
  coherent s -> loadRegistry io s = (s1, Some r) ->
  s1 = setCache r s /\ disk s = File (Stored r).
Proof.
  unfold coherent. intros Hc Hl.
  destruct (loadRegistry_cases io s) as [[r0 [E Hwhere]] | [E _]];
    rewrite E in Hl; [| discriminate Hl].
  injection Hl as <- <-. split; [done |].
  destruct Hwhere as [Hin | [_ Hin]]; [| done]. by rewrite Hin in Hc.
Qed.

Lemma loaded_none_coherent (io : IO) (s s1 : State) :
  coherent s -> loadRegistry io s = (s1, None) -> coherent s1.
Proof.
  intros Hc Hl.
  destruct (loadRegistry_cases io s) as [[r0 [E _]] | [E _]];
    rewrite E in Hl; [discriminate Hl |]. by injection Hl as <-.
Qed.

Lemma saved_coherent (io : IO) (r r' : HealthRegistry) (s : State) :
  disk s = File (Stored r) -> io_write_ok io = true ->
  coherent (saveRegistry io r' (setCache r' s)).
Proof.
  intros Hd Hw. rewrite saveRegistry_result. unfold coherent, writeFile. simpl.
  by rewrite Hd, Hw.
Qed.

Lemma filter_keeps_all {A} (P : A -> Prop) `{forall x, Decision (P x)} (l : list A) :
  (length (filter P l) <? length l)%nat = false -> filter P l = l.
Proof.
  intros Hlen. apply filter_all. apply Forall_forall. intros x Hx.
  destruct (decide (P x)) as [HP | HP]; [done |].
  pose proof (length_filter_lt P l x Hx HP) as Hlt.
  apply Nat.ltb_ge in Hlen. lia.
Qed.

Lemma step_keeps_coherent (op : Op) (s : State) :
  coherent s -> writesOk op -> coherent (fst (step op s)).
Proof.
  intros Hc Hw. destruct op as [io | | entry io | id ty io | id ty io | io | io]; simpl.
  - destruct Hw as [Hw Hm]. unfold markInstanceStart, coherent.
    rewrite Hm. destruct (disk s) as [| | c]; simpl; by rewrite Hw.
  - done.
  - unfold registerProcess. destruct (loadRegistry io s) as [s1 [r|]] eqn:El.
    + destruct (loaded_coherent io s s1 r Hc El) as [-> Hd].
      by apply (saved_coherent io r).
    + by apply (loaded_none_coherent io s).
  - unfold unregisterProcess. destruct (loadRegistry io s) as [s1 [r|]] eqn:El.
    + destruct (loaded_coherent io s s1 r Hc El) as [-> Hd].
      destruct (findIndex _ _); [by apply (saved_coherent io r) | done].
    + by apply (loaded_none_coherent io s).
  - unfold updateHeartbeat. destruct (loadRegistry io s) as [s1 [r|]] eqn:El.
    + destruct (loaded_coherent io s s1 r Hc El) as [-> Hd].
      destruct (findIndex _ _); [by apply (saved_coherent io r) | done].
    + by apply (loaded_none_coherent io s).
  - unfold clearOrphanEntries. destruct (loadRegistry io s) as [s1 [r|]] eqn:El.
    + destruct (loaded_coherent io s s1 r Hc El) as [-> Hd].
      destruct (_ <? _)%nat eqn:Hlen; [by apply (saved_coherent io r) |].
      apply filter_keeps_all in Hlen. rewrite Hlen, withProcesses_same. done.
    + by apply (loaded_none_coherent io s).
  - unfold markCleanExit. destruct (loadRegistry io s) as [s1 [r|]] eqn:El.
    + destruct (loaded_coherent io s s1 r Hc El) as [-> Hd].
      by apply (saved_coherent io r).
    + by apply (loaded_none_coherent io s).
Qed.

(** X2: as long as the file system accepts every write, the in-memory
    registry never diverges from the file: after any sequence of
    operations that starts with the cache (if any) equal to the file, the
    cache, when there is one, is exactly what the file holds. *)
Theorem X2_cache_agrees_with_file (ops : list Op) (s : State) :
  coherent s -> Forall writesOk ops -> coherent (fst (exec ops s)).
Proof.
  revert s. induction ops as [|op ops IH]; intros s Hc Hw; simpl; [done |].
  apply Forall_cons in Hw as [Hop Hw].
  pose proof (step_keeps_coherent op s Hc Hop) as H1.
  destruct (step op s) as [s1 r]. simpl in H1.
  specialize (IH s1 H1 Hw). by destruct (exec ops s1) as [s2 ids].
Qed.

(** A concrete instance of [X2_cache_agrees_with_file]. *)
Lemma X2_cache_agrees_with_file_witness :
  coherent (init NoFile)
  /\ Forall writesOk (removelast Samples.firstRun)
  /\ coherent (fst (exec (removelast Samples.firstRun) (init NoFile))).
Proof.
  assert (H1 : coherent (init NoFile)) by exact I.
  assert (H2 : Forall writesOk (removelast Samples.firstRun))
    by (repeat constructor).
  split; [exact H1 |]. split; [exact H2 |].
  apply (X2_cache_agrees_with_file _ _ H1 H2).
Defined.

(** A write that fails leaves the entry in memory only: the cache is
    ahead of the file. *)
Example failed_write_diverges :
  let s := registerProcess Samples.entryB (mkIO "" 300 true true false) Samples.stateA in
  (r_processes <$> registryCache s) = Some [Samples.entryA; withHeartbeat Samples.entryB 300]
  /\ diskEntries (disk s) = [Samples.entryA].
Proof. split; reflexivity. Qed.

Lemma filter_filter_not {A} (P : A -> Prop) `{forall x, Decision (P x)} (l : list A) :
  filter (fun x => ~ P x) (filter P l) = [].
Proof.
  induction l as [|x l IH]; [done |].
  destruct (decide (P x)) as [HP | HP].
  - rewrite (filter_cons_True P) by done. rewrite filter_cons_False by tauto. done.
  - by rewrite (filter_cons_False P) by done.
Qed.

Lemma filter_idem {A} (P : A -> Prop) `{forall x, Decision (P x)} (l : list A) :
  filter P (filter P l) = filter P l.
Proof.
  apply filter_all. apply Forall_forall. intros x Hx.
  by apply list_elem_of_filter in Hx as [HP _].
Qed.

(** X3: once a registry is loaded, [clearOrphanEntries()] leaves no
    orphan: [getOrphanProcesses()] then returns the empty list, and
    [getCurrentProcesses()] returns what it returned before, whether or
    not the write succeeded. *)
Theorem X3_clear_orphans_leaves_none
    (io io1 io2 : IO) (s : State) (r : HealthRegistry) :
  snd (loadRegistry io s) = Some r ->
  snd (getOrphanProcesses io1 (clearOrphanEntries io s)) = []
  /\ snd (getCurrentProcesses io2 (clearOrphanEntries io s))
     = snd (getCurrentProcesses io s).
Proof.
  intros Hl. destruct (loadRegistry io s) as [s1 o] eqn:El. simpl in Hl. subst o.
  destruct (loadRegistry_cases io s) as [[r0 [E _]] | [E _]];
    rewrite E in El; [| discriminate El].
  injection El as <- <-.
  unfold getCurrentProcesses at 2. rewrite E.
  unfold clearOrphanEntries. rewrite E.
  set (kept := filter _ (r_processes r0)).
  set (r' := withProcesses r0 kept).
  assert (Hs : exists s', (if (length kept <? length (r_processes r0))%nat
                           then saveRegistry io r' (setCache r' (setCache r0 s))
                           else setCache r' (setCache r0 s)) = s'
                          /\ registryCache s' = Some r'
                          /\ currentInstanceId s' = currentInstanceId s).
  { destruct (_ <? _)%nat; eexists; (split; [reflexivity |]).
    - rewrite saveRegistry_result. done.
    - done. }
  destruct Hs as [s' [-> [Hc Hcur]]].
  unfold getOrphanProcesses, getCurrentProcesses.
  rewrite !(loadRegistry_of_cache _ _ _ Hc). simpl. rewrite Hcur.
  split; [apply filter_filter_not | apply filter_idem].
Qed.

(** A concrete instance of [X3_clear_orphans_leaves_none]: the launch
    after [Samples.firstRun] sweeps the orphan it found. *)
Lemma X3_clear_orphans_leaves_none_witness :
  let s := fst (markInstanceStart (Samples.ioOk "inst-1" 1000)
                  (fst (exec Samples.firstRun (init NoFile)))) in
  snd (getOrphanProcesses (Samples.ioOk "" 1001) s) = [Samples.entryA]
  /\ snd (getOrphanProcesses (Samples.ioOk "" 1003)
            (clearOrphanEntries (Samples.ioOk "" 1002) s)) = [].
Proof.
  intros s. split; [reflexivity |].
  destruct (X3_clear_orphans_leaves_none (Samples.ioOk "" 1002) (Samples.ioOk "" 1003)
              (Samples.ioOk "" 1003) s
              (mkRegistry 1 "inst-1" (Some "inst-0") 1000 false [Samples.entryA])
              eq_refl) as [H _].
  exact H.
Defined.

Lemma filter_complement_length {A} (P : A -> Prop) `{forall x, Decision (P x)} (l : list A) :
  (length (filter P l) + length (filter (fun x => ~ P x) l) = length l)%nat.
Proof.
  induction l as [|x l IH]; [done |].
  destruct (decide (P x)) as [HP | HP].
  - rewrite (filter_cons_True P) by done. rewrite filter_cons_False by tauto.
    simpl. lia.
  - rewrite (filter_cons_False P) by done. rewrite filter_cons_True by done.
    simpl. lia.
Qed.

(** X4: the statistics agree with the queries: [getRegistryStats()]
    counts as current what [getCurrentProcesses()] returns and as orphans
    what [getOrphanProcesses()] returns, and the two counts add up to the
    total. *)
Theorem X4_stats_agree_with_queries (io : IO) (s : State) :
  currentProcesses (snd (getRegistryStats io s))
    = length (snd (getCurrentProcesses io s))
  /\ orphanProcesses (snd (getRegistryStats io s))
     = length (snd (getOrphanProcesses io s))
  /\ totalProcesses (snd (getRegistryStats io s))
     = (currentProcesses (snd (getRegistryStats io s))
        + orphanProcesses (snd (getRegistryStats io s)))%nat.
Proof.
  unfold getRegistryStats, getCurrentProcesses, getOrphanProcesses.
  destruct (loadRegistry io s) as [s1 [r|]]; simpl; [| done].
  pose proof (filter_complement_length
                (fun p => e_instanceId p = currentInstanceId s1) (r_processes r)) as H.
  cbv beta in H. repeat split; lia.
Qed.

(** X5: an orderly shutdown is seen by the next launch: after
    [markCleanExit()] on a loaded registry, with the write accepted, a
    freshly started process that calls [wasLastExitClean()] before its own
    [markInstanceStart()] gets [true]. *)
Theorem X5_clean_exit_is_detected
    (io io' : IO) (s : State) (r : HealthRegistry) :
  snd (loadRegistry io s) = Some r ->
  io_write_ok io = true ->
  disk s <> NoDir ->
  wasLastExitClean io' (init (disk (markCleanExit io s))) = true.
Proof.
  intros Hl Hw Hd. destruct (loadRegistry io s) as [s1 o] eqn:El. simpl in Hl. subst o.
  destruct (loadRegistry_cases io s) as [[r0 [E _]] | [E _]];
    rewrite E in El; [| discriminate El].
  injection El as <- <-.
  unfold markCleanExit. rewrite E, saveRegistry_result. simpl.
  unfold writeFile. destruct (disk s) as [| | c]; [done | |]; rewrite Hw; simpl;
    unfold wasLastExitClean, readFile; simpl;
    destruct (io_read_ok io'); simpl; try done; by destruct (bool_decide _).
Qed.

(** A concrete instance of [X5_clean_exit_is_detected]. *)
Lemma X5_clean_exit_is_detected_witness :
  wasLastExitClean (Samples.ioOk "" 500)
    (init (disk (markCleanExit (Samples.ioOk "" 400) Samples.stateA))) = true.
Proof.
  apply (X5_clean_exit_is_detected (Samples.ioOk "" 400) (Samples.ioOk "" 500)
           Samples.stateA Samples.registryA).
  - reflexivity.
  - reflexivity.
  - discriminate.
Defined.







(** X7: [wasLastExitClean()] must be called before [markInstanceStart()]:
    called after a start whose write was accepted, in the same process,
    it returns [true] whatever the previous run left in the file. *)
Theorem X7_exit_check_after_start_is_blind
    (io io' : IO) (s s1 : State) (i : string) :
  markInstanceStart io s = (s1, Some i) ->
  io_write_ok io = true ->
  wasLastExitClean io' s1 = true.
Proof.
  unfold markInstanceStart. intros Hs Hw.
  destruct (disk s) as [| | c]; simpl in Hs;
    [destruct (io_mkdir_ok io); [| discriminate Hs] | |];
    simpl in Hs; rewrite Hw in Hs; injection Hs as <- _;
    unfold wasLastExitClean, readFile; simpl;
    destruct (io_read_ok io'); simpl; try done;
    by rewrite bool_decide_eq_true_2.
Qed.

(** A concrete instance of [X7_exit_check_after_start_is_blind]: the
    first run was killed, yet the check made after the second start
    answers [true]. *)
Lemma X7_exit_check_after_start_is_blind_witness :
  wasLastExitClean (Samples.ioOk "" 1001)
    (fst (markInstanceStart (Samples.ioOk "inst-1" 1000)
            (fst (exec Samples.firstRun (init NoFile))))) = true.
Proof.
  apply (X7_exit_check_after_start_is_blind (Samples.ioOk "inst-1" 1000)
           (Samples.ioOk "" 1001) (fst (exec Samples.firstRun (init NoFile)))
           (fst (markInstanceStart (Samples.ioOk "inst-1" 1000)
                   (fst (exec Samples.firstRun (init NoFile))))) "inst-1").
  - reflexivity.
  - reflexivity.
Defined.

Lemma otherThan_sameProcess (id : string) (ty : ProcessType) (p : ProcessEntry) :
  otherThan id ty p <-> sameProcess id ty p = false.
Proof.
  unfold otherThan. rewrite <- sameProcess_true. by destruct (sameProcess id ty p).
Qed.

Lemma filter_insert_dropped {A} (P : A -> Prop) `{forall x, Decision (P x)}
    (l : list A) (i : nat) (x y : A) :
  l !! i = Some x -> ~ P x -> ~ P y -> filter P (<[i := y]> l) = filter P l.
Proof.
  revert i. induction l as [|a l IH]; intros [|i] Hx Hnx Hny; simpl in *; try done.
  - injection Hx as ->. by rewrite !filter_cons_False.
  - rewrite !(filter_cons P). by rewrite (IH i).
Qed.

(** X8: [registerProcess] is find-or-insert. On a loaded registry it
    leaves the new entry, stamped with the current time, in the list;
    it keeps every entry of the other pairs, in order; and the list grows
    by one exactly when the pair was not registered, else it keeps its
    length. *)
Theorem X8_register_finds_or_inserts
    (entry : ProcessEntry) (io : IO) (s : State) (r : HealthRegistry) :
  snd (loadRegistry io s) = Some r ->
  exists r',
    registryCache (registerProcess entry io s) = Some r'
    /\ withHeartbeat entry (io_now io) ∈ r_processes r'
    /\ filter (otherThan (e_id entry) (e_type entry)) (r_processes r')
       = filter (otherThan (e_id entry) (e_type entry)) (r_processes r)
    /\ (unregistered (e_id entry) (e_type entry) (r_processes r) ->
        length (r_processes r') = S (length (r_processes r)))
    /\ (~ unregistered (e_id entry) (e_type entry) (r_processes r) ->
        length (r_processes r') = length (r_processes r)).
Proof.
  intros Hl. destruct (loadRegistry io s) as [s1 o] eqn:El. simpl in Hl. subst o.
  unfold registerProcess. rewrite El. eexists. split; [apply saveRegistry_cache |].
  simpl. set (new := withHeartbeat entry (io_now io)).
  assert (Hnew : ~ otherThan (e_id entry) (e_type entry) new)
    by (unfold otherThan; simpl; tauto).
  destruct (findIndex _ (r_processes r)) as [i|] eqn:Hi.
  - destruct (findIndex_Some _ _ _ Hi) as [x [Hx [Hfx _]]].
    split; [| split; [| split]].
    + apply list_elem_of_lookup. exists i. apply list_lookup_insert_eq.
      by apply lookup_lt_Some in Hx.
    + apply (filter_insert_dropped _ _ i x); [done | | done].
      rewrite otherThan_sameProcess. by rewrite Hfx.
    + intros Hu. apply unregistered_findIndex in Hu. rewrite Hu in Hi. discriminate Hi.
    + intros _. apply length_insert.
  - split; [| split; [| split]].
    + apply elem_of_app. right. apply list_elem_of_here.
    + rewrite filter_app, filter_cons_False by done. by rewrite app_nil_r.
    + intros _. rewrite length_app. simpl. lia.
    + intros Hu. destruct Hu. by apply unregistered_findIndex.
Qed.

(** A concrete instance of [X8_register_finds_or_inserts]: a session that
    is registered already is registered again with a new PID. *)
Lemma X8_register_finds_or_inserts_witness :
  exists r',
    registryCache (registerProcess Samples.entryA' (Samples.ioOk "" 300) Samples.stateA)
    = Some r'
    /\ withHeartbeat Samples.entryA' 300 ∈ r_processes r'
    /\ filter (otherThan "conv-1" V2Session) (r_processes r')
       = filter (otherThan "conv-1" V2Session) [Samples.entryA]
    /\ (unregistered "conv-1" V2Session [Samples.entryA] ->
        length (r_processes r') = 2%nat)
    /\ (~ unregistered "conv-1" V2Session [Samples.entryA] ->
        length (r_processes r') = 1%nat).
Proof.
  apply (X8_register_finds_or_inserts Samples.entryA' (Samples.ioOk "" 300)
           Samples.stateA Samples.registryA).
  reflexivity.
Defined.

Lemma delete_first_of_unique (id : string) (ty : ProcessType)
    (ps : list ProcessEntry) (i : nat) :
  uniqueKeys ps ->
  findIndex (sameProcess id ty) ps = Some i ->
  delete i ps = filter (otherThan id ty) ps.
Proof.
  unfold uniqueKeys. revert i. induction ps as [|p ps IH]; intros i Hu Hi; [done |].
  simpl in Hu. apply NoDup_cons in Hu as [Hp Hu]. simpl in Hi.
  destruct (sameProcess id ty p) eqn:Hs.
  - injection Hi as <-. simpl.
    rewrite filter_cons_False by (rewrite otherThan_sameProcess; by rewrite Hs).
    symmetry. apply filter_all. apply Forall_forall. intros q Hq.
    apply sameProcess_true in Hs as [H1 H2]. intros [H3 H4]. apply Hp.
    apply list_elem_of_fmap. exists q. split; [| done].
    unfold keyOf. congruence.
  - destruct (findIndex _ ps) as [k|] eqn:Hk; [| discriminate Hi].
    injection Hi as <-. simpl.
    rewrite filter_cons_True by (by apply otherThan_sameProcess).
    f_equal. by apply IH.
Qed.

(** X9: on a loaded registry with at most one entry per pair,
    [unregisterProcess(id, type)] removes the entry of that pair and
    nothing else: the list it leaves is the old one without the entries of
    [(id, type)], in the same order, and the rest of the registry is
    untouched; a pair that is not registered changes nothing. *)
Theorem X9_unregister_removes_the_pair
    (id : string) (ty : ProcessType) (io : IO) (s : State) (r : HealthRegistry) :
  snd (loadRegistry io s) = Some r ->
  uniqueKeys (r_processes r) ->
  registryCache (unregisterProcess id ty io s)
  = Some (withProcesses r (filter (otherThan id ty) (r_processes r))).
Proof.
  intros Hl Hu. destruct (loadRegistry io s) as [s1 o] eqn:El. simpl in Hl. subst o.
  unfold unregisterProcess. rewrite El.
  destruct (findIndex _ (r_processes r)) as [i|] eqn:Hi.
  - rewrite saveRegistry_cache. by rewrite (delete_first_of_unique id ty _ i).
  - rewrite (loadRegistry_cached io s s1 r El).
    apply unregistered_findIndex in Hi.
    rewrite filter_all, withProcesses_same; [done |].
    apply Forall_forall. intros p Hp. by apply Hi.
Qed.

(** A concrete instance of [X9_unregister_removes_the_pair]. *)
Lemma X9_unregister_removes_the_pair_witness :
  uniqueKeys [Samples.entryA]
  /\ registryCache (unregisterProcess "conv-1" V2Session (Samples.ioOk "" 300)
                      Samples.stateA)
     = Some (withProcesses Samples.registryA
               (filter (otherThan "conv-1" V2Session) [Samples.entryA])).
Proof.
  assert (H : uniqueKeys [Samples.entryA]) by apply NoDup_singleton.
  split; [exact H |].
  apply (X9_unregister_removes_the_pair "conv-1" V2Session (Samples.ioOk "" 300)
           Samples.stateA Samples.registryA eq_refl H).
Defined.

Lemma alter_sansHeartbeat (ps : list ProcessEntry) (i : nat) (now : Z) :
  map sansHeartbeat (alter (fun e => withHeartbeat e now) i ps) = map sansHeartbeat ps.
Proof.
  revert i. induction ps as [|p ps IH]; intros [|i]; try done.
  simpl. f_equal. apply IH.
Qed.

(** X10: [updateHeartbeat(id, type)] changes heartbeats only: on a loaded
    registry the list it leaves has the same entries in the same order
    once heartbeats are disregarded, and when the pair is registered the
    list holds an entry of that pair whose heartbeat is the current
    time. *)
Theorem X10_heartbeat_touches_only_the_heartbeat
    (id : string) (ty : ProcessType) (io : IO) (s : State) (r : HealthRegistry) :
  snd (loadRegistry io s) = Some r ->
  exists r',
    registryCache (updateHeartbeat id ty io s) = Some r'
    /\ map sansHeartbeat (r_processes r') = map sansHeartbeat (r_processes r)
    /\ (~ unregistered id ty (r_processes r) ->
        exists p, p ∈ r_processes r' /\ e_id p = id /\ e_type p = ty
                  /\ e_lastHeartbeat p = io_now io).
Proof.
  intros Hl. destruct (loadRegistry io s) as [s1 o] eqn:El. simpl in Hl. subst o.
  unfold updateHeartbeat. rewrite El.
  destruct (findIndex _ (r_processes r)) as [i|] eqn:Hi.
  - eexists. split; [apply saveRegistry_cache |]. simpl.
    split; [apply alter_sansHeartbeat |]. intros _.
    destruct (findIndex_Some _ _ _ Hi) as [x [Hx [Hfx _]]].
    apply sameProcess_true in Hfx as [H1 H2].
    exists (withHeartbeat x (io_now io)). split; [| done].
    apply list_elem_of_lookup. exists i. by rewrite list_lookup_alter_eq, Hx.
  - exists r. split; [by apply (loadRegistry_cached io s) |]. split; [done |].
    intros Hn. destruct Hn. by apply unregistered_findIndex.
Qed.

(** A concrete instance of [X10_heartbeat_touches_only_the_heartbeat]. *)
Lemma X10_heartbeat_touches_only_the_heartbeat_witness :
  exists r',
    registryCache (updateHeartbeat "conv-1" V2Session (Samples.ioOk "" 300)
                     Samples.stateA) = Some r'
    /\ map sansHeartbeat (r_processes r') = map sansHeartbeat [Samples.entryA]
    /\ (~ unregistered "conv-1" V2Session [Samples.entryA] ->
        exists p, p ∈ r_processes r' /\ e_id p = "conv-1" /\ e_type p = V2Session
                  /\ e_lastHeartbeat p = 300).
Proof.
  apply (X10_heartbeat_touches_only_the_heartbeat "conv-1" V2Session
           (Samples.ioOk "" 300) Samples.stateA Samples.registryA).
  reflexivity.
Defined.

End RegistryMoreFacts.

(** ** Event listener: counters and delivery *)

Section ListenerMoreFacts.

Import EventListener ListenerRuns ListenerDelivery.

(** X11: [trackError] and [getErrorCount] agree, and sources are counted
    apart: right after [trackError(source)] the count of the source is the
    number the call returned, that number is at least 1 when the counts
    held so far are, and the count of every other source is what it
    was. *)
Theorem X11_track_error_is_per_source (source : string) (now : Z) (st : State) :
  getErrorCount source (fst (trackError source now st)) = snd (trackError source now st)
  /\ (0 <= getErrorCount source st -> 1 <= snd (trackError source now st))
  /\ forall other, other <> source ->
       getErrorCount other (fst (trackError source now st)) = getErrorCount other st.
Proof.
  unfold trackError, getErrorCount.
  destruct (errorCounters st !! source) as [c|] eqn:Hc; simpl.
  - rewrite lookup_insert_eq. split; [done |]. split.
    + destruct (_ >? _); simpl; lia.
    + intros other Hne. by rewrite lookup_insert_ne.
  - rewrite lookup_insert_eq. split; [done |]. split; [lia |].
    intros other Hne. by rewrite lookup_insert_ne.
Qed.

(** X12: [resetErrorCounter(source)] forgets the source and only it: its
    count becomes 0, the next [trackError(source)] returns 1 whatever the
    time, and the count of every other source is what it was. *)
Theorem X12_reset_forgets_one_source (source : string) (now : Z) (st : State) :
  getErrorCount source (resetErrorCounter source st) = 0
  /\ snd (trackError source now (resetErrorCounter source st)) = 1
  /\ forall other, other <> source ->
       getErrorCount other (resetErrorCounter source st) = getErrorCount other st.
Proof.
  unfold resetErrorCounter, trackError, getErrorCount. simpl.
  rewrite lookup_delete_eq. simpl. split; [done |]. split; [done |].
  intros other Hne. by rewrite lookup_delete_ne.
Qed.

Lemma total_comm (j1 j2 : string) (z1 z2 : Counter) (y : Z) :
  y + count z2 + count z1 = y + count z1 + count z2.
Proof. lia. Qed.

Lemma total_delete (m : gmap string Counter) (k : string) (c : Counter) :
  m !! k = Some c ->
  map_fold (fun _ counter total => total + count counter) 0 m
  = map_fold (fun _ counter total => total + count counter) 0 (delete k m) + count c.
Proof.
  intros Hk. apply (map_fold_delete_L (fun _ counter total => total + count counter));
    [| done].
  intros. apply total_comm; done.
Qed.

Lemma total_insert_fresh (m : gmap string Counter) (k : string) (c : Counter) :
  m !! k = None ->
  map_fold (fun _ counter total => total + count counter) 0 (<[k := c]> m)
  = map_fold (fun _ counter total => total + count counter) 0 m + count c.
Proof.
  intros Hk. apply (map_fold_insert_L (fun _ counter total => total + count counter));
    [| done].
  intros. apply total_comm; done.
Qed.

Lemma total_insert (m : gmap string Counter) (k : string) (c : Counter) :
  map_fold (fun _ counter total => total + count counter) 0 (<[k := c]> m)
  = map_fold (fun _ counter total => total + count counter) 0 m
    - from_option count 0 (m !! k) + count c.
Proof.
  destruct (m !! k) as [old|] eqn:Hk; simpl.
  - rewrite <- insert_delete_eq, total_insert_fresh by apply lookup_delete_eq.
    rewrite (total_delete m k old Hk). lia.
  - rewrite total_insert_fresh by done. lia.
Qed.

(** X13: the total is the sum of the per-source counts: a [trackError]
    changes [getTotalErrorCount()] by exactly the change of the count of
    its source, and a [resetErrorCounter] lowers it by the count it
    forgets. *)
Theorem X13_total_follows_the_counts (source : string) (now : Z) (st : State) :
  getTotalErrorCount (fst (trackError source now st))
    = getTotalErrorCount st - getErrorCount source st + snd (trackError source now st)
  /\ getTotalErrorCount (resetErrorCounter source st)
     = getTotalErrorCount st - getErrorCount source st.
Proof.
  unfold getTotalErrorCount, getErrorCount, resetErrorCounter. split.
  - unfold trackError. destruct (errorCounters st !! source) as [c|] eqn:Hc; simpl;
      rewrite total_insert, Hc; simpl; reflexivity.
  - simpl. destruct (errorCounters st !! source) as [c|] eqn:Hc; simpl.
    + rewrite (total_delete _ source c Hc). lia.
    + rewrite delete_id by done. lia.
Qed.









Lemma pushRecent_head (event : HealthEvent) (buf : list HealthEvent) :
  hd_error (pushRecent event buf) = Some event.
Proof.
  unfold pushRecent. destruct (_ <? _)%nat eqn:Hlen; [| done].
  destruct buf as [|b buf]; [discriminate Hlen | done].
Qed.

Lemma agentSource_includes (conversationId : string) :
  Strategies.includes (agentSource conversationId) "agent" = true.
Proof. apply includes_spec. by exists "", (":" +:+ conversationId). Qed.

(** X15: an agent error is escalated exactly when a strategy is selected
    for it: [emitAgentError] puts at the head of the buffer (unless a
    handler clears it) an [agent_error] event whose source is the
    conversation id prefixed with ["agent:"], and whose category is
    [critical] exactly when [selectRecoveryStrategy] selects a strategy
    for that source and the count that [trackError] returned. *)
Theorem X15_agent_error_escalation
    (conversationId error : string) (data : list (string * Json))
    (tnow enow : Z) (st : State) (event : HealthEvent) :
  hd_error (recentEvents (emitAgentError conversationId error data tnow enow st))
    = Some event ->
  let n := snd (trackError (agentSource conversationId) tnow st) in
  ev_type event = agent_error
  /\ ev_source event = agentSource conversationId
  /\ ev_category event = (if 3 <=? n then CatCritical else CatWarning)
  /\ (ev_category event = CatCritical
      <-> Strategies.selectRecoveryStrategy n (ev_source event) <> None).
Proof.
  unfold emitAgentError. fold (agentSource conversationId).
  destruct (trackError (agentSource conversationId) tnow st) as [st1 n] eqn:Et.
  unfold emitHealthEvent.
  match goal with |- context [fold_left (invoke ?e) ?hs ?s] =>
    destruct (deliver_state e hs s) as [_ ->] end.
  destruct (existsb _ _); [discriminate |].
  simpl recentEvents. rewrite pushRecent_head. intros [= <-].
  cbn [ev_type ev_source ev_category snd].
  split; [done |]. split; [done |]. split; [done |].
  unfold Strategies.selectRecoveryStrategy, Strategies.AGENT_RESET, Strategies.APP_RESTART.
  rewrite agentSource_includes. simpl orb.
  destruct (Z.leb_spec 3 n), (Z.ltb_spec n 5), (Z.leb_spec 5 n); simpl;
    split; try done; lia.
Qed.

(** A concrete instance of [X15_agent_error_escalation]: the third error
    of a conversation within the window. *)
Lemma X15_agent_error_escalation_witness :
  let st := fst (trackErrors "agent:conv1" [1000; 2000] init) in
  hd_error (recentEvents (emitAgentError "conv1" "boom" [] 3000 3000 st))
    = Some (mkEvent agent_error CatCritical 3000 "agent:conv1" "boom"
              (Some [("consecutiveErrors", JNum 3); ("conversationId", JStr "conv1")]))
  /\ Strategies.selectRecoveryStrategy 3 "agent:conv1" <> None.
Proof.
  intros st.
  assert (H : hd_error (recentEvents (emitAgentError "conv1" "boom" [] 3000 3000 st))
              = Some (mkEvent agent_error CatCritical 3000 "agent:conv1" "boom"
                        (Some [("consecutiveErrors", JNum 3);
                               ("conversationId", JStr "conv1")])))
    by reflexivity.
  split; [exact H |].
  destruct (X15_agent_error_escalation "conv1" "boom" [] 3000 3000 st _ H)
    as [_ [_ [_ Hiff]]].
  apply Hiff. reflexivity.
Defined.

End ListenerMoreFacts.

(** ** Strategy selection: what is never selected *)

Section StrategyMoreFacts.

Import Strategies.

(** X16: automatic selection never picks S1 or S4, and it picks a
    strategy that needs the user's consent only from five consecutive
    errors on: below that count the strategy it selects, if any, runs
    without consent. *)
Theorem X16_selection_is_never_s1_or_s4
    (errorCount : Z) (source : string) (sid : RecoveryStrategyId) :
  selectRecoveryStrategy errorCount source = Some sid ->
  sid <> S1 /\ sid <> S4 /\ 3 <= errorCount
  /\ (requiresConsent sid = true <-> 5 <= errorCount).
Proof.
  unfold selectRecoveryStrategy, AGENT_RESET, APP_RESTART.
  destruct (Z.leb_spec 3 errorCount), (Z.ltb_spec errorCount 5),
    (Z.leb_spec 5 errorCount); simpl;
    try destruct (includes source "agent" || includes source "session"); simpl;
    intros [= <-]; repeat split; try done; try lia.
Qed.

(** A concrete instance of [X16_selection_is_never_s1_or_s4]. *)
Lemma X16_selection_is_never_s1_or_s4_witness :
  S2 <> S1 /\ S2 <> S4 /\ 3 <= 4 /\ (requiresConsent S2 = true <-> 5 <= 4).
Proof.
  apply (X16_selection_is_never_s1_or_s4 4 "session:abc" S2). reflexivity.
Defined.

End StrategyMoreFacts.

(** ** Recovery executor: rate limit and outcomes *)

Section ExecutorMoreFacts.

Import Strategies Executor ExecutorRuns ExecutorSpacing.

Lemma canRecover_rateLimits (now : Z) (w : World) :
  canRecover now w = negb (rateLimits now w).
Proof.
  unfold canRecover, rateLimits, MAX_RECOVERY_ATTEMPTS.
  destruct (_ <? RECOVERY_COOLDOWN_MS); simpl; [| done].
  destruct (Z.ltb_spec (recentRecoveryAttempts (executor w)) 3),
    (Z.gtb_spec (recentRecoveryAttempts (executor w) + 1) 3); simpl; try done; lia.
Qed.

(** X17: [canRecover()] tells what [executeRecovery] will do: for a call
    that passes the consent check, when [canRecover()] is true at that
    instant the strategy body is entered, and when it is false the call
    returns the rate-limit failure. *)
Theorem X17_can_recover_predicts_execution
    (sid : RecoveryStrategyId) (consented : bool) (env : Env) (w : World) :
  requiresConsent sid && negb consented = false ->
  if canRecover (env_now env) w
  then bodyEntered sid w (fst (executeRecovery sid consented env w))
  else snd (executeRecovery sid consented env w)
       = failure sid "Recovery rate limit exceeded" (env_now env).
Proof.
  intros Hc. rewrite canRecover_rateLimits.
  destruct (rateLimits (env_now env) w) eqn:Hl; simpl.
  - by rewrite (executeRecovery_limited _ _ _ _ Hc Hl).
  - by apply executeRecovery_runs.
Qed.

(** A concrete instance of [X17_can_recover_predicts_execution]. *)
Lemma X17_can_recover_predicts_execution_witness :
  if canRecover 1000000 (initWorld Registry.NoFile)
  then bodyEntered S2 (initWorld Registry.NoFile)
         (fst (executeRecovery S2 false (Samples.envAt 1000000)
                 (initWorld Registry.NoFile)))
  else snd (executeRecovery S2 false (Samples.envAt 1000000)
              (initWorld Registry.NoFile))
       = failure S2 "Recovery rate limit exceeded" 1000000.
Proof.
  apply (X17_can_recover_predicts_execution S2 false (Samples.envAt 1000000)
           (initWorld Registry.NoFile)).
  reflexivity.
Defined.

Lemma executeRecovery_refused_state
    (sid : RecoveryStrategyId) (consented : bool) (env : Env) (w : World) :
  requiresConsent sid && negb consented = true ->
  executeRecovery sid consented env w
  = (addLog (executingLine sid) w, failure sid "User consent required" (env_now env)).
Proof.
  unfold requiresConsent, executeRecovery, getStrategy. by intros ->.
Qed.








Lemma newEffects_app (w w' : World) (l : list Effect) :
  effects w' = effects w ++ l -> newEffects w w' = l.
Proof. unfold newEffects. intros ->. apply drop_app_length. Qed.

Lemma newEffects_none (w w' : World) :
  effects w' = effects w -> newEffects w w' = [].
Proof. intros H. apply newEffects_app. by rewrite app_nil_r. Qed.

Ltac run_strategy :=
  unfold executeS1, executeS2, executeS3, executeS4, catch, closeAllSessions,
    cleanupOrphans, emitRecoverySuccess, log, perform, raise, outcome, onRegistry,
    onListener,
    mbind, M_bind, mret, M_ret;
  simpl.

Ltac effects_of_body :=
  first
    [ erewrite newEffects_none by reflexivity
    | erewrite newEffects_app by (simpl; rewrite <- ?app_assoc; reflexivity) ].

Lemma executeRecovery_body
    (sid : RecoveryStrategyId) (consented : bool) (env : Env) (w : World) :
  requiresConsent sid && negb consented = false ->
  rateLimits (env_now env) w = false ->
  executeRecovery sid consented env w
  = tryCatch (bodyOf sid env)
      (fun msg w' =>
         (addLog ("[Health][Recovery] Strategy " +:+ idString sid +:+ " failed:") w',
          failure sid ("Recovery failed: " +:+ msg) (env_now env)))
      (setLastRecoveryTime (env_now env)
         (setAttempts
            (if env_now env - lastRecoveryTime (executor w) <? RECOVERY_COOLDOWN_MS
             then recentRecoveryAttempts (executor w) + 1 else 1)
            (addLog (executingLine sid) w))).
Proof.
  unfold requiresConsent, executeRecovery, getStrategy, rateLimits. intros -> H.
  cbn [addLog executor]. cbv zeta.
  destruct (env_now env - lastRecoveryTime (executor w) <? RECOVERY_COOLDOWN_MS);
    simpl in H; [rewrite H |]; reflexivity.
Qed.

(** What a strategy body leaves behind, by its result. No body throws:
    each catches what the session cleanup and the orphan cleanup throw. *)
Lemma body_outcome (sid : RecoveryStrategyId) (env : Env) (w : World) :
  exists r, snd (bodyOf sid env w) = Ok r
    /\ strategyId r = sid
    /\ (success r = true ->
        forall source,
          EventListener.getErrorCount source (listener (fst (bodyOf sid env w))) = 0)
    /\ (success r = false -> listener (fst (bodyOf sid env w)) = listener w)
    /\ (ScheduleRelaunch ∈ newEffects w (fst (bodyOf sid env w))
        <-> success r = true /\ requiresConsent sid = true).
Proof.
  destruct sid; unfold bodyOf; run_strategy;
    destruct (closeAllSessionsFn (executor w));
    destruct (env_sessions_throw env);
    destruct (env_cleanup env); cbn.
  all: eexists; (split; [reflexivity |]); cbn.
  all: (split; [reflexivity |]).
  all: (split; [try done; intros _ source; unfold EventListener.getErrorCount; simpl;
                by rewrite lookup_empty |]).
  all: (split; [try done |]).
  all: effects_of_body.
  all: split; [intros Hin | intros [H1 H2]; try discriminate H1; try discriminate H2].
  all: lazymatch goal with
       | Hin : _ ∈ _ |- _ =>
           first [ split; reflexivity
                 | exfalso;
                   repeat (apply elem_of_cons in Hin as [Hin | Hin]; [discriminate Hin |]);
                   by apply elem_of_nil in Hin ]
       | |- _ => repeat first [apply list_elem_of_here | apply list_elem_of_further]
       end.
Qed.

(** X19: a recovery succeeds as a whole or leaves the listener alone.
    When [executeRecovery] reports success every error counter has been
    cleared; when it reports failure, for whatever reason (consent, rate
    limit, a throwing session cleanup or orphan cleanup), the listener's
    state is what it was: no event was emitted and no counter reset. The
    relaunch of the application is scheduled exactly by the successful
    runs of the two strategies that need consent, and the result always
    carries the strategy asked for. *)
Theorem X19_recovery_is_all_or_nothing_for_the_listener
    (sid : RecoveryStrategyId) (consented : bool) (env : Env) (w : World) :
  let w' := fst (executeRecovery sid consented env w) in
  let r := snd (executeRecovery sid consented env w) in
  strategyId r = sid
  /\ (success r = true ->
      forall source, EventListener.getErrorCount source (listener w') = 0)
  /\ (success r = false -> listener w' = listener w)
  /\ (ScheduleRelaunch ∈ newEffects w w'
      <-> success r = true /\ requiresConsent sid = true).
Proof.
  cbv zeta.
  destruct (requiresConsent sid && negb consented) eqn:Hc.
  { rewrite (executeRecovery_refused_state _ _ _ _ Hc). cbn [fst snd].
    rewrite newEffects_none by reflexivity.
    repeat split; try done.
    all: first [by apply elem_of_nil in H | intros [H _]; discriminate H]. }
  destruct (rateLimits (env_now env) w) eqn:Hl.
  { rewrite (executeRecovery_limited _ _ _ _ Hc Hl). cbn [fst snd].
    rewrite newEffects_none by reflexivity.
    repeat split; try done.
    all: first [by apply elem_of_nil in H | intros [H _]; discriminate H]. }
  rewrite (executeRecovery_body _ _ _ _ Hc Hl). unfold tryCatch.
  match goal with |- context [bodyOf sid env ?w2] =>
    destruct (body_outcome sid env w2) as [r [Hr [Hid [Hok [Hno Hre]]]]];
    destruct (bodyOf sid env w2) as [w' x] end.
  simpl in Hr. subst x. cbn [fst snd] in *.
  split; [done |]. split; [done |]. split; [done |]. exact Hre.
Qed.

Lemma marked_exit_reads_clean (io io' : Registry.IO) (s : Registry.State)
    (r : HealthRegistry) :
  snd (Registry.loadRegistry io s) = Some r ->
  Registry.io_write_ok io = true ->
  Registry.disk s <> Registry.NoDir ->
  Registry.wasLastExitClean io'
    (Registry.init (Registry.disk (Registry.markCleanExit io s))) = true.
Proof.
  intros Hl Hw Hd. destruct (Registry.loadRegistry io s) as [s1 o] eqn:El.
  simpl in Hl. subst o.
  destruct (loadRegistry_cases io s) as [[r0 [E _]] | [E _]];
    rewrite E in El; [| discriminate El].
  injection El as <- <-.
  unfold Registry.markCleanExit. rewrite E, saveRegistry_result. simpl.
  unfold Registry.writeFile. destruct (Registry.disk s) as [| | c]; [done | |];
    rewrite Hw; simpl;
    unfold Registry.wasLastExitClean, Registry.readFile; simpl;
    destruct (Registry.io_read_ok io'); simpl; try done; by destruct (bool_decide _).
Qed.

(** X20: a restart that fails half-way leaves the clean-exit mark behind.
    When the injected session cleanup throws during S3, the call returns
    the failure ["Restart failed: ..."] and schedules no relaunch, so the
    application keeps running; but [markCleanExit()] has already run, and
    the file says the exit was clean: a launch that follows, should the
    application be killed now, gets [true] from [wasLastExitClean()]. *)
Theorem X20_failed_restart_leaves_the_clean_exit_mark
    (env : Env) (w : World) (msg : string) (r : HealthRegistry) (io' : Registry.IO) :
  rateLimits (env_now env) w = false ->
  closeAllSessionsFn (executor w) = true ->
  env_sessions_throw env = Some msg ->
  snd (Registry.loadRegistry (env_exit_io env) (registry w)) = Some r ->
  Registry.io_write_ok (env_exit_io env) = true ->
  Registry.disk (registry w) <> Registry.NoDir ->
  let w' := fst (executeRecovery S3 true env w) in
  snd (executeRecovery S3 true env w)
  = failure S3 ("Restart failed: " +:+ msg) (env_result_now env)
  /\ newEffects w w' = [CloseAllSessions]
  /\ registry w' = Registry.markCleanExit (env_exit_io env) (registry w)
  /\ Registry.wasLastExitClean io' (Registry.init (Registry.disk (registry w'))) = true.
Proof.
  intros Hl Hfn Hthrow Hload Hw Hd. cbv zeta.
  rewrite (executeRecovery_body S3 true env w eq_refl Hl).
  unfold tryCatch, bodyOf. run_strategy. rewrite Hfn, Hthrow. cbn.
  split; [reflexivity |]. split; [by apply newEffects_app |].
  split; [reflexivity |]. by apply (marked_exit_reads_clean _ _ _ r).
Qed.

(** A concrete instance of [X20_failed_restart_leaves_the_clean_exit_mark]:
    the registry of [Samples.stateA], whose file records an unclean run. *)
Lemma X20_failed_restart_leaves_the_clean_exit_mark_witness :
  Registry.wasLastExitClean (Samples.ioOk "" 1000500)
    (Registry.init (Registry.disk (registry busyWorld))) = false
  /\ snd (executeRecovery S3 true busyEnv busyWorld)
     = failure S3 "Restart failed: session busy" 1000002
  /\ Registry.wasLastExitClean (Samples.ioOk "" 1000500)
       (Registry.init
          (Registry.disk (registry (fst (executeRecovery S3 true busyEnv busyWorld)))))
     = true.
Proof.
  split; [reflexivity |].
  destruct (X20_failed_restart_leaves_the_clean_exit_mark busyEnv busyWorld
              "session busy" Samples.registryA (Samples.ioOk "" 1000500))
    as [H1 [_ [_ H4]]]; try reflexivity; [discriminate |].
  split; [exact H1 | exact H4].
Defined.

Lemma body_message (sid : RecoveryStrategyId) (env : Env) (w : World)
    (r : RecoveryResult) (rest : string) :
  snd (bodyOf sid env w) = Ok r -> message r <> "U" +:+ rest.
Proof.
  destruct sid; unfold bodyOf; run_strategy;
    destruct (closeAllSessionsFn (executor w));
    destruct (env_sessions_throw env);
    destruct (env_cleanup env); cbn; intros [= <-]; cbn; discriminate.
Qed.

End ExecutorMoreFacts.

(** ** Recovery dialogs *)

Section DialogFacts.

Import Strategies RecoveryUI.

(** What a call of [showRecoveryDialog] does to the module variables and
    to the boxes: it either shows nothing and answers [ignore], or opens
    one box, a cooldown or more after the last one. *)
Lemma showRecoveryDialog_cases
    (failures : Z) (msg : option string) (sid : RecoveryStrategyId) (now : Z)
    (answer : Exc MessageBoxReturn) (st : State) :
  let st' := fst (showRecoveryDialog failures msg sid now answer st) in
  let r := snd (showRecoveryDialog failures msg sid now answer st) in
  ((suppressDialogs st = true \/ now - lastDialogTime st < DIALOG_COOLDOWN_MS)
   /\ opened st' = opened st /\ lastDialogTime st' = lastDialogTime st
   /\ suppressDialogs st' = suppressDialogs st
   /\ r = mkDialogResult ignore (suppressDialogs st))
  \/ (suppressDialogs st = false /\ DIALOG_COOLDOWN_MS <= now - lastDialogTime st
      /\ (exists b, opened st' = opened st ++ [b] /\ isRecoveryBox b = true
                    /\ box_buttons b = labels (buildDialogButtons sid))
      /\ lastDialogTime st' = now
      /\ match answer with
         | Ok ret =>
             suppressDialogs st' = checkboxChecked ret
             /\ r = mkDialogResult
                      (default ignore
                         (elementAt (actions (buildDialogButtons sid)) (response ret)))
                      (checkboxChecked ret)
         | Throw _ => suppressDialogs st' = false /\ r = mkDialogResult ignore false
         end).
Proof.
  cbv zeta. unfold showRecoveryDialog.
  destruct (suppressDialogs st) eqn:Hs.
  { left. simpl. rewrite Hs. repeat split; try done. by left. }
  destruct (Z.ltb_spec (now - lastDialogTime st) DIALOG_COOLDOWN_MS) as [Hc | Hc].
  { left. simpl. rewrite Hs. repeat split; try done. by right. }
  right. split; [done |]. split; [done |].
  destruct answer as [[i [|]] | e]; simpl;
    (split; [eexists; repeat split; reflexivity |]); by rewrite ?Hs.
Qed.

Lemma elementAt_elem_of {A} (l : list A) (i : Z) (x : A) :
  elementAt l i = Some x -> x ∈ l.
Proof.
  unfold elementAt. destruct (i <? 0); [discriminate |].
  intros H. by apply list_elem_of_lookup_2 in H.
Qed.

Lemma ignore_offered (sid : RecoveryStrategyId) :
  ignore ∈ actions (buildDialogButtons sid).
Proof. destruct sid; simpl; set_solver. Qed.

(** X21: the recovery dialog answers with an action it offered. Whatever
    button index the message box reports (also one out of range) and also
    when the box fails, [showRecoveryDialog] returns one of the actions of
    the buttons built for the suggested strategy, [ignore] being among
    them for every strategy; an action other than [ignore] means that the
    box was opened and that the user pressed the button of that action. *)
Theorem X21_dialog_answers_with_an_offered_action
    (failures : Z) (msg : option string) (sid : RecoveryStrategyId) (now : Z)
    (answer : Exc MessageBoxReturn) (st : State) :
  let st' := fst (showRecoveryDialog failures msg sid now answer st) in
  let r := snd (showRecoveryDialog failures msg sid now answer st) in
  action r ∈ actions (buildDialogButtons sid)
  /\ (action r <> ignore ->
      exists ret label,
        answer = Ok ret
        /\ elementAt (actions (buildDialogButtons sid)) (response ret) = Some (action r)
        /\ elementAt (labels (buildDialogButtons sid)) (response ret) = Some label
        /\ exists b, opened st' = opened st ++ [b]
                     /\ box_buttons b = labels (buildDialogButtons sid)).
Proof.
  cbv zeta.
  destruct (showRecoveryDialog_cases failures msg sid now answer st)
    as [[_ [_ [_ [_ Hr]]]] | [_ [_ [[b [Hb [_ Hl]]] [_ Ha]]]]]; cbv zeta in *.
  - rewrite Hr. simpl. split; [apply ignore_offered | done].
  - destruct answer as [ret | e]; destruct Ha as [_ Hr]; rewrite Hr; simpl;
      [| split; [apply ignore_offered | done]].
    destruct (elementAt (actions (buildDialogButtons sid)) (response ret)) as [a|] eqn:E;
      simpl; [| split; [apply ignore_offered | done]].
    split; [by apply elementAt_elem_of in E |].
    intros Hne.
    assert (Hlab : exists label,
               elementAt (labels (buildDialogButtons sid)) (response ret) = Some label).
    { unfold elementAt in *. destruct (response ret <? 0); [discriminate E |].
      destruct sid; simpl in *;
        destruct (Z.to_nat (response ret)) as [|[|[|n]]]; simpl in *;
        try discriminate E; by eexists. }
    destruct Hlab as [label Hlab].
    exists ret, label. repeat split; try done. exists b. by split.
Qed.

Lemma length_app_one {A} (l : list A) (b : A) :
  (length (l ++ [b]) =? length l)%nat = false.
Proof. rewrite length_app. simpl. apply Nat.eqb_neq. lia. Qed.

Lemma step_dialog_time (op : Op) (st : State) :
  let st' := fst (step op st) in
  match dialogClock op with
  | Some now =>
      ((length (opened st') =? length (opened st))%nat = true
       /\ lastDialogTime st' = lastDialogTime st)
      \/ ((length (opened st') =? length (opened st))%nat = false
          /\ lastDialogTime st' = now
          /\ DIALOG_COOLDOWN_MS <= now - lastDialogTime st)
  | None => lastDialogTime st' = lastDialogTime st
  end.
Proof.
  cbv zeta.
  destruct op as [failures msg sid now answer | failures now answer | answer
                 | sname answer | sname msg answer | | |]; simpl;
    try done; try (by destruct answer).
  - pose proof (showRecoveryDialog_cases failures msg sid now answer st) as H.
    cbv zeta in H. destruct (showRecoveryDialog failures msg sid now answer st) as [st' r].
    simpl in *. destruct H as [[_ [Ho [Hl _]]] | [_ [Hc [[b [Hb _]] [Hl _]]]]].
    + left. rewrite Ho. by rewrite Nat.eqb_refl.
    + right. rewrite Hb. by rewrite length_app_one.
  - unfold showRestartAppDialog.
    pose proof (showRecoveryDialog_cases failures None S3 now answer st) as H.
    cbv zeta in H. destruct (showRecoveryDialog failures None S3 now answer st) as [st' r].
    simpl in *. destruct H as [[_ [Ho [Hl _]]] | [_ [Hc [[b [Hb _]] [Hl _]]]]].
    + left. rewrite Ho. by rewrite Nat.eqb_refl.
    + right. rewrite Hb. by rewrite length_app_one.
Qed.

Lemma run_apart (ops : list Op) :
  forall st, apart (lastDialogTime st) (recoveryDialogTimes (run st ops)).
Proof.
  induction ops as [|op ops IH]; intros st; [done |].
  cbn [run]. pose proof (step_dialog_time op st) as H. cbv zeta in H.
  destruct (step op st) as [st1 r]. simpl fst in H.
  unfold recoveryDialogTimes. cbn [omap list_omap].
  fold (recoveryDialogTimes (run st1 ops)).
  destruct (dialogClock op) as [now|].
  - destruct H as [[-> Hl] | [-> [Hl Hc]]].
    + rewrite <- Hl. apply IH.
    + simpl. split; [done |]. rewrite <- Hl. apply IH.
  - rewrite <- H. apply IH.
Qed.

Lemma apart_next (times : list Z) :
  forall (t0 : Z) (i : nat) (t t' : Z),
    apart t0 times -> times !! i = Some t -> times !! S i = Some t' ->
    DIALOG_COOLDOWN_MS <= t' - t.
Proof.
  induction times as [|t1 times IH]; intros t0 i t t' Ha Hi Hi'; [discriminate Hi |].
  destruct Ha as [_ Ha]. destruct i as [|i].
  - simpl in Hi. injection Hi as <-. destruct times as [|t2 times]; [discriminate Hi' |].
    simpl in Hi'. injection Hi' as <-. by destruct Ha.
  - by apply (IH t1 i).
Qed.

(** X22: recovery dialogs do not come in bursts. In any sequence of calls
    of the module's functions, whatever the clock reads and whatever the
    user answers, two recovery dialogs put on screen one after the other
    are 10 s or more apart. *)
Theorem X22_recovery_dialogs_are_ten_seconds_apart
    (st : State) (ops : list Op) (i : nat) (t t' : Z) :
  recoveryDialogTimes (run st ops) !! i = Some t ->
  recoveryDialogTimes (run st ops) !! S i = Some t' ->
  DIALOG_COOLDOWN_MS <= t' - t.
Proof.
  intros Hi Hi'.
  exact (apart_next (recoveryDialogTimes (run st ops)) (lastDialogTime st) i t t'
           (run_apart ops st) Hi Hi').
Qed.

(** A concrete instance of [X22_recovery_dialogs_are_ten_seconds_apart]:
    of four requests, 4 s apart, the first and the fourth are shown. *)
Lemma X22_recovery_dialogs_are_ten_seconds_apart_witness :
  recoveryDialogTimes (run init dialogBurst) = [100000; 112000]
  /\ DIALOG_COOLDOWN_MS <= 112000 - 100000.
Proof.
  assert (H : recoveryDialogTimes (run init dialogBurst) = [100000; 112000])
    by (vm_compute; reflexivity).
  split; [exact H |].
  apply (X22_recovery_dialogs_are_ten_seconds_apart init dialogBurst 0 100000 112000);
    rewrite H; reflexivity.
Defined.

Lemma filter_recovery_app_other (l : list MessageBox) (b : MessageBox) :
  isRecoveryBox b = false ->
  filter (fun b => isRecoveryBox b = true) (l ++ [b])
  = filter (fun b => isRecoveryBox b = true) l.
Proof.
  intros H. rewrite filter_app, filter_cons_False, filter_nil, app_nil_r; [done |].
  by rewrite H.
Qed.

(** A step that is not a reset, made while dialogs are suppressed. *)
Lemma suppressed_step (op : Op) (st : State) :
  suppressDialogs st = true -> isReset op = false ->
  suppressDialogs (fst (step op st)) = true
  /\ suppressedAnswer op (snd (step op st))
  /\ filter (fun b => isRecoveryBox b = true) (opened (fst (step op st)))
     = filter (fun b => isRecoveryBox b = true) (opened st).
Proof.
  intros Hs Hr.
  destruct op as [failures msg sid now answer | failures now answer | answer
                 | sname answer | sname msg answer | | |]; try discriminate Hr;
    simpl; try done.
  - unfold showRecoveryDialog. by rewrite Hs.
  - unfold showRestartAppDialog, showRecoveryDialog. by rewrite Hs.
  - unfold showFactoryResetDialog, showConfirmationDialog.
    destruct answer; simpl; (split; [done |]); (split; [done |]);
      by apply filter_recovery_app_other.
  - unfold showRecoverySuccessDialog, showNotificationDialog.
    destruct answer; simpl; (split; [done |]); (split; [done |]);
      by apply filter_recovery_app_other.
  - unfold showRecoveryFailedDialog, showNotificationDialog.
    destruct answer; simpl; (split; [done |]); (split; [done |]);
      by apply filter_recovery_app_other.
Qed.

(** X23: once dialogs are suppressed (the user ticked the checkbox, or
    [suppressAllDialogs()] was called) no recovery dialog is shown until
    [resetDialogSuppression()]: in any sequence of calls without a reset,
    every [showRecoveryDialog] returns [{action: 'ignore', suppressFuture:
    true}], every [showRestartAppDialog] returns [false], and no recovery
    box is opened, whatever time has passed. *)
Theorem X23_suppression_lasts_until_reset (ops : list Op) (st : State) :
  suppressDialogs st = true ->
  forallb (fun op => negb (isReset op)) ops = true ->
  Forall (fun '(st0, op, r, st1) =>
            suppressedAnswer op r
            /\ filter (fun b => isRecoveryBox b = true) (opened st1)
               = filter (fun b => isRecoveryBox b = true) (opened st0))
    (run st ops).
Proof.
  revert st. induction ops as [|op ops IH]; intros st Hs Hops; [constructor |].
  simpl in Hops. apply andb_true_iff in Hops as [Hop Hops].
  apply negb_true_iff in Hop.
  destruct (suppressed_step op st Hs Hop) as [H1 [H2 H3]].
  cbn [run]. destruct (step op st) as [st1 r]. simpl in H1, H2, H3.
  constructor; [by split |]. by apply IH.
Qed.

(** A concrete instance of [X23_suppression_lasts_until_reset]: the user
    ticks the checkbox of a first dialog; a request made a minute later is
    answered without a dialog, the factory-reset confirmation is shown. *)
Lemma X23_suppression_lasts_until_reset_witness :
  suppressDialogs tickedState = true
  /\ Forall (fun '(st0, op, r, st1) =>
               suppressedAnswer op r
               /\ filter (fun b => isRecoveryBox b = true) (opened st1)
                  = filter (fun b => isRecoveryBox b = true) (opened st0))
       (run tickedState afterTick)
  /\ map (fun '(_, _, r, _) => r) (run tickedState afterTick)
     = [RDialog (mkDialogResult ignore true); RBool true].
Proof.
  split; [reflexivity |]. split; [| reflexivity].
  apply (X23_suppression_lasts_until_reset afterTick tickedState); reflexivity.
Defined.

End DialogFacts.

(** ** Recovery with the user's consent *)

Section ConsentFacts.

Import Strategies Executor ExecutorRuns ExecutorSpacing RecoveryUI ExecutorUI.

(** A recovery run with the consent given. *)
Lemma consented_outcome (sid : RecoveryStrategyId) (env : Env) (w : World) :
  let w' := fst (executeRecovery sid true env w) in
  let r := snd (executeRecovery sid true env w) in
  strategyId r = sid
  /\ (forall rest, message r <> "U" +:+ rest)
  /\ (ScheduleRelaunch ∈ newEffects w w' <-> success r = true /\ requiresConsent sid = true).
Proof.
  cbv zeta.
  assert (Hc : requiresConsent sid && negb true = false) by apply andb_false_r.
  destruct (rateLimits (env_now env) w) eqn:Hl.
  { rewrite (executeRecovery_limited _ _ _ _ Hc Hl). cbn [fst snd].
    rewrite newEffects_none by reflexivity.
    repeat split; try done.
    all: first [by apply elem_of_nil in H | intros [H _]; discriminate H]. }
  rewrite (executeRecovery_body _ _ _ _ Hc Hl). unfold tryCatch.
  match goal with |- context [bodyOf sid env ?w2] =>
    destruct (body_outcome sid env w2) as [r [Hr [Hid [_ [_ Hre]]]]];
    pose proof (fun rest => body_message sid env w2 r rest Hr) as Hm;
    destruct (bodyOf sid env w2) as [w' x] end.
  simpl in Hr. subst x. cbn [fst snd] in *.
  split; [done |]. split; [done |]. exact Hre.
Qed.

Lemma consent_answers (sid : RecoveryStrategyId) (msg : option string) (now : Z)
    (answer : Exc MessageBoxReturn) (u : UWorld) :
  let u' := fst (requestRecoveryConsent sid msg now answer u) in
  let c := snd (requestRecoveryConsent sid msg now answer u) in
  effects (base u') = effects (base u)
  /\ executor (base u') = executor (base u)
  /\ match c with
     | None => opened (ui u') = opened (ui u) \/ exists b, opened (ui u') = opened (ui u) ++ [b]
     | Some chosen =>
         base u' = base u
         /\ (exists ret b,
               answer = Ok ret
               /\ opened (ui u') = opened (ui u) ++ [b]
               /\ box_buttons b = labels (buildDialogButtons sid)
               /\ match elementAt (actions (buildDialogButtons sid)) (response ret) with
                  | Some tryFix => chosen = S2
                  | Some restart => chosen = S3
                  | Some factoryReset => chosen = S4
                  | _ => False
                  end)
     end.
Proof.
  cbv zeta. unfold requestRecoveryConsent, isDialogSuppressed.
  destruct (suppressDialogs (ui u)) eqn:Hs; simpl; [by repeat split; try left |].
  pose proof (showRecoveryDialog_cases (consecutiveErrorCount (executor (base u)))
                msg sid now answer (ui u)) as H. cbv zeta in H.
  destruct (showRecoveryDialog _ msg sid now answer (ui u)) as [ui1 r]. simpl in *.
  split; [done |]. split; [done |].
  destruct H as [[_ [Ho [_ [_ ->]]]] | [_ [_ [[b [Hb [_ Hl]]] [_ Ha]]]]]; simpl.
  { by left. }
  destruct answer as [ret | e]; destruct Ha as [_ ->]; simpl; [| right; by exists b].
  destruct (elementAt (actions (buildDialogButtons sid)) (response ret)) as [a|] eqn:E;
    simpl; [| right; by exists b].
  destruct a; simpl; try (right; by exists b).
  all: split; [done |]; exists ret, b; rewrite E; by repeat split.
Qed.

(** X24: [requestRecoveryConsent] answers within what the dialog of the
    suggested strategy offers: never S1; S4 only when S4 was suggested; S3
    only when S3 or S4 was suggested. It returns a strategy only when the
    box was opened and a button pressed, and [null], without opening a
    box, while dialogs are suppressed or the last recovery dialog is less
    than 10 s old. It runs no recovery itself. *)
Theorem X24_consent_request_stays_within_the_offer
    (sid : RecoveryStrategyId) (msg : option string) (now : Z)
    (answer : Exc MessageBoxReturn) (u : UWorld) :
  let u' := fst (requestRecoveryConsent sid msg now answer u) in
  let c := snd (requestRecoveryConsent sid msg now answer u) in
  c <> Some S1
  /\ (c = Some S4 -> sid = S4)
  /\ (c = Some S3 -> sid = S3 \/ sid = S4)
  /\ (c <> None -> exists ret b, answer = Ok ret /\ opened (ui u') = opened (ui u) ++ [b])
  /\ ((isDialogSuppressed (ui u) = true
       \/ now - RecoveryUI.lastDialogTime (ui u) < DIALOG_COOLDOWN_MS) ->
      c = None /\ opened (ui u') = opened (ui u))
  /\ effects (base u') = effects (base u)
  /\ executor (base u') = executor (base u).
Proof.
  cbv zeta.
  pose proof (consent_answers sid msg now answer u) as [He [Hx H]]. cbv zeta in H.
  assert (Hquiet : (isDialogSuppressed (ui u) = true
            \/ now - RecoveryUI.lastDialogTime (ui u) < DIALOG_COOLDOWN_MS) ->
           snd (requestRecoveryConsent sid msg now answer u) = None
           /\ opened (ui (fst (requestRecoveryConsent sid msg now answer u)))
              = opened (ui u)).
  { unfold requestRecoveryConsent, isDialogSuppressed, showRecoveryDialog.
    destruct (suppressDialogs (ui u)); [done |]. intros [Hq | Hq]; [discriminate Hq |].
    apply Z.ltb_lt in Hq. by rewrite Hq. }
  destruct (snd (requestRecoveryConsent sid msg now answer u)) as [c|] eqn:Ec.
  - destruct H as [_ [ret [b [Ha [Ho [_ Hc]]]]]].
    assert (Hsub : c <> S1 /\ (c = S4 -> sid = S4) /\ (c = S3 -> sid = S3 \/ sid = S4)).
    { unfold elementAt in Hc. destruct (response ret <? 0); [done |].
      destruct sid; simpl in Hc;
        destruct (Z.to_nat (response ret)) as [|[|[|n]]]; simpl in Hc;
        try done; subst c; repeat split; try done; auto. }
    destruct Hsub as [H1 [H4 H3]].
    split; [intros [= E]; by apply H1 |].
    split; [intros [= E]; by apply H4 |].
    split; [intros [= E]; by apply H3 |].
    split; [intros _; by exists ret, b |].
    split; [exact Hquiet |]. by split.
  - split; [done |]. split; [done |]. split; [done |]. split; [done |].
    split; [exact Hquiet |]. by split.
Qed.

(** What the user can pick when a restart is proposed. *)
Lemma consent_for_restart (msg : option string) (now : Z)
    (answer : Exc MessageBoxReturn) (u : UWorld) :
  let u' := fst (requestRecoveryConsent S3 msg now answer u) in
  let c := snd (requestRecoveryConsent S3 msg now answer u) in
  effects (base u') = effects (base u)
  /\ (c = None
      \/ (c = Some S2 /\ base u' = base u
          /\ exists b, opened (ui u') = opened (ui u) ++ [b])
      \/ (c = Some S3 /\ base u' = base u /\ pressedFirst answer
          /\ exists b, opened (ui u') = opened (ui u) ++ [b]
                       /\ hd_error (box_buttons b) = Some "Restart App")).
Proof.
  cbv zeta.
  pose proof (consent_answers S3 msg now answer u) as [He [_ H]]. cbv zeta in H.
  split; [done |].
  destruct (snd (requestRecoveryConsent S3 msg now answer u)) as [c|]; [| by left].
  destruct H as [Hb [ret [b [Ha [Ho [Hl Hc]]]]]]. right.
  unfold elementAt in Hc. destruct (Z.ltb_spec (response ret) 0) as [Hn | Hn]; [done |].
  destruct (Z.to_nat (response ret)) as [|[|[|n]]] eqn:En; simpl in Hc; try done; subst c.
  - right. repeat split; try done.
    + exists ret. split; [done | lia].
    + exists b. split; [done |]. by rewrite Hl.
  - left. repeat split; try done. by exists b.
Qed.

Lemma executeAndNotify_result (sid : RecoveryStrategyId) (env : UIEnv)
    (u u' : UWorld) (r : RecoveryResult) :
  executeAndNotify sid env u = (u', r) ->
  base u' = fst (executeRecovery sid true (ui_exec env) (base u))
  /\ r = snd (executeRecovery sid true (ui_exec env) (base u))
  /\ (success r = true -> requiresConsent sid = true -> ui u' = ui u).
Proof.
  unfold executeAndNotify.
  destruct (executeRecovery sid true (ui_exec env) (base u)) as [w1 r1]. simpl.
  intros [= <- <-]. destruct (success r1); [| done].
  destruct sid; simpl; repeat split; try done; discriminate.
Qed.

(** X25: [executeRecoveryWithUI] always comes to an end, and calls itself
    at most once: two activations are enough for every strategy and every
    answer of the user, further environments are not consulted, and one
    activation is enough unless a restart (S3) was proposed. *)
Theorem X25_recovery_with_ui_ends_within_two_activations
    (e1 e2 : UIEnv) (rest : list UIEnv) (sid : RecoveryStrategyId)
    (msg : option string) (u : UWorld) :
  exists res,
    executeRecoveryWithUI (e1 :: e2 :: rest) sid msg u = Some res
    /\ executeRecoveryWithUI [e1; e2] sid msg u = Some res
    /\ (sid <> S3 -> executeRecoveryWithUI [e1] sid msg u = Some res).
Proof.
  destruct sid; cbn [executeRecoveryWithUI getStrategy RECOVERY_STRATEGIES
                     requiresConsentField].
  - by eexists.
  - by eexists.
  - rewrite bool_decide_eq_false_2 by discriminate.
    pose proof (consent_for_restart msg (ui_now e1) (ui_choice e1) u) as [_ H].
    cbv zeta in H.
    destruct (requestRecoveryConsent S3 msg (ui_now e1) (ui_choice e1) u) as [u1 c].
    simpl in H. destruct H as [-> | [[-> _] | [-> _]]].
    + by eexists.
    + rewrite bool_decide_eq_false_2 by discriminate. cbn. by eexists.
    + rewrite bool_decide_eq_true_2 by done. cbn. by eexists.
  - rewrite bool_decide_eq_true_2 by done.
    destruct (showFactoryResetDialog (ui_choice e1) (ui u)) as [ui1 [|]]; cbn;
      by eexists.
Qed.

(** X26: the application is relaunched only on the user's word. When a
    call of [executeRecoveryWithUI] schedules a relaunch, the strategy
    asked for was S3 or S4, it is the strategy that ran, with success, and
    the user pressed the first button of the one box the call opened:
    ["Restart App"] of the recovery dialog for S3, ["Reset & Restart"] of
    the confirmation for S4. *)
Theorem X26_relaunch_only_on_the_users_word
    (envs : list UIEnv) (sid : RecoveryStrategyId) (msg : option string)
    (u u' : UWorld) (r : RecoveryResult) :
  executeRecoveryWithUI envs sid msg u = Some (u', r) ->
  ScheduleRelaunch ∈ newEffects (base u) (base u') ->
  requiresConsent sid = true
  /\ strategyId r = sid /\ success r = true
  /\ exists env b,
       hd_error envs = Some env
       /\ pressedFirst (ui_choice env)
       /\ opened (ui u') = opened (ui u) ++ [b]
       /\ hd_error (box_buttons b)
          = Some (if bool_decide (sid = S4) then "Reset & Restart" else "Restart App").
Proof.
  destruct envs as [|e1 envs]; [discriminate |].
  destruct sid; cbn [executeRecoveryWithUI getStrategy RECOVERY_STRATEGIES
                     requiresConsentField].
  - intros [= E] Hin.
    destruct (executeAndNotify_result _ _ _ _ _ E) as [Hb _].
    destruct (consented_outcome S1 (ui_exec e1) (base u)) as [_ [_ Hre]].
    rewrite Hb in Hin. by apply Hre in Hin as [_ Hin].
  - intros [= E] Hin.
    destruct (executeAndNotify_result _ _ _ _ _ E) as [Hb _].
    destruct (consented_outcome S2 (ui_exec e1) (base u)) as [_ [_ Hre]].
    rewrite Hb in Hin. by apply Hre in Hin as [_ Hin].
  - rewrite bool_decide_eq_false_2 by discriminate.
    pose proof (consent_for_restart msg (ui_now e1) (ui_choice e1) u) as [He H].
    cbv zeta in H, He.
    destruct (requestRecoveryConsent S3 msg (ui_now e1) (ui_choice e1) u) as [u1 c].
    simpl in H, He.
    destruct H as [-> | [[-> [Hbase _]] | [-> [Hbase [Hp [b [Ho Hl]]]]]]].
    + intros [= <- <-] Hin. unfold newEffects in Hin. rewrite He in Hin.
      rewrite drop_all in Hin. by apply elem_of_nil in Hin.
    + rewrite bool_decide_eq_false_2 by discriminate. cbn [negb].
      destruct envs as [|e2 envs]; [discriminate |].
      cbn [executeRecoveryWithUI getStrategy RECOVERY_STRATEGIES requiresConsentField].
      intros [= E] Hin.
      destruct (executeAndNotify_result _ _ _ _ _ E) as [Hb _].
      destruct (consented_outcome S2 (ui_exec e2) (base u1)) as [_ [_ Hre]].
      rewrite Hb, <- Hbase in Hin. by apply Hre in Hin as [_ Hin].
    + rewrite bool_decide_eq_true_2 by done. cbn [negb].
      intros [= E] Hin.
      destruct (executeAndNotify_result _ _ _ _ _ E) as [Hb [Hr Hui]].
      destruct (consented_outcome S3 (ui_exec e1) (base u1)) as [Hid [_ Hre]].
      rewrite Hb, <- Hbase in Hin. apply Hre in Hin as [Hs _].
      rewrite <- Hr in Hid, Hs. split; [done |]. split; [done |]. split; [done |].
      exists e1, b. split; [done |]. split; [done |].
      rewrite (Hui Hs eq_refl). by split.
  - rewrite bool_decide_eq_true_2 by done.
    unfold showFactoryResetDialog, showConfirmationDialog.
    destruct (ui_choice e1) as [ret | e] eqn:Ea; cbn [negb].
    + destruct (Z.eqb_spec (response ret) 0) as [Hz | Hz]; cbn [negb].
      * intros [= E] Hin.
        destruct (executeAndNotify_result _ _ _ _ _ E) as [Hb [Hr Hui]].
        simpl base in Hb, Hr.
        destruct (consented_outcome S4 (ui_exec e1) (base u)) as [Hid [_ Hre]].
        rewrite Hb in Hin. apply Hre in Hin as [Hs _].
        rewrite <- Hr in Hid, Hs. split; [done |]. split; [done |]. split; [done |].
        eexists e1, _. split; [done |]. split; [by exists ret |].
        rewrite (Hui Hs eq_refl). by split.
      * intros [= <- <-] Hin. unfold newEffects in Hin. simpl in Hin.
        rewrite drop_all in Hin. by apply elem_of_nil in Hin.
    + intros [= <- <-] Hin. unfold newEffects in Hin. simpl in Hin.
      rewrite drop_all in Hin. by apply elem_of_nil in Hin.
Qed.

(** A concrete instance of [X26_relaunch_only_on_the_users_word]: a
    restart is proposed and the user presses ["Restart App"]. *)
Lemma X26_relaunch_only_on_the_users_word_witness :
  match executeRecoveryWithUI [pressing 0 1000000] S3 None initU with
  | Some (u', r) =>
      ScheduleRelaunch ∈ newEffects (base initU) (base u')
      /\ strategyId r = S3 /\ success r = true
      /\ pressedFirst (ui_choice (pressing 0 1000000))
  | None => False
  end.
Proof.
  destruct (executeRecoveryWithUI [pressing 0 1000000] S3 None initU) as [[u' r]|] eqn:E;
    [| vm_compute in E; discriminate E].
  assert (Hin : ScheduleRelaunch ∈ newEffects (base initU) (base u')).
  { vm_compute in E. injection E as <- <-. vm_compute. apply list_elem_of_here. }
  destruct (X26_relaunch_only_on_the_users_word [pressing 0 1000000] S3 None initU u' r
              E Hin) as [_ [H2 [H3 [env [b [He [Hp _]]]]]]].
  injection He as <-. by repeat split.
Defined.

(** X27: [executeRecoveryWithUI] never fails for want of consent: it runs
    [executeRecovery] with the consent given, so that its result is never
    ["User consent required"]; a result that says ["User chose to ignore"]
    or ["User cancelled factory reset"] comes with no recovery attempted:
    no action taken and the attempt counter where it was. The strategy of
    the result is the one asked for, or S2 in place of a proposed S3 (the
    user pressed ["Try to Fix"]). *)
Theorem X27_recovery_with_ui_never_lacks_consent
    (envs : list UIEnv) (sid : RecoveryStrategyId) (msg : option string)
    (u u' : UWorld) (r : RecoveryResult) :
  executeRecoveryWithUI envs sid msg u = Some (u', r) ->
  message r <> "User consent required"
  /\ (strategyId r = sid \/ (sid = S3 /\ strategyId r = S2))
  /\ ((message r = "User chose to ignore" \/ message r = "User cancelled factory reset") ->
      effects (base u') = effects (base u) /\ executor (base u') = executor (base u)).
Proof.
  assert (Hrun : forall sid' env u0 u1 r1,
             executeAndNotify sid' env u0 = (u1, r1) ->
             message r1 <> "User consent required"
             /\ strategyId r1 = sid'
             /\ ((message r1 = "User chose to ignore"
                  \/ message r1 = "User cancelled factory reset") -> False)).
  { intros sid' env u0 u1 r1 E.
    destruct (executeAndNotify_result _ _ _ _ _ E) as [_ [Hr _]].
    destruct (consented_outcome sid' (ui_exec env) (base u0)) as [Hid [Hm _]].
    rewrite <- Hr in Hid, Hm. split; [exact (Hm "ser consent required") |].
    split; [done |].
    intros [H | H];
      [exact (Hm "ser chose to ignore" H) | exact (Hm "ser cancelled factory reset" H)]. }
  destruct envs as [|e1 envs]; [discriminate |].
  destruct sid; cbn [executeRecoveryWithUI getStrategy RECOVERY_STRATEGIES
                     requiresConsentField].
  - intros [= E]. destruct (Hrun _ _ _ _ _ E) as [H1 [H2 H3]].
    split; [done |]. split; [by left |]. intros H. by apply H3 in H.
  - intros [= E]. destruct (Hrun _ _ _ _ _ E) as [H1 [H2 H3]].
    split; [done |]. split; [by left |]. intros H. by apply H3 in H.
  - rewrite bool_decide_eq_false_2 by discriminate.
    pose proof (consent_for_restart msg (ui_now e1) (ui_choice e1) u) as [_ H].
    pose proof (consent_answers S3 msg (ui_now e1) (ui_choice e1) u) as [He [Hx _]].
    cbv zeta in H, He, Hx.
    destruct (requestRecoveryConsent S3 msg (ui_now e1) (ui_choice e1) u) as [u1 c].
    simpl in H, He, Hx.
    destruct H as [-> | [[-> _] | [-> _]]].
    + intros [= <- <-]. simpl. split; [discriminate |]. split; [by left |]. done.
    + rewrite bool_decide_eq_false_2 by discriminate. cbn [negb].
      destruct envs as [|e2 envs]; [discriminate |].
      cbn [executeRecoveryWithUI getStrategy RECOVERY_STRATEGIES requiresConsentField].
      intros [= E]. destruct (Hrun _ _ _ _ _ E) as [H1 [H2 H3]].
      split; [done |]. split; [by right |]. intros H. by apply H3 in H.
    + rewrite bool_decide_eq_true_2 by done. cbn [negb].
      intros [= E]. destruct (Hrun _ _ _ _ _ E) as [H1 [H2 H3]].
      split; [done |]. split; [by left |]. intros H. by apply H3 in H.
  - rewrite bool_decide_eq_true_2 by done.
    destruct (showFactoryResetDialog (ui_choice e1) (ui u)) as [ui1 [|]]; cbn [negb].
    + intros [= E]. destruct (Hrun _ _ _ _ _ E) as [H1 [H2 H3]].
      split; [done |]. split; [by left |]. intros H. by apply H3 in H.
    + intros [= <- <-]. simpl. split; [discriminate |]. split; [by left |]. done.
Qed.

(** A concrete instance of [X27_recovery_with_ui_never_lacks_consent]: a
    restart is proposed and the user presses ["Try to Fix"]; the agent
    reset runs in a second activation. *)
Lemma X27_recovery_with_ui_never_lacks_consent_witness :
  match executeRecoveryWithUI [pressing 1 1000000; pressing 0 1000500] S3 None initU with
  | Some (u', r) =>
      message r <> "User consent required" /\ strategyId r = S2 /\ success r = true
  | None => False
  end.
Proof.
  destruct (executeRecoveryWithUI [pressing 1 1000000; pressing 0 1000500] S3 None initU)
    as [[u' r]|] eqn:E; [| vm_compute in E; discriminate E].
  destruct (X27_recovery_with_ui_never_lacks_consent
              [pressing 1 1000000; pressing 0 1000500] S3 None initU u' r E)
    as [H1 _].
  split; [exact H1 |]. vm_compute in E. injection E as <- <-. by split.
Defined.

End ConsentFacts.

(** ** Health probes: what the results say *)

Section ProbeMoreFacts.

Import Probes ProbeSamples.

(** The loop over the ports, when no check throws. *)
Lemma portLoop_completes (env : PortEnv) (ports : list Z) :
  forall acc,
    threw (snd (portLoop env ports acc)) = false ->
    fst (portLoop env ports acc)
    = mkLists (portsToCheck acc ++ ports)
        (portsOccupied acc ++ filter (fun p => pt_available env p = false) ports)
        (portsAvailable acc ++ filter (fun p => pt_available env p = true) ports).
Proof.
  induction ports as [|port ports IH]; intros acc H.
  { simpl. rewrite !app_nil_r. by destruct acc. }
  cbn [portLoop] in *.
  assert (Hstep : forall acc',
             threw (snd (portLoop env ports acc')) = false ->
             portsToCheck acc' = portsToCheck acc ++ [port] ->
             (if pt_available env port
              then portsOccupied acc' = portsOccupied acc
                   /\ portsAvailable acc' = portsAvailable acc ++ [port]
              else portsOccupied acc' = portsOccupied acc ++ [port]
                   /\ portsAvailable acc' = portsAvailable acc) ->
             fst (portLoop env ports acc')
             = mkLists (portsToCheck acc ++ port :: ports)
                 (portsOccupied acc
                  ++ filter (fun p => pt_available env p = false) (port :: ports))
                 (portsAvailable acc
                  ++ filter (fun p => pt_available env p = true) (port :: ports))).
  { intros acc' Ht Hc Ha. rewrite (IH acc' Ht), Hc.
    destruct (pt_available env port) eqn:Hav; destruct Ha as [-> ->].
    - rewrite filter_cons_False by (rewrite Hav; discriminate).
      rewrite filter_cons_True by done. by rewrite <- !app_assoc.
    - rewrite filter_cons_True by done.
      rewrite filter_cons_False by (rewrite Hav; discriminate).
      by rewrite <- !app_assoc. }
  destruct (pt_fault env) as [[p msg]|].
  - destruct (p =? port); [discriminate H |].
    destruct (pt_available env port) eqn:Hav; apply Hstep; try done;
      rewrite Hav; by split.
  - destruct (pt_available env port) eqn:Hav; apply Hstep; try done;
      rewrite Hav; by split.
Qed.

Lemma portRange_bounds (p : Z) :
  p ∈ portRange <-> HTTP_SERVER_PORT_START <= p <= HTTP_SERVER_PORT_END.
Proof.
  unfold portRange, HTTP_SERVER_PORT_START, HTTP_SERVER_PORT_END.
  rewrite elem_of_seqZ. lia.
Qed.

(** X28: the port probe sorts the whole range. When no availability check
    throws, the report lists the twenty ports 3847..3866 as checked, each
    of them exactly once in either the occupied or the available list
    according to [isPortAvailable], in ascending order; the result is
    unhealthy exactly when not one port of the range is available. *)
Theorem X28_port_probe_sorts_the_whole_range (env : PortEnv) :
  portInternalError env = false ->
  data (runPortProbe env)
  = PortData portRange
      (filter (fun p => pt_available env p = false) portRange)
      (filter (fun p => pt_available env p = true) portRange)
  /\ length portRange = 20%nat
  /\ (length (filter (fun p => pt_available env p = false) portRange)
      + length (filter (fun p => pt_available env p = true) portRange) = 20)%nat
  /\ (healthy (runPortProbe env) = false
      <-> forall p, HTTP_SERVER_PORT_START <= p <= HTTP_SERVER_PORT_END ->
                    pt_available env p = false).
Proof.
  unfold portInternalError, runPortProbe. intros H.
  pose proof (portLoop_completes env portRange (mkLists [] [] []) H) as Hl.
  destruct (portLoop env portRange (mkLists [] [] [])) as [l [[]| msg]];
    [| discriminate H].
  simpl in Hl. subst l. cbn [data healthy portsToCheck portsOccupied portsAvailable].
  split; [reflexivity |]. split; [reflexivity |]. split.
  - pose proof (filter_complement_length (fun p => pt_available env p = true) portRange)
      as Hc. cbv beta in Hc.
    assert (Hsame : filter (fun p => pt_available env p = false) portRange
                    = filter (fun p => ~ pt_available env p = true) portRange).
    { apply list_filter_iff. intros p. by destruct (pt_available env p). }
    rewrite Hsame. change (length portRange) with 20%nat in Hc. lia.
  - rewrite Nat.ltb_ge. split.
    + intros Hn p Hp. apply portRange_bounds in Hp.
      destruct (pt_available env p) eqn:Hav; [| done].
      assert (Hin : p ∈ filter (fun p => pt_available env p = true) portRange)
        by (by apply list_elem_of_filter).
      destruct (filter (fun p => pt_available env p = true) portRange);
        [by apply elem_of_nil in Hin | simpl in Hn; lia].
    + intros Hall.
      destruct (filter (fun p => pt_available env p = true) portRange) as [|p l] eqn:E;
        [simpl; lia |].
      assert (Hin : p ∈ filter (fun p => pt_available env p = true) portRange)
        by (rewrite E; apply list_elem_of_here).
      apply list_elem_of_filter in Hin as [Hav Hp]. apply portRange_bounds in Hp.
      rewrite (Hall p Hp) in Hav. discriminate Hav.
Qed.

(** A concrete instance of [X28_port_probe_sorts_the_whole_range]: the
    ports below 3850 are taken. *)
Lemma X28_port_probe_sorts_the_whole_range_witness :
  healthy (runPortProbe somePortsTaken) = true
  /\ data (runPortProbe somePortsTaken)
     = PortData portRange [3847; 3848; 3849]
         (filter (fun p => pt_available somePortsTaken p = true) portRange).
Proof.
  destruct (X28_port_probe_sorts_the_whole_range somePortsTaken) as [H _];
    [reflexivity |].
  split; [reflexivity | exact H].
Defined.

(** X29: the config probe reports a healthy configuration exactly when the
    file exists, parses to an object whose [aiSources] is an object with a
    string [current], and whose [permissions] is an object or an array.
    Whether an API key is configured does not enter into it. *)
Theorem X29_config_is_healthy_exactly_when (env : ConfigEnv) :
  healthy (runConfigProbe env) = true
  <-> cfg_fault env = None /\ cfg_exists env = true
      /\ exists members sources current permissions,
           cfg_parse env = Ok (JObj members)
           /\ lookupMember "aiSources" members = Some (JObj sources)
           /\ lookupMember "current" sources = Some (JStr current)
           /\ lookupMember "permissions" members = Some permissions
           /\ ((exists l, permissions = JArr l) \/ (exists m, permissions = JObj m)).
Proof.
  unfold runConfigProbe. split.
  - destruct (cfg_fault env); [discriminate |].
    destruct (cfg_exists env); [| discriminate]. cbn [negb].
    destruct (cfg_parse env) as [config | e]; [| discriminate].
    destruct config as [| b | n | s | l | members]; try discriminate.
    unfold inspectConfig, mbind, Exc_bind, mret, Exc_ret. cbn [getProp].
    cbn [healthy criticalFieldsPresent].
    destruct (lookupMember "aiSources" members) as [[| b | n | s | l | sources]|] eqn:Hs;
      cbn [truthy typeofString getPropOpt andb]; try discriminate;
      try (by destruct b); try (by destruct (negb _)).
    destruct (lookupMember "current" sources) as [[| b | n | current | l | m]|] eqn:Hc;
      cbn [truthy typeofString andb]; try discriminate.
    destruct (lookupMember "permissions" members) as [[| b | n | s | l | m]|] eqn:Hp;
      cbn [truthy typeofObject andb]; try discriminate;
      try (by destruct b); try (by destruct (negb _)).
    + intros _. do 2 (split; [done |]). exists members, sources, current, (JArr l).
      do 4 (split; [done |]). left. by exists l.
    + intros _. do 2 (split; [done |]). exists members, sources, current, (JObj m).
      do 4 (split; [done |]). right. by exists m.
  - intros [-> [-> [members [sources [current [permissions [-> [Hs [Hc [Hp Hk]]]]]]]]]].
    cbn [negb]. unfold inspectConfig, mbind, Exc_bind, mret, Exc_ret. cbn [getProp].
    rewrite Hs, Hp. cbn [healthy criticalFieldsPresent getPropOpt truthy]. rewrite Hc.
    by destruct Hk as [[l ->] | [m ->]].
Qed.

(** X30: no probe reports a critical severity on a healthy result: for
    each of the probes (config, disk, port, process, router, HTTP server)
    and whatever its environment, [severity = 'critical'] implies
    [healthy = false]. The port, the process and the HTTP server probes
    never report a critical severity at all. *)
Theorem X30_critical_means_unhealthy (r : ProbeRun) :
  severity (resultOf r) = Critical ->
  healthy (resultOf r) = false
  /\ match r with
     | RunPort _ | RunProcess _ _ | RunHttpServer _ => False
     | _ => True
     end.
Proof.
  destruct r as [env | env | env | env s | env | env]; cbn [resultOf].
  - unfold runConfigProbe. destruct (cfg_fault env); [done |].
    destruct (cfg_exists env); [| discriminate]. cbn [negb].
    destruct (cfg_parse env) as [config | e]; [| done].
    destruct (inspectConfig config) as [f | msg]; [| done]. cbn.
    destruct (criticalFieldsPresent f); [| done].
    by destruct (apiKeyConfigured f).
  - unfold runDiskProbe. destruct (dk_fault env); [discriminate |].
    destruct (getDiskSpace env) as [[free total]|]; [| discriminate].
    destruct (freeBelow free MIN_FREE_SPACE_MB); [done |].
    by destruct (freeBelow free WARNING_FREE_SPACE_MB).
  - unfold runPortProbe.
    destruct (portLoop env portRange (mkLists [] [] [])) as [l [[]| msg]];
      [| discriminate]. cbn [severity healthy].
    by destruct (0 <? length (portsAvailable l))%nat.
  - unfold runProcessProbe.
    destruct (Registry.getOrphanProcesses (pr_orphans_io env) s) as [s1 orphans].
    destruct (Registry.getCurrentProcesses (pr_current_io env) s1) as [s2 current].
    destruct (pr_cleanup env); cbn [snd severity healthy]; [| discriminate].
    by destruct (0 <? length orphans)%nat.
  - unfold checkOpenAIRouter. cbn.
    by destruct (ep_responsive (checkHttpEndpoint env)).
  - unfold checkHttpServer. cbn.
    by destruct (ep_responsive (checkHttpEndpoint env)).
Qed.

(** A concrete instance of [X30_critical_means_unhealthy]: a configuration
    file that holds [null]. *)
Lemma X30_critical_means_unhealthy_witness :
  severity (resultOf (RunConfig Samples.nullConfig)) = Critical
  /\ healthy (resultOf (RunConfig Samples.nullConfig)) = false.
Proof.
  split; [reflexivity |].
  by destruct (X30_critical_means_unhealthy (RunConfig Samples.nullConfig) eq_refl).
Defined.

End ProbeMoreFacts.
